(** * The toolgun prop: trigger state machine, tools and title rendering

    A shallow embedding of [main.py] and [hardware.py].

    Conventions of the embedding.
    - A timestamp returned by [time.time()] is a rational number of
      seconds ([Q]); all the clock readings taken during one call of a
      method are the same instant [now], which the caller passes in.
    - A Python exception that is not caught ends the program; a method
      that can raise returns a [result].
    - Calls into the collaborators (audio engine, GPIO pins, display,
      image pastes) are recorded as a list of [Event]s, in call order.
    - What the outside world decides (the level of the trigger pin, the
      pick of [random.choice], whether a playback is still playing) is an
      input of the tick. *)

From Stdlib Require Import QArith Qround Qminmax Lqa.
From stdpp Require Import base tactics option list strings.

Open Scope Z_scope.
Open Scope Q_scope.
Open Scope nat_scope.

(** ** Exceptions and results *)

Inductive exn :=
  | AssertionError
  | ZeroDivisionError
  | IndexError
  | KeyError
  | TypeError
  | AttributeError
  | Exception (msg : string).

Inductive result (A : Type) :=
  | Ok (a : A)
  | Raise (e : exn).
Arguments Ok {A} a.
Arguments Raise {A} e.

#[global] Instance result_ret : MRet result := λ A x, Ok x.
#[global] Instance result_bind : MBind result := λ A B f m,
  match m with
  | Ok a => f a
  | Raise e => Raise e
  end.

Definition is_ok {A} (r : result A) : bool :=
  match r with Ok _ => true | Raise _ => false end.

(** [seq[i]] for a non-negative index. *)
Definition py_index {A} (l : list A) (i : nat) : result A :=
  match l !! i with
  | Some x => Ok x
  | None => Raise IndexError
  end.

(** [a % b] on non-negative integers. *)
Definition py_mod_nat (a b : nat) : result nat :=
  match b with
  | O => Raise ZeroDivisionError
  | S _ => Ok (a mod b)
  end.

(** ** Clock arithmetic *)

Definition Qgtb (x y : Q) : bool := negb (Qle_bool x y).
Definition Qltb (x y : Q) : bool := Qgtb y x.

Definition Qmod (x m : Q) : Q := (x - m * inject_Z (Qfloor (x / m)))%Q.

(** [x % m] for a float [x] and a number [m]: the result has the sign of
    [m]. *)
Definition py_float_mod (x m : Q) : result Q :=
  if Qeq_bool m 0 then Raise ZeroDivisionError else Ok (Qmod x m).

(** [int(x)]: truncation towards zero. *)
Definition py_int (x : Q) : Z :=
  if Qle_bool 0 x then Qfloor x else Qceiling x.

(** ** Strings *)

Definition endswith (s suffix : string) : bool :=
  let n := String.length s in
  let k := String.length suffix in
  (k <=? n)%nat && String.eqb (String.substring (n - k) k s) suffix.

Definition newline : Ascii.ascii := Ascii.ascii_of_nat 10.

(** ["\n" in text] *)
Fixpoint contains_newline (text : string) : bool :=
  match text with
  | EmptyString => false
  | String c rest => Ascii.eqb c newline || contains_newline rest
  end.

(** ** Collaborators *)

(** A [simpleaudio.WaveObject], known by the file it was read from. *)
Definition WaveObject := string.

(** A [PlayObject]: the handle of one started playback. *)
Record PlayObject := { playing_wave : WaveObject }.

(** What is pasted onto the screen image. *)
Inductive Source :=
  | BackgroundImage (file : string)
  | TextCache                        (* the steady-colour title *)
  | Blend (alpha : Q)                (* Image.blend(yellow, steady, alpha) *)
  | DescriptionImage (text : string).

Inductive Event :=
  | Play (w : WaveObject)            (* WaveObject.play() *)
  | Stop (p : PlayObject)            (* PlayObject.stop() *)
  | SetLed (is_on : bool)
  | SetMotor (is_on : bool)
  | Paste (src : Source) (box : option (Z * Z)) (masked : bool)
  | BlDutyCycle (duty : Z)           (* screen.screen.bl_DutyCycle *)
  | SetSleep (is_sleep : bool)       (* Screen.set_sleep *)
  | ShowImage (mirror flip : bool)   (* screen.screen.ShowImage *)
  | TkUpdate                         (* a simulator window refresh *)
  | Mark (method : string).          (* a trace mark: the method was
                                        entered; no collaborator called *)

(** ** Configuration

    The JSON configuration, with values of the types the program uses
    them at.  An optional key of a tool is an [option]: [None] when the
    key is absent from the dictionary. *)

Record ToolConfig := {
  c_name : option string;
  c_hold : option bool;
  c_sounds : option (list string);
  c_sound_order : option string;
  c_sound_replay : option Q;
  c_sound_overlap : option bool;
  c_descriptions : option (list string);
  c_background : option string;
  c_light : option bool;
  c_motor : option bool
}.

Record HardwareConfig := {
  spin_duration : Q;
  flash_duration : Q;
  invert_button : bool;
  screen_flip_horizontal : bool;
  screen_flip_vertical : bool
}.

Record AppConfig := {
  text_scroll_y : Z;
  default_background : string;
  sleep_timeout : Q;
  tool_change_timeout : Q;
  sound_next : string;
  sound_equip : string;
  sound_startup : string;
  hardware_config : HardwareConfig;
  tools_config : list ToolConfig
}.

(** A loaded [ImageFont]: the size in pixels of a text. *)
Definition Font := string → Z * Z.

(** ** hardware.py *)

Module Screen.

Record t := {
  _config : HardwareConfig;
  _is_simulated : bool;
  _thread : bool;                  (* is a refresh thread running *)
  _sleep : bool;
  width : Z;
  height : Z
}.

Definition with_sleep (v : bool) (x : t) : t :=
  {| _config := _config x; _is_simulated := _is_simulated x;
     _thread := _thread x; _sleep := v; width := width x;
     height := height x |}.

Definition init (config : HardwareConfig) (simulate : bool) : t :=
  {| _config := config; _is_simulated := simulate; _thread := false;
     _sleep := false; width := 240; height := 320 |}.

Definition set_sleep (is_sleep : bool) (x : t) : t * list Event :=
  (with_sleep is_sleep x, [SetSleep is_sleep]).

Definition update (is_thread : bool) (x : t) : list Event :=
  if _thread x && negb is_thread then []
  else if _is_simulated x then [TkUpdate]
  else if negb (_sleep x) then
    [ShowImage (screen_flip_horizontal (_config x))
               (screen_flip_vertical (_config x))]
  else [].

End Screen.

Module GPHardware.

Record t := {
  config : HardwareConfig;
  _motor_spin_end : option Q;
  _led_flash_end : option Q;
  _simulated : bool
}.

Definition with_motor_spin_end (v : option Q) (x : t) : t :=
  {| config := config x; _motor_spin_end := v;
     _led_flash_end := _led_flash_end x; _simulated := _simulated x |}.
Definition with_led_flash_end (v : option Q) (x : t) : t :=
  {| config := config x; _motor_spin_end := _motor_spin_end x;
     _led_flash_end := v; _simulated := _simulated x |}.

Definition init (config : HardwareConfig) (simulated : bool) : t :=
  {| config := config; _motor_spin_end := None; _led_flash_end := None;
     _simulated := simulated |}.

Definition set_led (is_on : bool) : list Event := [SetLed is_on].
Definition set_motor (is_on : bool) : list Event := [SetMotor is_on].

Definition spin_motor (now : Q) (x : t) : t * list Event :=
  (with_motor_spin_end (Some (now + spin_duration (config x))%Q) x,
   set_motor true).

Definition flash_led (now : Q) (x : t) : t * list Event :=
  (with_led_flash_end (Some (now + flash_duration (config x))%Q) x,
   set_led true).

(** [level] is what the pin reads (the state of the window's button
    when simulated). *)
Definition is_trigger_down (level : bool) (x : t) : bool :=
  if _simulated x then level
  else if invert_button (config x) then negb level
  else level.

Definition update (now : Q) (x : t) : t * list Event :=
  let '(x, ev1) :=
    match _motor_spin_end x with
    | Some e =>
        if Qgtb now e then (with_motor_spin_end None x, set_motor false)
        else (x, [])
    | None => (x, [])
    end in
  let '(x, ev2) :=
    match _led_flash_end x with
    | Some e =>
        if Qgtb now e then (with_led_flash_end None x, set_led false)
        else (x, [])
    | None => (x, [])
    end in
  (x, ev1 ++ ev2 ++ (if _simulated x then [TkUpdate] else [])).

End GPHardware.

(** ** main.py: Tool *)

(** The parts of the application object a tool reads through
    [self._app]; none of them changes after start-up. *)
Record AppRef := {
  app_config : AppConfig;
  app_font : Font;
  app_arial_font : Font;
  app_screen_width : Z
}.

(** The panel image that [_update_description] draws. *)
Record Description := {
  d_width : Z;
  d_text : string;
  d_text_pos : Z * Z
}.

(** Reading an attribute that was never assigned, or using one that holds
    [None]. *)
Definition getattr {A} (o : option A) : result A :=
  match o with
  | Some v => Ok v
  | None => Raise AttributeError
  end.

(** [random.choice(seq)]; [pick] is the engine's draw. *)
Definition random_choice {A} (pick : nat) (l : list A) : result A :=
  match l with
  | [] => Raise IndexError
  | _ => py_index l (pick mod length l)
  end.

Module Tool.

Definition YELLOW_FADE_TIME : Q := 1 # 2.

Record t := {
  _app : AppRef;
  config : ToolConfig;
  _text_y : Z;
  _description : option Description;
  _playbacks : list PlayObject;
  _init_timer : option Q;          (* the timer of the title's fade *)
  _replay_timer : Q;
  name : string;
  hold : bool;
  sounds : list string;
  sound_order : string;
  sound_replay : Q;
  sound_overlap : bool;
  descriptions : list string;
  background : string;
  light_up : bool;
  motor_spin : bool;
  _description_selector : nat;
  _sound_selector : nat;
  _loaded : bool;
  (* set by load_content only: None until then *)
  _text_cache : option (Z * Z);    (* the size of the title image *)
  _text_cache_yellow : option (Z * Z);
  _background : option string;
  _sounds : option (list WaveObject)
}.

Definition with_description v (x : t) : t :=
  {| _app := _app x; config := config x; _text_y := _text_y x;
     _description := v; _playbacks := _playbacks x;
     _init_timer := _init_timer x; _replay_timer := _replay_timer x;
     name := name x; hold := hold x; sounds := sounds x;
     sound_order := sound_order x; sound_replay := sound_replay x;
     sound_overlap := sound_overlap x; descriptions := descriptions x;
     background := background x; light_up := light_up x;
     motor_spin := motor_spin x;
     _description_selector := _description_selector x;
     _sound_selector := _sound_selector x; _loaded := _loaded x;
     _text_cache := _text_cache x;
     _text_cache_yellow := _text_cache_yellow x;
     _background := _background x; _sounds := _sounds x |}.
Definition with_playbacks v (x : t) : t :=
  {| _app := _app x; config := config x; _text_y := _text_y x;
     _description := _description x; _playbacks := v;
     _init_timer := _init_timer x; _replay_timer := _replay_timer x;
     name := name x; hold := hold x; sounds := sounds x;
     sound_order := sound_order x; sound_replay := sound_replay x;
     sound_overlap := sound_overlap x; descriptions := descriptions x;
     background := background x; light_up := light_up x;
     motor_spin := motor_spin x;
     _description_selector := _description_selector x;
     _sound_selector := _sound_selector x; _loaded := _loaded x;
     _text_cache := _text_cache x;
     _text_cache_yellow := _text_cache_yellow x;
     _background := _background x; _sounds := _sounds x |}.
Definition with_init_timer v (x : t) : t :=
  {| _app := _app x; config := config x; _text_y := _text_y x;
     _description := _description x; _playbacks := _playbacks x;
     _init_timer := v; _replay_timer := _replay_timer x;
     name := name x; hold := hold x; sounds := sounds x;
     sound_order := sound_order x; sound_replay := sound_replay x;
     sound_overlap := sound_overlap x; descriptions := descriptions x;
     background := background x; light_up := light_up x;
     motor_spin := motor_spin x;
     _description_selector := _description_selector x;
     _sound_selector := _sound_selector x; _loaded := _loaded x;
     _text_cache := _text_cache x;
     _text_cache_yellow := _text_cache_yellow x;
     _background := _background x; _sounds := _sounds x |}.
Definition with_replay_timer v (x : t) : t :=
  {| _app := _app x; config := config x; _text_y := _text_y x;
     _description := _description x; _playbacks := _playbacks x;
     _init_timer := _init_timer x; _replay_timer := v; name := name x;
     hold := hold x; sounds := sounds x; sound_order := sound_order x;
     sound_replay := sound_replay x; sound_overlap := sound_overlap x;
     descriptions := descriptions x; background := background x;
     light_up := light_up x; motor_spin := motor_spin x;
     _description_selector := _description_selector x;
     _sound_selector := _sound_selector x; _loaded := _loaded x;
     _text_cache := _text_cache x;
     _text_cache_yellow := _text_cache_yellow x;
     _background := _background x; _sounds := _sounds x |}.
Definition with_description_selector v (x : t) : t :=
  {| _app := _app x; config := config x; _text_y := _text_y x;
     _description := _description x; _playbacks := _playbacks x;
     _init_timer := _init_timer x; _replay_timer := _replay_timer x;
     name := name x; hold := hold x; sounds := sounds x;
     sound_order := sound_order x; sound_replay := sound_replay x;
     sound_overlap := sound_overlap x; descriptions := descriptions x;
     background := background x; light_up := light_up x;
     motor_spin := motor_spin x; _description_selector := v;
     _sound_selector := _sound_selector x; _loaded := _loaded x;
     _text_cache := _text_cache x;
     _text_cache_yellow := _text_cache_yellow x;
     _background := _background x; _sounds := _sounds x |}.
Definition with_sound_selector v (x : t) : t :=
  {| _app := _app x; config := config x; _text_y := _text_y x;
     _description := _description x; _playbacks := _playbacks x;
     _init_timer := _init_timer x; _replay_timer := _replay_timer x;
     name := name x; hold := hold x; sounds := sounds x;
     sound_order := sound_order x; sound_replay := sound_replay x;
     sound_overlap := sound_overlap x; descriptions := descriptions x;
     background := background x; light_up := light_up x;
     motor_spin := motor_spin x;
     _description_selector := _description_selector x;
     _sound_selector := v; _loaded := _loaded x;
     _text_cache := _text_cache x;
     _text_cache_yellow := _text_cache_yellow x;
     _background := _background x; _sounds := _sounds x |}.
Definition with_loaded v (x : t) : t :=
  {| _app := _app x; config := config x; _text_y := _text_y x;
     _description := _description x; _playbacks := _playbacks x;
     _init_timer := _init_timer x; _replay_timer := _replay_timer x;
     name := name x; hold := hold x; sounds := sounds x;
     sound_order := sound_order x; sound_replay := sound_replay x;
     sound_overlap := sound_overlap x; descriptions := descriptions x;
     background := background x; light_up := light_up x;
     motor_spin := motor_spin x;
     _description_selector := _description_selector x;
     _sound_selector := _sound_selector x; _loaded := v;
     _text_cache := _text_cache x;
     _text_cache_yellow := _text_cache_yellow x;
     _background := _background x; _sounds := _sounds x |}.
Definition with_text_cache v (x : t) : t :=
  {| _app := _app x; config := config x; _text_y := _text_y x;
     _description := _description x; _playbacks := _playbacks x;
     _init_timer := _init_timer x; _replay_timer := _replay_timer x;
     name := name x; hold := hold x; sounds := sounds x;
     sound_order := sound_order x; sound_replay := sound_replay x;
     sound_overlap := sound_overlap x; descriptions := descriptions x;
     background := background x; light_up := light_up x;
     motor_spin := motor_spin x;
     _description_selector := _description_selector x;
     _sound_selector := _sound_selector x; _loaded := _loaded x;
     _text_cache := v; _text_cache_yellow := _text_cache_yellow x;
     _background := _background x; _sounds := _sounds x |}.
Definition with_text_cache_yellow v (x : t) : t :=
  {| _app := _app x; config := config x; _text_y := _text_y x;
     _description := _description x; _playbacks := _playbacks x;
     _init_timer := _init_timer x; _replay_timer := _replay_timer x;
     name := name x; hold := hold x; sounds := sounds x;
     sound_order := sound_order x; sound_replay := sound_replay x;
     sound_overlap := sound_overlap x; descriptions := descriptions x;
     background := background x; light_up := light_up x;
     motor_spin := motor_spin x;
     _description_selector := _description_selector x;
     _sound_selector := _sound_selector x; _loaded := _loaded x;
     _text_cache := _text_cache x; _text_cache_yellow := v;
     _background := _background x; _sounds := _sounds x |}.
Definition with_background v (x : t) : t :=
  {| _app := _app x; config := config x; _text_y := _text_y x;
     _description := _description x; _playbacks := _playbacks x;
     _init_timer := _init_timer x; _replay_timer := _replay_timer x;
     name := name x; hold := hold x; sounds := sounds x;
     sound_order := sound_order x; sound_replay := sound_replay x;
     sound_overlap := sound_overlap x; descriptions := descriptions x;
     background := background x; light_up := light_up x;
     motor_spin := motor_spin x;
     _description_selector := _description_selector x;
     _sound_selector := _sound_selector x; _loaded := _loaded x;
     _text_cache := _text_cache x;
     _text_cache_yellow := _text_cache_yellow x; _background := v;
     _sounds := _sounds x |}.
Definition with_sounds v (x : t) : t :=
  {| _app := _app x; config := config x; _text_y := _text_y x;
     _description := _description x; _playbacks := _playbacks x;
     _init_timer := _init_timer x; _replay_timer := _replay_timer x;
     name := name x; hold := hold x; sounds := sounds x;
     sound_order := sound_order x; sound_replay := sound_replay x;
     sound_overlap := sound_overlap x; descriptions := descriptions x;
     background := background x; light_up := light_up x;
     motor_spin := motor_spin x;
     _description_selector := _description_selector x;
     _sound_selector := _sound_selector x; _loaded := _loaded x;
     _text_cache := _text_cache x;
     _text_cache_yellow := _text_cache_yellow x;
     _background := _background x; _sounds := v |}.
Definition _stop_playbacks (x : t) : t * list Event :=
  (with_playbacks [] x, map Stop (_playbacks x)).

Definition _update_description (text : option string) (x : t) : t :=
  match text with
  | None => with_description None x
  | Some text =>
      let width := (app_screen_width (_app x) - 20)%Z in
      let text_width := fst (app_arial_font (_app x) text) in
      let pos := if contains_newline text then 0%Z else 7%Z in
      with_description
        (Some {| d_width := width; d_text := text;
                 d_text_pos := (width / 2 - text_width / 2, pos)%Z |}) x
  end.

Definition reset (now : Q) (x : t) : t * list Event :=
  let x := with_description_selector 0 x in
  let x := match descriptions x with
           | [] => x
           | d :: _ => _update_description (Some d) x
           end in
  let x := with_sound_selector 0 x in
  let x := with_init_timer (Some now) x in
  _stop_playbacks x.

(** [Tool(app, config)].  The reset at the end has no playback to stop,
    the list was just created. *)
Definition init (app : AppRef) (now : Q) (config : ToolConfig) : result t :=
  match c_name config with
  | None => Raise KeyError
  | Some nm =>
      let x :=
        {| _app := app; config := config;
           _text_y := text_scroll_y (app_config app);
           _description := None; _playbacks := []; _init_timer := None;
           _replay_timer := now;
           name := nm;
           hold := default false (c_hold config);
           sounds := default [] (c_sounds config);
           sound_order := default "random"%string (c_sound_order config);
           sound_replay := default 0%Q (c_sound_replay config);
           sound_overlap := default true (c_sound_overlap config);
           descriptions := default [] (c_descriptions config);
           background :=
             default (default_background (app_config app))
                     (c_background config);
           light_up := default true (c_light config);
           motor_spin := default true (c_motor config);
           _description_selector := 0; _sound_selector := 0;
           _loaded := false;
           _text_cache := None; _text_cache_yellow := None;
           _background := None; _sounds := None |} in
      Ok (with_loaded false (fst (reset now x)))
  end.

Definition is_loaded (x : t) : bool := _loaded x.

Fixpoint load_sounds (files : list string) : result (list WaveObject) :=
  match files with
  | [] => Ok []
  | sound :: rest =>
      if endswith sound ".wav" then
        ws ← load_sounds rest; Ok (sound :: ws)
      else Raise (Exception "Only wave files are supported")
  end.

Definition load_content (x : t) : result t :=
  if _loaded x then Raise AssertionError
  else
    let font_size := app_font (_app x) (name x) in
    let size := (fst font_size + 5, snd font_size + 5)%Z in
    let x := with_text_cache (Some size) x in
    let x := with_text_cache_yellow (Some size) x in
    let x := with_background (Some (background x)) x in
    ws ← load_sounds (sounds x);
    let x := with_sounds (Some ws) x in
    Ok (with_loaded true x).

Definition _play_sound (now : Q) (pick : nat) (x : t)
  : result (t * list Event) :=
  '(x, sound) ←
    (if String.eqb (sound_order x) "selective" then
       i ← py_mod_nat (_sound_selector x + 1) (length (sounds x));
       let x := with_sound_selector i x in
       ws ← getattr (_sounds x);
       w ← py_index ws i;
       Ok (x, Some w)
     else if String.eqb (sound_order x) "random" then
       ws ← getattr (_sounds x);
       w ← random_choice pick ws;
       Ok (x, Some w)
     else Ok (x, None));
  match sound with
  | Some w =>
      let '(x, stopped) :=
        if sound_overlap x then (x, []) else _stop_playbacks x in
      let x := with_playbacks (_playbacks x ++ [{| playing_wave := w |}]) x in
      let x := with_replay_timer (now + sound_replay x)%Q x in
      Ok (x, stopped ++ [Play w])
  | None => Ok (x, [])
  end.

(** The playbacks that go on, [is_playing i] being the answer of the
    [i]-th tracked one. *)
Fixpoint still_playing (is_playing : nat → bool) (i : nat)
    (ps : list PlayObject) : list PlayObject :=
  match ps with
  | [] => []
  | p :: ps =>
      if is_playing i then p :: still_playing is_playing (S i) ps
      else still_playing is_playing (S i) ps
  end.

Definition _manage_playbacks (is_playing : nat → bool) (x : t) : t :=
  with_playbacks (still_playing is_playing 0 (_playbacks x)) x.

Definition trigger (now : Q) (pick : nat) (is_playing : nat → bool)
    (x : t) (hw : GPHardware.t) : result (t * GPHardware.t * list Event) :=
  x ← match descriptions x with
      | [] => Ok x
      | _ =>
          i ← py_mod_nat (_description_selector x + 1)
                         (length (descriptions x));
          let x := with_description_selector i x in
          d ← py_index (descriptions x) i;
          Ok (_update_description (Some d) x)
      end;
  '(x, ev1) ← match sounds x with
              | [] => Ok (x, [])
              | _ => _play_sound now pick x
              end;
  let x := _manage_playbacks is_playing x in
  let '(hw, ev2) :=
    if light_up x then GPHardware.flash_led now hw else (hw, []) in
  let '(hw, ev3) :=
    if motor_spin x then GPHardware.spin_motor now hw else (hw, []) in
  Ok (x, hw, ev1 ++ ev2 ++ ev3).

Definition loop (now : Q) (pick : nat) (is_playing : nat → bool)
    (x : t) (hw : GPHardware.t) : result (t * GPHardware.t * list Event) :=
  '(x, ev1) ←
    (if negb (Qeq_bool (sound_replay x) 0) && Qgtb now (_replay_timer x)
        && bool_decide (sounds x ≠ [])
     then _play_sound now pick x
     else Ok (x, []));
  let '(hw, ev2) :=
    if light_up x then GPHardware.flash_led now hw else (hw, []) in
  let '(hw, ev3) :=
    if motor_spin x then GPHardware.spin_motor now hw else (hw, []) in
  let x := _manage_playbacks is_playing x in
  Ok (x, hw, ev1 ++ ev2 ++ ev3).

Definition blend_factor (now init_timer : Q) : Q :=
  Qmin ((now - init_timer) / YELLOW_FADE_TIME) 1.

Definition render (now : Q) (screen : Screen.t) (x : t)
  : result (t * list Event) :=
  if negb (_loaded x) then Raise AssertionError
  else
    bg ← getattr (_background x);
    cache ← getattr (_text_cache x);
    let W := fst cache in
    let F := Screen.width screen in
    m ← py_float_mod (now * 160) (inject_Z (W + F / 2));
    let x_pos := (F - py_int m)%Z in
    '(x, render_text) ←
      match _init_timer x with
      | Some t0 =>
          _ ← getattr (_text_cache_yellow x);
          Ok (if Qgtb now (t0 + YELLOW_FADE_TIME)
              then with_init_timer None x else x,
              Blend (blend_factor now t0))
      | None => Ok (x, TextCache)
      end;
    let ghost :=
      if (x_pos - W - F / 2 + W >? 0)%Z
      then [Paste render_text (Some (x_pos - W - F / 2, _text_y x)%Z) true]
      else [] in
    let panel :=
      match _description x with
      | Some d => [Paste (DescriptionImage (d_text d)) (Some (10, 73)%Z) false]
      | None => []
      end in
    Ok (x, [Paste (BackgroundImage bg) None false;
            Paste render_text (Some (x_pos, _text_y x)) true]
           ++ ghost ++ panel).

Definition unload_content (x : t) : result t :=
  ws ← getattr (_sounds x);
  Ok (with_loaded false (with_sounds (Some []) (with_text_cache None x))).

End Tool.

(** ** main.py: App *)

(** What one call of [App.update] reads from the outside world. *)
Record Tick := {
  now : Q;                           (* the clock *)
  level : bool;                      (* the trigger pin *)
  pick : nat;                        (* the draw of random.choice *)
  is_playing : nat → bool            (* PlayObject.is_playing, by position *)
}.

Module App.

Definition MAX_TOOLS : nat := 60.

Record t := {
  config : AppConfig;
  _button_change : bool;
  _current_tool : nat;
  _trigger_hold : option Q;
  _was_changing_tool : bool;
  _last_trigger : option Q;
  _sleep_mode : bool;
  _sleep_timer : Q;
  font : Font;
  arial_font : Font;
  _next_item_sound : WaveObject;
  _equip_item_sound : WaveObject;
  _startup_sound : WaveObject;
  screen : Screen.t;
  hardware : GPHardware.t;
  tools : list Tool.t
}.

Definition with_button_change v (x : t) : t :=
  {| config := config x; _button_change := v;
     _current_tool := _current_tool x;
     _trigger_hold := _trigger_hold x;
     _was_changing_tool := _was_changing_tool x;
     _last_trigger := _last_trigger x; _sleep_mode := _sleep_mode x;
     _sleep_timer := _sleep_timer x; font := font x;
     arial_font := arial_font x;
     _next_item_sound := _next_item_sound x;
     _equip_item_sound := _equip_item_sound x;
     _startup_sound := _startup_sound x; screen := screen x;
     hardware := hardware x; tools := tools x |}.
Definition with_current_tool v (x : t) : t :=
  {| config := config x; _button_change := _button_change x;
     _current_tool := v; _trigger_hold := _trigger_hold x;
     _was_changing_tool := _was_changing_tool x;
     _last_trigger := _last_trigger x; _sleep_mode := _sleep_mode x;
     _sleep_timer := _sleep_timer x; font := font x;
     arial_font := arial_font x;
     _next_item_sound := _next_item_sound x;
     _equip_item_sound := _equip_item_sound x;
     _startup_sound := _startup_sound x; screen := screen x;
     hardware := hardware x; tools := tools x |}.
Definition with_trigger_hold v (x : t) : t :=
  {| config := config x; _button_change := _button_change x;
     _current_tool := _current_tool x; _trigger_hold := v;
     _was_changing_tool := _was_changing_tool x;
     _last_trigger := _last_trigger x; _sleep_mode := _sleep_mode x;
     _sleep_timer := _sleep_timer x; font := font x;
     arial_font := arial_font x;
     _next_item_sound := _next_item_sound x;
     _equip_item_sound := _equip_item_sound x;
     _startup_sound := _startup_sound x; screen := screen x;
     hardware := hardware x; tools := tools x |}.
Definition with_was_changing_tool v (x : t) : t :=
  {| config := config x; _button_change := _button_change x;
     _current_tool := _current_tool x;
     _trigger_hold := _trigger_hold x; _was_changing_tool := v;
     _last_trigger := _last_trigger x; _sleep_mode := _sleep_mode x;
     _sleep_timer := _sleep_timer x; font := font x;
     arial_font := arial_font x;
     _next_item_sound := _next_item_sound x;
     _equip_item_sound := _equip_item_sound x;
     _startup_sound := _startup_sound x; screen := screen x;
     hardware := hardware x; tools := tools x |}.
Definition with_last_trigger v (x : t) : t :=
  {| config := config x; _button_change := _button_change x;
     _current_tool := _current_tool x;
     _trigger_hold := _trigger_hold x;
     _was_changing_tool := _was_changing_tool x; _last_trigger := v;
     _sleep_mode := _sleep_mode x; _sleep_timer := _sleep_timer x;
     font := font x; arial_font := arial_font x;
     _next_item_sound := _next_item_sound x;
     _equip_item_sound := _equip_item_sound x;
     _startup_sound := _startup_sound x; screen := screen x;
     hardware := hardware x; tools := tools x |}.
Definition with_sleep_mode v (x : t) : t :=
  {| config := config x; _button_change := _button_change x;
     _current_tool := _current_tool x;
     _trigger_hold := _trigger_hold x;
     _was_changing_tool := _was_changing_tool x;
     _last_trigger := _last_trigger x; _sleep_mode := v;
     _sleep_timer := _sleep_timer x; font := font x;
     arial_font := arial_font x;
     _next_item_sound := _next_item_sound x;
     _equip_item_sound := _equip_item_sound x;
     _startup_sound := _startup_sound x; screen := screen x;
     hardware := hardware x; tools := tools x |}.
Definition with_sleep_timer v (x : t) : t :=
  {| config := config x; _button_change := _button_change x;
     _current_tool := _current_tool x;
     _trigger_hold := _trigger_hold x;
     _was_changing_tool := _was_changing_tool x;
     _last_trigger := _last_trigger x; _sleep_mode := _sleep_mode x;
     _sleep_timer := v; font := font x; arial_font := arial_font x;
     _next_item_sound := _next_item_sound x;
     _equip_item_sound := _equip_item_sound x;
     _startup_sound := _startup_sound x; screen := screen x;
     hardware := hardware x; tools := tools x |}.
Definition with_screen v (x : t) : t :=
  {| config := config x; _button_change := _button_change x;
     _current_tool := _current_tool x;
     _trigger_hold := _trigger_hold x;
     _was_changing_tool := _was_changing_tool x;
     _last_trigger := _last_trigger x; _sleep_mode := _sleep_mode x;
     _sleep_timer := _sleep_timer x; font := font x;
     arial_font := arial_font x;
     _next_item_sound := _next_item_sound x;
     _equip_item_sound := _equip_item_sound x;
     _startup_sound := _startup_sound x; screen := v;
     hardware := hardware x; tools := tools x |}.
Definition with_hardware v (x : t) : t :=
  {| config := config x; _button_change := _button_change x;
     _current_tool := _current_tool x;
     _trigger_hold := _trigger_hold x;
     _was_changing_tool := _was_changing_tool x;
     _last_trigger := _last_trigger x; _sleep_mode := _sleep_mode x;
     _sleep_timer := _sleep_timer x; font := font x;
     arial_font := arial_font x;
     _next_item_sound := _next_item_sound x;
     _equip_item_sound := _equip_item_sound x;
     _startup_sound := _startup_sound x; screen := screen x;
     hardware := v; tools := tools x |}.
Definition with_tools v (x : t) : t :=
  {| config := config x; _button_change := _button_change x;
     _current_tool := _current_tool x;
     _trigger_hold := _trigger_hold x;
     _was_changing_tool := _was_changing_tool x;
     _last_trigger := _last_trigger x; _sleep_mode := _sleep_mode x;
     _sleep_timer := _sleep_timer x; font := font x;
     arial_font := arial_font x;
     _next_item_sound := _next_item_sound x;
     _equip_item_sound := _equip_item_sound x;
     _startup_sound := _startup_sound x; screen := screen x;
     hardware := hardware x; tools := v |}.

Definition app_ref (config : AppConfig) (font arial_font : Font)
    (screen : Screen.t) : AppRef :=
  {| app_config := config; app_font := font; app_arial_font := arial_font;
     app_screen_width := Screen.width screen |}.

(** The loop over [enumerate(config["tools"])], from position [i] on. *)
Fixpoint init_tools (app : AppRef) (now : Q) (i : nat)
    (configs : list ToolConfig) : result (list Tool.t) :=
  match configs with
  | [] => Ok []
  | tool :: rest =>
      x ← Tool.init app now tool;
      x ← (if (i <? MAX_TOOLS)%nat then Tool.load_content x else Ok x);
      xs ← init_tools app now (S i) rest;
      Ok (x :: xs)
  end.

(** [App(config, simulate)]; the two fonts are what
    [ImageFont.truetype] loaded. *)
Definition init (config : AppConfig) (simulate : bool)
    (font arial_font : Font) (now : Q) : result t :=
  let screen := Screen.init (hardware_config config) simulate in
  let hardware := GPHardware.init (hardware_config config) simulate in
  tools ← init_tools (app_ref config font arial_font screen) now 0
                     (tools_config config);
  Ok {| config := config; _button_change := false; _current_tool := 0;
        _trigger_hold := None; _was_changing_tool := false;
        _last_trigger := Some 0%Q; _sleep_mode := false;
        _sleep_timer := (now + sleep_timeout config)%Q;
        font := font; arial_font := arial_font;
        _next_item_sound := sound_next config;
        _equip_item_sound := sound_equip config;
        _startup_sound := sound_startup config;
        screen := screen; hardware := hardware; tools := tools |}.

Definition play_startup (a : t) : list Event := [Play (_startup_sound a)].

Definition next_tool (now : Q) (a : t) : result (t * list Event) :=
  x ← py_index (tools a) (_current_tool a);
  let '(x, ev1) := Tool.reset now x in
  let a := with_tools (<[_current_tool a := x]> (tools a)) a in
  i ← py_mod_nat (_current_tool a + 1) (length (tools a));
  let a := with_current_tool i a in
  y ← py_index (tools a) (_current_tool a);
  let '(y, ev2) := Tool.reset now y in
  let a := with_tools (<[_current_tool a := y]> (tools a)) a in
  let a := with_was_changing_tool true a in
  Ok (a, [Mark "next_tool"] ++ ev1 ++ ev2 ++ [Play (_next_item_sound a)]).

(** The operand of an addition or a subtraction with a float: [None]
    is not a number. *)
Definition number (o : option Q) : result Q :=
  match o with
  | Some v => Ok v
  | None => Raise TypeError
  end.

(** Step 1 of [update]: the drawing of the current tool. *)
Definition update_render (k : Tick) (a : t) : result (t * list Event) :=
  if _sleep_mode a then Ok (a, [])
  else
    x ← py_index (tools a) (_current_tool a);
    '(x, ev) ← Tool.render (now k) (screen a) x;
    Ok (with_tools (<[_current_tool a := x]> (tools a)) a, ev).

(** The branch of [update] taken when the trigger changed. *)
Definition update_edge (k : Tick) (trigger_down : bool) (a : t)
  : result (t * list Event) :=
  let a := with_button_change trigger_down a in
  '(a, ev1) ←
    (if _button_change a then
       x ← py_index (tools a) (_current_tool a);
       '(x, hw, ev) ← Tool.trigger (now k) (pick k) (is_playing k) x
                                   (hardware a);
       let a := with_tools (<[_current_tool a := x]> (tools a)) a in
       let a := with_hardware hw a in
       Ok (with_trigger_hold (Some (now k)) a, ev)
     else
       let a := with_trigger_hold None
                  (with_last_trigger (_trigger_hold a) a) in
       if _was_changing_tool a
       then Ok (with_was_changing_tool false a,
                [Play (_equip_item_sound a)])
       else Ok (a, []));
  let a := with_sleep_timer (now k + sleep_timeout (config a))%Q a in
  if _sleep_mode a then
    let a := with_sleep_mode false a in
    let ev2 :=
      if negb (Screen._is_simulated (screen a)) then [BlDutyCycle 100]
      else [] in
    let '(scr, ev3) := Screen.set_sleep false (screen a) in
    Ok (with_screen scr a, ev1 ++ ev2 ++ ev3)
  else Ok (a, ev1).

(** The branch of [update] for a held trigger on a holding tool. *)
Definition update_hold (k : Tick) (x : Tool.t) (a : t)
  : result (t * list Event) :=
  '(x, hw, ev1) ← Tool.loop (now k) (pick k) (is_playing k) x (hardware a);
  let a := with_tools (<[_current_tool a := x]> (tools a)) a in
  let a := with_hardware hw a in
  last ← number (_last_trigger a);
  if Qltb (now k - last) ((1 # 2) + tool_change_timeout (config a)) then
    held ← number (_trigger_hold a);
    if Qgtb (now k) (held + tool_change_timeout (config a)) then
      let a := with_trigger_hold (Some (now k)) a in
      '(a, ev2) ← next_tool (now k) a;
      Ok (a, ev1 ++ ev2)
    else Ok (a, ev1)
  else Ok (a, ev1).

(** Step 2 of [update]: the trigger. *)
Definition update_trigger (k : Tick) (a : t) : result (t * list Event) :=
  let trigger_down :=
    GPHardware.is_trigger_down (level k) (hardware a) in
  if negb (eqb trigger_down (_button_change a)) then
    update_edge k trigger_down a
  else if trigger_down then
    x ← py_index (tools a) (_current_tool a);
    if Tool.hold x && negb (_was_changing_tool a) then update_hold k x a
    else
      match _trigger_hold a with
      | Some held =>
          if Qgtb (now k) (held + tool_change_timeout (config a)) then
            next_tool (now k) (with_trigger_hold (Some (now k)) a)
          else Ok (a, [])
      | None => Ok (a, [])
      end
  else Ok (a, []).

(** Step 3 of [update]: the sleep timer. *)
Definition update_sleep (k : Tick) (a : t) : t * list Event :=
  if Qgtb (now k) (_sleep_timer a) && negb (_sleep_mode a) then
    let a := with_sleep_mode true a in
    let ev1 :=
      if negb (Screen._is_simulated (screen a)) then [BlDutyCycle 0]
      else [] in
    let '(scr, ev2) := Screen.set_sleep true (screen a) in
    (with_screen scr a, ev1 ++ ev2)
  else (a, []).

Definition update (k : Tick) (a : t) : result (t * list Event) :=
  '(a, ev1) ← update_render k a;
  '(a, ev2) ← update_trigger k a;
  let '(a, ev3) := update_sleep k a in
  let '(hw, ev4) := GPHardware.update (now k) (hardware a) in
  let a := with_hardware hw a in
  let ev5 := Screen.update false (screen a) in
  Ok (a, ev1 ++ ev2 ++ ev3 ++ ev4 ++ ev5).

(** The ticks of the main loop, one [update] per entry, until one
    raises. *)
Fixpoint run (ks : list Tick) (a : t) : result (t * list Event) :=
  match ks with
  | [] => Ok (a, [])
  | k :: ks =>
      '(a, ev) ← update k a;
      '(a, evs) ← run ks a;
      Ok (a, ev ++ evs)
  end.

End App.

(** ** Readiness

    The conditions under which a tick cannot raise, and the counters
    that the statements below use. *)

(** The attributes of a tool that no method run by a tick assigns. *)
Definition frozen (x : Tool.t) :=
  (Tool.hold x, Tool.sounds x, Tool.sound_order x, Tool.descriptions x,
   Tool._loaded x, Tool._text_cache x, Tool._text_cache_yellow x,
   Tool._background x, Tool._sounds x, Tool.light_up x, Tool.motor_spin x).

(** The content of the tool is loaded, for a screen of width [F]. *)
Definition tool_ready (F : Z) (x : Tool.t) : bool :=
  Tool._loaded x
  && bool_decide (is_Some (Tool._background x))
  && bool_decide (is_Some (Tool._text_cache_yellow x))
  && match Tool._text_cache x with
     | Some size => negb (fst size + F / 2 =? 0)%Z
     | None => false
     end
  && match Tool._sounds x with
     | Some ws => (length ws =? length (Tool.sounds x))%nat
     | None => false
     end.

Definition app_ready (a : App.t) : bool :=
  (App._current_tool a <? length (App.tools a))%nat
  && forallb (tool_ready (Screen.width (App.screen a))) (App.tools a)
  && bool_decide (is_Some (App._last_trigger a))
  && implb (App._button_change a)
           (bool_decide (is_Some (App._trigger_hold a))).

Definition is_switch (e : Event) : bool :=
  match e with
  | Mark method => String.eqb method "next_tool"
  | _ => false
  end.

(** How many times [next_tool] ran. *)
Definition switches (ev : list Event) : nat :=
  length (List.filter is_switch ev).

Definition is_dim (e : Event) : bool :=
  match e with
  | SetSleep is_sleep => is_sleep
  | _ => false
  end.

(** How many times the display was put to sleep. *)
Definition dims (ev : list Event) : nat :=
  length (List.filter is_dim ev).

Definition is_play (e : Event) : bool :=
  match e with
  | Play _ => true
  | _ => false
  end.

(** The title pastes of one [render]: those with a mask. *)
Definition title_boxes (ev : list Event) : list (Source * (Z * Z)) :=
  omap (λ e, match e with
             | Paste src (Some box) true => Some (src, box)
             | _ => None
             end) ev.


(** The fields of the application that the trigger and the timers drive:
    trigger state, active tool, hold start, tool-change flag, last
    trigger, sleep mode and sleep deadline. *)
Definition control (a : App.t) :=
  (App._button_change a, App._current_tool a, App._trigger_hold a,
   App._was_changing_tool a, App._last_trigger a, App._sleep_mode a,
   App._sleep_timer a).

(** The [hold] flag of the active tool. *)
Definition active_hold (a : App.t) : bool :=
  match App.tools a !! App._current_tool a with
  | Some x => Tool.hold x
  | None => false
  end.

(** What a tick leaves as it is: the configuration, the frozen
    attributes of every tool, the screen's size and kind, the wiring of
    the pins. *)
Definition steady (a a' : App.t) : Prop :=
  App.config a' = App.config a
  ∧ map frozen (App.tools a') = map frozen (App.tools a)
  ∧ Screen.width (App.screen a') = Screen.width (App.screen a)
  ∧ Screen._is_simulated (App.screen a') = Screen._is_simulated (App.screen a)
  ∧ GPHardware.config (App.hardware a') = GPHardware.config (App.hardware a)
  ∧ GPHardware._simulated (App.hardware a')
    = GPHardware._simulated (App.hardware a).

(** The trigger as the application reads it on tick [k]. *)
Definition trigger_down (k : Tick) (a : App.t) : bool :=
  GPHardware.is_trigger_down (level k) (App.hardware a).

(** *** A summary of one tick

    What [App.update] does to the control fields, read off its
    branches; [update_ok] below proves that it is what the code
    computes. *)

(** Does the tick see the trigger change. *)
Definition edge (k : Tick) (a : App.t) : bool :=
  negb (eqb (trigger_down k a) (App._button_change a)).

(** Does step 2 of the tick call [next_tool]. *)
Definition switch_due (k : Tick) (a : App.t) : bool :=
  let timeout := tool_change_timeout (App.config a) in
  negb (edge k a) && trigger_down k a &&
  (if active_hold a && negb (App._was_changing_tool a) then
     match App._last_trigger a, App._trigger_hold a with
     | Some last, Some held =>
         Qltb (now k - last) ((1 # 2) + timeout)
         && Qgtb (now k) (held + timeout)
     | _, _ => false
     end
   else
     match App._trigger_hold a with
     | Some held => Qgtb (now k) (held + timeout)
     | None => false
     end).

(** The control fields after step 2. *)
Definition after_trigger (k : Tick) (a : App.t) :=
  let down := trigger_down k a in
  if edge k a then
    (down, App._current_tool a,
     if down then Some (now k) else None,
     if down then App._was_changing_tool a else false,
     if down then App._last_trigger a else App._trigger_hold a,
     false, (now k + sleep_timeout (App.config a))%Q)
  else if switch_due k a then
    (App._button_change a,
     (App._current_tool a + 1) mod length (App.tools a),
     Some (now k), true, App._last_trigger a, App._sleep_mode a,
     App._sleep_timer a)
  else control a.

(** Does step 3 of the tick put the display to sleep. *)
Definition sleep_due (k : Tick) (a : App.t) : bool :=
  let '(_, _, _, _, _, sleep_mode, sleep_timer) := after_trigger k a in
  Qgtb (now k) sleep_timer && negb sleep_mode.

(** The control fields after the tick. *)
Definition after_update (k : Tick) (a : App.t) :=
  let '(b, c, h, w, l, sleep_mode, sleep_timer) := after_trigger k a in
  (b, c, h, w, l, sleep_mode || sleep_due k a, sleep_timer).

(** ** A sample configuration

    Two tools on the simulated hardware: a holding tool that plays its
    sounds in turn, and a plain one. *)

Definition sample_font : Font :=
  λ text, (10 * Z.of_nat (String.length text), 20)%Z.

Definition sample_hardware : HardwareConfig :=
  {| spin_duration := 1 # 2; flash_duration := 1 # 5;
     invert_button := true; screen_flip_horizontal := false;
     screen_flip_vertical := false |}.

Definition physics_gun : ToolConfig :=
  {| c_name := Some "Physics Gun"%string; c_hold := Some true;
     c_sounds := Some ["beam1.wav"; "beam2.wav"; "beam3.wav"]%string;
     c_sound_order := Some "selective"%string;
     c_sound_replay := Some (3 # 1); c_sound_overlap := Some false;
     c_descriptions := None; c_background := None;
     c_light := None; c_motor := None |}.

Definition remover : ToolConfig :=
  {| c_name := Some "Remover"%string; c_hold := None;
     c_sounds := Some ["zap.wav"]%string; c_sound_order := None;
     c_sound_replay := None; c_sound_overlap := None;
     c_descriptions := Some ["Remove an object"; "Remove a constraint"]%string;
     c_background := Some "remover.png"%string;
     c_light := Some true; c_motor := Some false |}.

Definition sample_config : AppConfig :=
  {| text_scroll_y := 20; default_background := "background.png";
     sleep_timeout := 5 # 1; tool_change_timeout := 1 # 1;
     sound_next := "next.wav"; sound_equip := "equip.wav";
     sound_startup := "startup.wav";
     hardware_config := sample_hardware;
     tools_config := [physics_gun; remover] |}.

(** The value of a result, [d] if it raised. *)
Definition value_or {A} (d : A) (r : result A) : A :=
  match r with
  | Ok v => v
  | Raise _ => d
  end.

Definition no_tools : App.t :=
  {| App.config := sample_config; App._button_change := false;
     App._current_tool := 0; App._trigger_hold := None;
     App._was_changing_tool := false; App._last_trigger := Some 0%Q;
     App._sleep_mode := false; App._sleep_timer := 0%Q;
     App.font := sample_font; App.arial_font := sample_font;
     App._next_item_sound := "next.wav"%string;
     App._equip_item_sound := "equip.wav"%string;
     App._startup_sound := "startup.wav"%string;
     App.screen := Screen.init sample_hardware true;
     App.hardware := GPHardware.init sample_hardware true;
     App.tools := [] |}.

(** The sample application as it is 1000 seconds after the epoch, just
    started. *)
Definition sample_app : App.t :=
  value_or no_tools
    (App.init sample_config true sample_font sample_font (1000 # 1)).

(** A tick at instant [t] with the trigger at [down]; every playback is
    still going. *)
Definition tick (t : Q) (down : bool) : Tick :=
  {| now := t; level := down; pick := 0; is_playing := λ _, true |}.

(** The state after the ticks, [d] if one raised; and the number of
    tool switches they made. *)
Definition after_ticks (ks : list Tick) (a : App.t) : App.t :=
  (value_or (a, []) (App.run ks a)).1.

Definition switches_of (r : result (App.t * list Event)) : option nat :=
  match r with
  | Ok (_, ev) => Some (switches ev)
  | Raise _ => None
  end.

(** Successive calls of [Tool.render], one per instant. *)
Fixpoint renders (instants : list Q) (screen : Screen.t) (x : Tool.t)
  : result (Tool.t * list Event) :=
  match instants with
  | [] => Ok (x, [])
  | t :: rest =>
      '(x, ev) ← Tool.render t screen x;
      '(x, evs) ← renders rest screen x;
      Ok (x, ev ++ evs)
  end.

(** Successive calls of [App.next_tool], one per instant. *)
Fixpoint next_tools (instants : list Q) (a : App.t)
  : result (App.t * list Event) :=
  match instants with
  | [] => Ok (a, [])
  | t :: rest =>
      '(a, ev) ← App.next_tool t a;
      '(a, evs) ← next_tools rest a;
      Ok (a, ev ++ evs)
  end.

Definition blank_tool : Tool.t :=
  {| Tool._app := App.app_ref sample_config sample_font sample_font
                    (Screen.init sample_hardware true);
     Tool.config := remover; Tool._text_y := 0; Tool._description := None;
     Tool._playbacks := []; Tool._init_timer := None;
     Tool._replay_timer := 0%Q; Tool.name := ""%string; Tool.hold := false;
     Tool.sounds := []; Tool.sound_order := "random"%string;
     Tool.sound_replay := 0%Q; Tool.sound_overlap := true;
     Tool.descriptions := []; Tool.background := ""%string;
     Tool.light_up := true; Tool.motor_spin := true;
     Tool._description_selector := 0; Tool._sound_selector := 0;
     Tool._loaded := false; Tool._text_cache := None;
     Tool._text_cache_yellow := None; Tool._background := None;
     Tool._sounds := None |}.

(** The first tool of the sample application, loaded. *)
Definition sample_tool : Tool.t := nth 0 (App.tools sample_app) blank_tool.

(** The first sample tool with ["sequential"] as its sound order,
    loaded. *)
Definition sequential_tool : Tool.t :=
  value_or blank_tool
    (x ← Tool.init
           (App.app_ref sample_config sample_font sample_font
              (Screen.init sample_hardware true))
           (1000 # 1)
           {| c_name := Some "Physics Gun"%string; c_hold := Some true;
              c_sounds := Some ["beam1.wav"; "beam2.wav"; "beam3.wav"]%string;
              c_sound_order := Some "sequential"%string;
              c_sound_replay := Some (3 # 1); c_sound_overlap := Some false;
              c_descriptions := None; c_background := None;
              c_light := None; c_motor := None |};
     Tool.load_content x).

(** The state after one tick, [a] itself if the tick raised. *)
Definition after_tick (k : Tick) (a : App.t) : App.t :=
  (value_or (a, []) (App.update k a)).1.

(** The sample application with the trigger pressed at 1000 s. *)
Definition pressed_app : App.t := after_tick (tick (1000 # 1) true) sample_app.

(** The states the application [a0] can come to by ticks and tool
    switches that return. *)
Inductive reachable (a0 : App.t) : App.t → Prop :=
  | reach_start : reachable a0 a0
  | reach_update a k a' ev :
      reachable a0 a → App.update k a = Ok (a', ev) → reachable a0 a'
  | reach_next_tool a t a' ev :
      reachable a0 a → App.next_tool t a = Ok (a', ev) → reachable a0 a'.

(** The sample application with the plain tool first, and with the
    trigger pressed on it at 1000 s. *)
Definition plain_config : AppConfig :=
  {| text_scroll_y := 20; default_background := "background.png";
     sleep_timeout := 5 # 1; tool_change_timeout := 1 # 1;
     sound_next := "next.wav"; sound_equip := "equip.wav";
     sound_startup := "startup.wav";
     hardware_config := sample_hardware;
     tools_config := [remover; physics_gun] |}.

Definition plain_pressed : App.t :=
  after_tick (tick (1000 # 1) true)
    (value_or no_tools
       (App.init plain_config true sample_font sample_font (1000 # 1))).

(** [n] ticks with the trigger down, a tenth of a second apart, the
    first a tenth after [start]. *)
Definition held_ticks (start : Q) (n : nat) : list Tick :=
  map (λ i, tick (start + inject_Z (Z.of_nat i) / 10) true) (seq 1 n).

(** The sample application after a tap at 1000 s, released at 1000.2 s,
    and a new press at 1010 s. *)
Definition pressed_again : App.t :=
  after_ticks [tick (1000 # 1) true; tick (5001 # 5) false;
               tick (1010 # 1) true] sample_app.

(** The same with the new press at 1000.3 s, right after the tap. *)
Definition tapped_and_pressed : App.t :=
  after_ticks [tick (1000 # 1) true; tick (5001 # 5) false;
               tick (10003 # 10) true] sample_app.

(** ** Definitions for the further properties *)

(** Successive calls of [Tool.trigger], one per tick. *)
Fixpoint triggers (ks : list Tick) (x : Tool.t) (hw : GPHardware.t)
  : result (Tool.t * GPHardware.t * list Event) :=
  match ks with
  | [] => Ok (x, hw, [])
  | k :: rest =>
      '(x, hw, ev) ← Tool.trigger (now k) (pick k) (is_playing k) x hw;
      '(x, hw, evs) ← triggers rest x hw;
      Ok (x, hw, ev ++ evs)
  end.

(** What a tool shows of its descriptions: the index, and the text on
    the panel. *)
Definition shown (x : Tool.t) : nat * option string :=
  (Tool._description_selector x, d_text <$> Tool._description x).

(** A sample application with 61 tools. *)
Definition crowded_config : AppConfig :=
  {| text_scroll_y := 20; default_background := "background.png";
     sleep_timeout := 5 # 1; tool_change_timeout := 1 # 1;
     sound_next := "next.wav"; sound_equip := "equip.wav";
     sound_startup := "startup.wav";
     hardware_config := sample_hardware;
     tools_config := replicate 61 remover |}.

Definition crowded_app : App.t :=
  value_or no_tools
    (App.init crowded_config true sample_font sample_font (1000 # 1)).

(** The events that come from a tool: sounds started and stopped, the
    light and the motor switched. *)
Definition toolish (e : Event) : bool :=
  match e with
  | Play _ | Stop _ | SetLed _ | SetMotor _ => true
  | _ => false
  end.

(** The commands to the display's power: the sleep flag and the
    backlight. *)
Definition is_power (e : Event) : bool :=
  match e with
  | SetSleep _ | BlDutyCycle _ => true
  | _ => false
  end.

Definition is_paste (e : Event) : bool :=
  match e with
  | Paste _ _ _ => true
  | _ => false
  end.

Definition is_show (e : Event) : bool :=
  match e with
  | ShowImage _ _ => true
  | _ => false
  end.

(** The screen's sleep flag follows the application's sleep mode. *)
Definition sleep_synced (a : App.t) : Prop :=
  Screen._sleep (App.screen a) = App._sleep_mode a.

(** The backlight command of a real screen, none when simulated. *)
Definition backlight (a : App.t) (duty : Z) : list Event :=
  if Screen._is_simulated (App.screen a) then [] else [BlDutyCycle duty].

(** The application [plain_pressed] two seconds later, the trigger still
    held: it has switched to the next tool. *)
Definition switched_app : App.t :=
  after_tick (tick (1002 # 1) true) plain_pressed.

(** A tool as [reset] at [nw] leaves it. *)
Definition fresh (nw : Q) (x : Tool.t) : Prop :=
  Tool._description_selector x = 0 ∧ Tool._sound_selector x = 0 ∧
  Tool._init_timer x = Some nw ∧ Tool._playbacks x = [].

(** The wake-up and the sleep commands of a tick. *)
Definition waking (k : Tick) (a : App.t) : list Event :=
  if edge k a && App._sleep_mode a
  then backlight a 100 ++ [SetSleep false] else [].

Definition dimming (k : Tick) (a : App.t) : list Event :=
  if sleep_due k a then backlight a 0 ++ [SetSleep true] else [].

(** The events of a call of [next_tool], when there is one. *)
Definition switch_events (a : App.t) (es : list Event) : Prop :=
  es = [] ∨
  ∃ et, es = Mark "next_tool" :: et ∧ Forall (λ e, toolish e = true) et ∧
    In (Play (App._next_item_sound a)) et.

(** What the pins' and the window's upkeep sends. *)
Definition is_upkeep (e : Event) : bool :=
  match e with
  | SetLed false | SetMotor false | TkUpdate => true
  | _ => false
  end.

(** The screen after a tick. *)
Definition screen_after (k : Tick) (a : App.t) : Screen.t :=
  let scr := if edge k a && App._sleep_mode a
             then Screen.with_sleep false (App.screen a)
             else App.screen a in
  if sleep_due k a then Screen.with_sleep true scr else scr.

(** ** Predicates and tactics of the proofs *)

(** Events that tell nothing about tool switches or the display sleep. *)
Definition quiet (ev : list Event) : Prop :=
  Forall (λ e, is_switch e = false ∧ is_dim e = false) ev.

(** The tools are the same ones, each with its frozen attributes, and
    the active index is in range if it was. *)
Definition kept (a a' : App.t) : Prop :=
  map frozen (App.tools a') = map frozen (App.tools a) ∧
  (App._current_tool a < length (App.tools a) →
   App._current_tool a' < length (App.tools a')).

(** The trigger is held, and a hold starts a tool switch after the
    timeout whatever the tool: the active tool does not hold, or a
    switch has been made already. *)
Definition switching (a : App.t) (h : Q) : Prop :=
  app_ready a = true ∧ App._button_change a = true ∧
  App._trigger_hold a = Some h ∧
  (active_hold a = false ∨ App._was_changing_tool a = true).

(** The trigger is held on a holding tool since [t0], no tool switch
    made yet; the last trigger before was at [l]. *)
Definition holding (a : App.t) (t0 l : Q) : Prop :=
  app_ready a = true ∧ App._button_change a = true ∧
  App._trigger_hold a = Some t0 ∧ App._last_trigger a = Some l ∧
  active_hold a = true ∧ App._was_changing_tool a = false.

Create HintDb quiet.

(** Reduction of the record accessors and of the sequencing of results. *)
Ltac rsimpl :=
  cbn [mbind result_bind mret result_ret fst snd
       Tool._app Tool.config Tool._text_y Tool._description Tool._playbacks
       Tool._init_timer Tool._replay_timer Tool.name Tool.hold Tool.sounds
       Tool.sound_order Tool.sound_replay Tool.sound_overlap
       Tool.descriptions Tool.background Tool.light_up Tool.motor_spin
       Tool._description_selector Tool._sound_selector Tool._loaded
       Tool._text_cache Tool._text_cache_yellow Tool._background Tool._sounds
       Tool.with_description Tool.with_playbacks Tool.with_init_timer
       Tool.with_replay_timer Tool.with_description_selector
       Tool.with_sound_selector Tool.with_loaded Tool.with_text_cache
       Tool.with_text_cache_yellow Tool.with_background Tool.with_sounds
       App.config App._button_change App._current_tool App._trigger_hold
       App._was_changing_tool App._last_trigger App._sleep_mode
       App._sleep_timer App.font App.arial_font App._next_item_sound
       App._equip_item_sound App._startup_sound App.screen App.hardware
       App.tools App.with_button_change App.with_current_tool
       App.with_trigger_hold App.with_was_changing_tool App.with_last_trigger
       App.with_sleep_mode App.with_sleep_timer App.with_screen
       App.with_hardware App.with_tools GPHardware.config
       GPHardware._motor_spin_end GPHardware._led_flash_end
       GPHardware._simulated GPHardware.with_motor_spin_end
       GPHardware.with_led_flash_end Screen._config Screen._is_simulated
       Screen._thread Screen._sleep Screen.width Screen.height
       Screen.with_sleep] in *.

(** * Proofs *)

(** ** Arithmetic of the clock *)


Lemma Qgtb_lt (x y : Q) : Qgtb x y = true ↔ (y < x)%Q.
Proof.
  unfold Qgtb. rewrite negb_true_iff, <- not_true_iff_false, Qle_bool_iff.
  split; [apply Qnot_le_lt | apply Qlt_not_le].
Qed.

Lemma Qgtb_le (x y : Q) : Qgtb x y = false ↔ (x <= y)%Q.
Proof. unfold Qgtb. rewrite negb_false_iff. apply Qle_bool_iff. Qed.

Lemma Qltb_lt (x y : Q) : Qltb x y = true ↔ (x < y)%Q.
Proof. apply Qgtb_lt. Qed.





Lemma switches_app (e1 e2 : list Event) :
  switches (e1 ++ e2) = switches e1 + switches e2.
Proof. unfold switches. now rewrite List.filter_app, length_app. Qed.

Lemma dims_app (e1 e2 : list Event) : dims (e1 ++ e2) = dims e1 + dims e2.
Proof. unfold dims. now rewrite List.filter_app, length_app. Qed.

Lemma quiet_switches ev : quiet ev → switches ev = 0.
Proof.
  unfold switches. induction 1 as [|e ev [H1 _] _ IH]; simpl; [done|].
  now rewrite H1.
Qed.

Lemma quiet_dims ev : quiet ev → dims ev = 0.
Proof.
  unfold dims. induction 1 as [|e ev [_ H2] _ IH]; simpl; [done|].
  now rewrite H2.
Qed.

Lemma quiet_app e1 e2 : quiet e1 → quiet e2 → quiet (e1 ++ e2).
Proof. apply Forall_app_2. Qed.

Lemma quiet_nil : quiet [].
Proof. constructor. Qed.

Lemma quiet_stops ps : quiet (map Stop ps).
Proof. apply Forall_fmap, Forall_true. now intros p. Qed.

#[local] Hint Resolve quiet_app quiet_nil quiet_stops : quiet.

Lemma stop_playbacks_frozen x : frozen (Tool._stop_playbacks x).1 = frozen x.
Proof. reflexivity. Qed.

Lemma reset_frozen nw x : frozen (Tool.reset nw x).1 = frozen x.
Proof. unfold Tool.reset. simpl. destruct (Tool.descriptions x); reflexivity. Qed.

Lemma reset_quiet nw x : quiet (Tool.reset nw x).2.
Proof. unfold Tool.reset. simpl. auto with quiet. Qed.

Lemma tool_ready_frozen F x y :
  frozen x = frozen y → tool_ready F x = tool_ready F y.
Proof.
  unfold frozen, tool_ready. intros [= Eh Es Eo Ed El Ec Ey Eb Ew _ _].
  now rewrite Es, El, Ec, Ey, Eb, Ew.
Qed.

Lemma tool_ready_inv F x :
  tool_ready F x = true →
  Tool._loaded x = true ∧
  ∃ bg W H y ws,
    Tool._background x = Some bg ∧ Tool._text_cache x = Some (W, H) ∧
    (W + F / 2)%Z ≠ 0%Z ∧ Tool._text_cache_yellow x = Some y ∧
    Tool._sounds x = Some ws ∧ length ws = length (Tool.sounds x).
Proof.
  unfold tool_ready. intros H.
  apply andb_prop in H as [H Hs]. apply andb_prop in H as [H Hc].
  apply andb_prop in H as [H Hy]. apply andb_prop in H as [Hl Hb].
  apply bool_decide_eq_true in Hb as [bg Hb], Hy as [y Hy].
  destruct (Tool._text_cache x) as [[W Hh]|]; [|done].
  destruct (Tool._sounds x) as [ws|]; [|done].
  apply negb_true_iff, Z.eqb_neq in Hc. apply Nat.eqb_eq in Hs.
  split; [done|]. by exists bg, W, Hh, y, ws.
Qed.

Lemma py_float_mod_ok x (m : Z) : m ≠ 0%Z → py_float_mod x (inject_Z m) = Ok (Qmod x (inject_Z m)).
Proof.
  intros Hm. unfold py_float_mod.
  destruct (Qeq_bool _ _) eqn:E; [|done].
  apply Qeq_bool_iff in E. unfold Qeq in E. simpl in E. lia.
Qed.

Lemma render_ok nw scr x :
  tool_ready (Screen.width scr) x = true →
  ∃ x' ev, Tool.render nw scr x = Ok (x', ev) ∧ frozen x' = frozen x ∧ quiet ev.
Proof.
  intros H. apply tool_ready_inv in H as (Hl & bg & W & Hh & y & ws & Hb & Hc & Hm & Hy & _).
  unfold Tool.render. rewrite Hl, Hb, Hc, Hy. simpl.
  rewrite (py_float_mod_ok _ _ Hm). simpl.
  destruct (Tool._init_timer x) as [t0|] eqn:Et; simpl.
  - eexists _, _. split; [reflexivity|]. split.
    + destruct (Qgtb _ _); reflexivity.
    + repeat (apply Forall_app_2 || apply Forall_cons_2 || apply Forall_nil_2); try done.
      * destruct (_ >? _)%Z; repeat constructor.
      * destruct (Tool._description _); repeat constructor.
  - eexists _, _. split; [reflexivity|]. split; [reflexivity|].
      repeat (apply Forall_app_2 || apply Forall_cons_2 || apply Forall_nil_2); try done.
      * destruct (_ >? _)%Z; repeat constructor.
      * destruct (Tool._description _); repeat constructor.
Qed.

Lemma py_mod_nat_ok a b : b ≠ 0 → py_mod_nat a b = Ok (a mod b).
Proof. now destruct b. Qed.

Lemma py_index_ok {A} (l : list A) i :
  i < length l → ∃ v, l !! i = Some v ∧ py_index l i = Ok v.
Proof.
  intros H. destruct (lookup_lt_is_Some_2 l i H) as [v Hv].
  exists v. unfold py_index. now rewrite Hv.
Qed.

Lemma random_choice_ok {A} pk (l : list A) :
  l ≠ [] → ∃ v, random_choice pk l = Ok v.
Proof.
  intros H. destruct l as [|a l]; [done|]. unfold random_choice.
  destruct (py_index_ok (a :: l) (pk mod length (a :: l))) as (v & _ & Hv).
  - apply Nat.mod_upper_bound. done.
  - now exists v.
Qed.

Lemma play_sound_ok nw pk F x :
  tool_ready F x = true → Tool.sounds x ≠ [] →
  ∃ x' ev, Tool._play_sound nw pk x = Ok (x', ev) ∧ frozen x' = frozen x ∧ quiet ev.
Proof.
  intros H Hne.
  apply tool_ready_inv in H as (_ & _ & _ & _ & _ & ws & _ & _ & _ & _ & Hw & Hlen).
  assert (Hn : length (Tool.sounds x) ≠ 0) by (now destruct (Tool.sounds x)).
  unfold Tool._play_sound.
  destruct (String.eqb (Tool.sound_order x) "selective").
  - rewrite (py_mod_nat_ok _ _ Hn). simpl. rewrite Hw. simpl.
    destruct (py_index_ok ws ((Tool._sound_selector x + 1) mod length (Tool.sounds x)))
      as (w & _ & ->).
    { rewrite Hlen. now apply Nat.mod_upper_bound. }
    simpl. destruct (Tool.sound_overlap x); simpl;
      (eexists _, _; split; [reflexivity|]; split; [reflexivity|]).
    + repeat constructor.
    + apply quiet_app; [apply quiet_stops | repeat constructor].
  - destruct (String.eqb (Tool.sound_order x) "random").
    + rewrite Hw. simpl.
      destruct (random_choice_ok pk ws) as [w ->].
      { intros ->. simpl in Hlen. lia. }
      simpl. destruct (Tool.sound_overlap x); simpl;
        (eexists _, _; split; [reflexivity|]; split; [reflexivity|]).
      * repeat constructor.
      * apply quiet_app; [apply quiet_stops | repeat constructor].
    + simpl. eexists _, _. split; [reflexivity|]. split; [reflexivity|]. constructor.
Qed.

Lemma trigger_ok nw pk ip F x hw :
  tool_ready F x = true →
  ∃ x' hw' ev, Tool.trigger nw pk ip x hw = Ok (x', hw', ev) ∧
    frozen x' = frozen x ∧
    GPHardware.config hw' = GPHardware.config hw ∧
    GPHardware._simulated hw' = GPHardware._simulated hw ∧ quiet ev.
Proof.
  intros H. unfold Tool.trigger.
  lazymatch goal with |- ∃ _ _ _, mbind _ ?m = _ ∧ _ =>
    assert (∃ x1, m = Ok x1 ∧ frozen x1 = frozen x) as (x1 & -> & E1) end.
  { destruct (Tool.descriptions x) as [|d ds] eqn:Ed; [by exists x|].
    rewrite py_mod_nat_ok by done. rsimpl. rewrite Ed.
    destruct (py_index_ok (d :: ds) ((Tool._description_selector x + 1) mod length (d :: ds)))
      as (v & _ & ->).
    { now apply Nat.mod_upper_bound. }
    simpl. eexists. split; [reflexivity|]. reflexivity. }
  simpl.
  rewrite (tool_ready_frozen F _ _ (eq_sym E1)) in H.
  lazymatch goal with |- ∃ _ _ _, mbind _ ?m = _ ∧ _ =>
    assert (∃ x2 ev1, m = Ok (x2, ev1) ∧ frozen x2 = frozen x1 ∧ quiet ev1)
      as (x2 & ev1 & -> & E2 & Q1) end.
  { destruct (Tool.sounds x1) eqn:Es.
    - exists x1, []. repeat split; constructor.
    - apply (play_sound_ok _ _ F); [done|]. now rewrite Es. }
  simpl.
  assert (E3 : frozen (Tool._manage_playbacks ip x2) = frozen x) by (rewrite <- E1, <- E2; reflexivity).
  change (Tool.light_up (Tool._manage_playbacks ip x2)) with (Tool.light_up x2).
  change (Tool.motor_spin (Tool._manage_playbacks ip x2)) with (Tool.motor_spin x2).
  destruct (Tool.light_up x2), (Tool.motor_spin x2); simpl;
    eexists _, _, _; (split; [reflexivity|]); (split; [exact E3|]); (split; [done|]); (split; [done|]);
    repeat (apply quiet_app); try done; repeat constructor.
Qed.

Lemma loop_ok nw pk ip F x hw :
  tool_ready F x = true →
  ∃ x' hw' ev, Tool.loop nw pk ip x hw = Ok (x', hw', ev) ∧
    frozen x' = frozen x ∧
    GPHardware.config hw' = GPHardware.config hw ∧
    GPHardware._simulated hw' = GPHardware._simulated hw ∧ quiet ev.
Proof.
  intros H. unfold Tool.loop.
  lazymatch goal with |- ∃ _ _ _, mbind _ ?m = _ ∧ _ =>
    assert (∃ x2 ev1, m = Ok (x2, ev1) ∧ frozen x2 = frozen x ∧ quiet ev1)
      as (x2 & ev1 & -> & E2 & Q1) end.
  { destruct (_ && _) eqn:Ec.
    - apply andb_prop in Ec as [_ Ec]. apply bool_decide_eq_true in Ec.
      now apply (play_sound_ok _ _ F).
    - exists x, []. repeat split; constructor. }
  simpl.
  assert (E3 : frozen (Tool._manage_playbacks ip x2) = frozen x) by (rewrite <- E2; reflexivity).
  destruct (Tool.light_up x2), (Tool.motor_spin x2); simpl;
    eexists _, _, _; (split; [reflexivity|]); (split; [exact E3|]); (split; [done|]); (split; [done|]);
    repeat (apply quiet_app); try done; repeat constructor.
Qed.

(** ** The application *)

Lemma steady_refl a : steady a a.
Proof. by repeat split. Qed.

Lemma steady_trans a b c : steady a b → steady b c → steady a c.
Proof.
  intros (?&?&?&?&?&?) (?&?&?&?&?&?). repeat split; congruence.
Qed.

Lemma steady_trigger_down k a a' :
  steady a a' → trigger_down k a' = trigger_down k a.
Proof.
  intros (_&_&_&_&H1&H2). unfold trigger_down, GPHardware.is_trigger_down.
  now rewrite H1, H2.
Qed.

Lemma steady_length a a' :
  steady a a' → length (App.tools a') = length (App.tools a).
Proof.
  intros (_&H&_). apply (f_equal length) in H. now rewrite !length_map in H.
Qed.

Lemma frozen_lookup (ts ts' : list Tool.t) i x :
  map frozen ts' = map frozen ts → ts !! i = Some x →
  ∃ x', ts' !! i = Some x' ∧ frozen x' = frozen x.
Proof.
  intros H Hx.
  assert (Hi : map frozen ts !! i = Some (frozen x))
    by (now rewrite list_lookup_fmap, Hx).
  rewrite <- H, list_lookup_fmap in Hi.
  destruct (ts' !! i) as [x'|]; [|done]. exists x'. split; [done|].
  simpl in Hi. congruence.
Qed.

Lemma steady_active_hold a a' :
  steady a a' → App._current_tool a' = App._current_tool a →
  active_hold a' = active_hold a.
Proof.
  intros (_&H&_) Hc. unfold active_hold. rewrite Hc.
  destruct (App.tools a !! App._current_tool a) as [x|] eqn:Ex.
  - destruct (frozen_lookup _ _ _ _ H Ex) as (x' & -> & Hf).
    unfold frozen in Hf. now injection Hf.
  - apply lookup_ge_None in Ex.
    assert (Hl : length (App.tools a') = length (App.tools a))
      by (apply (f_equal length) in H; now rewrite !length_map in H).
    rewrite <- Hl in Ex. apply lookup_ge_None in Ex. now rewrite Ex.
Qed.

Lemma frozen_insert (ts : list Tool.t) i x x' :
  ts !! i = Some x → frozen x' = frozen x →
  map frozen (<[i:=x']> ts) = map frozen ts.
Proof.
  intros Hx Hf. change (map frozen) with (fmap (M:=list) frozen).
  rewrite list_fmap_insert, Hf. apply list_insert_id.
  now rewrite list_lookup_fmap, Hx.
Qed.

Lemma ready_frozen F (ts ts' : list Tool.t) :
  map frozen ts' = map frozen ts →
  forallb (tool_ready F) ts' = forallb (tool_ready F) ts.
Proof.
  revert ts'. induction ts as [|x ts IH]; intros [|x' ts'] H; try done.
  change (frozen x' :: map frozen ts' = frozen x :: map frozen ts) in H.
  assert (Hx : frozen x' = frozen x) by congruence.
  assert (Ht : map frozen ts' = map frozen ts) by congruence.
  simpl. now rewrite (tool_ready_frozen F _ _ Hx), (IH _ Ht).
Qed.

Lemma app_ready_inv a :
  app_ready a = true →
  App._current_tool a < length (App.tools a) ∧
  forallb (tool_ready (Screen.width (App.screen a))) (App.tools a) = true ∧
  (∃ l, App._last_trigger a = Some l) ∧
  (App._button_change a = true → ∃ h, App._trigger_hold a = Some h).
Proof.
  unfold app_ready. intros H.
  apply andb_prop in H as [H Hb]. apply andb_prop in H as [H Hl].
  apply andb_prop in H as [Hc Ht].
  apply Nat.ltb_lt in Hc. apply bool_decide_eq_true in Hl as [l Hl].
  repeat split; [done..|exists l; done|].
  intros E. rewrite E in Hb. simpl in Hb.
  now apply bool_decide_eq_true in Hb as [h Hh]; exists h.
Qed.

Lemma app_ready_intro a :
  App._current_tool a < length (App.tools a) →
  forallb (tool_ready (Screen.width (App.screen a))) (App.tools a) = true →
  is_Some (App._last_trigger a) →
  (App._button_change a = true → is_Some (App._trigger_hold a)) →
  app_ready a = true.
Proof.
  intros Hc Ht Hl Hb. unfold app_ready.
  apply Nat.ltb_lt in Hc. rewrite Hc, Ht. simpl.
  rewrite (bool_decide_eq_true_2 _ Hl). simpl.
  destruct (App._button_change a); [|done]. simpl.
  apply bool_decide_eq_true_2. auto.
Qed.

Lemma ready_lookup F (ts : list Tool.t) i x :
  forallb (tool_ready F) ts = true → ts !! i = Some x → tool_ready F x = true.
Proof.
  intros H Hx. rewrite forallb_forall in H. apply H.
  apply list_elem_of_In. eapply list_elem_of_lookup_2. exact Hx.
Qed.

Lemma switches_mark ev : quiet ev → switches (Mark "next_tool" :: ev) = 1.
Proof. intros H. change (S (switches ev) = 1). now rewrite quiet_switches. Qed.

Lemma next_tool_ok nw a :
  App._current_tool a < length (App.tools a) →
  ∃ a' ev, App.next_tool nw a = Ok (a', ev) ∧ steady a a' ∧
    control a' =
      (App._button_change a,
       (App._current_tool a + 1) mod length (App.tools a),
       App._trigger_hold a, true, App._last_trigger a, App._sleep_mode a,
       App._sleep_timer a) ∧
    App.screen a' = App.screen a ∧ App.hardware a' = App.hardware a ∧
    switches ev = 1 ∧ dims ev = 0.
Proof.
  intros Hc. unfold App.next_tool.
  destruct (py_index_ok _ _ Hc) as (x & Hx & ->). rsimpl.
  pose proof (reset_frozen nw x) as Fx. pose proof (reset_quiet nw x) as Qx.
  destruct (Tool.reset nw x) as [x1 ev1]. rsimpl.
  rewrite length_insert, py_mod_nat_ok by lia. rsimpl.
  set (i := (App._current_tool a + 1) mod length (App.tools a)).
  assert (Hi : i < length (<[App._current_tool a:=x1]> (App.tools a))).
  { rewrite length_insert. apply Nat.mod_upper_bound. lia. }
  destruct (py_index_ok _ _ Hi) as (y & Hy & ->). rsimpl.
  pose proof (reset_frozen nw y) as Fy. pose proof (reset_quiet nw y) as Qy.
  destruct (Tool.reset nw y) as [y1 ev2]. rsimpl.
  eexists _, _. split; [reflexivity|].
  assert (E1 : map frozen (<[App._current_tool a:=x1]> (App.tools a))
               = map frozen (App.tools a)) by (now apply (frozen_insert _ _ x)).
  split; [|split; [reflexivity|]; split; [reflexivity|]; split; [reflexivity|]; split].
  - repeat split; rsimpl; try done.
    rewrite <- E1. now apply (frozen_insert _ _ y).
  - simpl. apply switches_mark. apply quiet_app; [done|].
    apply quiet_app; [done|]. repeat constructor.
  - change (dims (ev1 ++ ev2 ++ [Play (App._next_item_sound a)]) = 0).
    apply quiet_dims. repeat (apply quiet_app); try done; repeat constructor.
Qed.

Lemma update_render_ok k a :
  app_ready a = true →
  ∃ a1 ev1, App.update_render k a = Ok (a1, ev1) ∧ steady a a1 ∧
    control a1 = control a ∧ App.hardware a1 = App.hardware a ∧
    App.screen a1 = App.screen a ∧ quiet ev1.
Proof.
  intros H. apply app_ready_inv in H as (Hc & Ht & _).
  unfold App.update_render. destruct (App._sleep_mode a) eqn:Es.
  { exists a, []. repeat split; constructor. }
  destruct (py_index_ok _ _ Hc) as (x & Hx & ->). rsimpl.
  destruct (render_ok (now k) (App.screen a) x) as (x' & ev & -> & Hf & Hq).
  { eapply ready_lookup; eauto. }
  rsimpl. eexists _, _. split; [reflexivity|].
  repeat split; rsimpl; try done.
  now apply (frozen_insert _ _ x).
Qed.

Lemma steady_with_tools a i x x' :
  App.tools a !! i = Some x → frozen x' = frozen x →
  steady a (App.with_tools (<[i:=x']> (App.tools a)) a).
Proof.
  intros Hx Hf. repeat split; rsimpl; try done. now apply (frozen_insert _ _ x).
Qed.

Lemma update_trigger_ok k a :
  app_ready a = true →
  ∃ a' ev, App.update_trigger k a = Ok (a', ev) ∧ steady a a' ∧
    control a' = after_trigger k a ∧
    switches ev = (if switch_due k a then 1 else 0) ∧ dims ev = 0.
Proof.
  intros H. apply app_ready_inv in H as (Hc & Ht & [l Hl] & Hb).
  destruct (py_index_ok _ _ Hc) as (x & Hx & Hix).
  assert (Hr : tool_ready (Screen.width (App.screen a)) x = true)
    by (eapply ready_lookup; eauto).
  unfold App.update_trigger, after_trigger, switch_due, edge, active_hold.
  fold (trigger_down k a). rewrite Hx, Hl.
  destruct (trigger_down k a) eqn:Ed, (App._button_change a) eqn:Eb;
    cbn [eqb negb andb].
  - (* held *)
    destruct (Hb eq_refl) as [h Hh]. rewrite Hix, Hh. rsimpl.
    destruct (Tool.hold x && negb (App._was_changing_tool a)) eqn:Eh.
    + unfold App.update_hold.
      destruct (loop_ok (now k) (pick k) (is_playing k) _ x (App.hardware a) Hr)
        as (x' & hw' & ev1 & -> & Hf & Hw1 & Hw2 & Hq).
      rsimpl. rewrite Hl, Hh. unfold App.number. rsimpl.
      destruct (Qltb _ _); rsimpl.
      * destruct (Qgtb _ _); rsimpl.
        -- edestruct (next_tool_ok (now k)) as (a' & ev2 & -> & Hs & Hctl & _ & _ & Hsw & Hdm).
           2:{ rsimpl. eexists _, _. split; [reflexivity|]. split; [|split; [|split]].
               - eapply steady_trans; [|exact Hs].
                 repeat split; rsimpl; try done. now apply (frozen_insert _ _ x).
               - rewrite Hctl. rsimpl. now rewrite length_insert, Eb, Hl.
               - rewrite switches_app, Hsw, quiet_switches; done.
               - rewrite dims_app, Hdm, quiet_dims; done. }
           rsimpl. now rewrite length_insert.
        -- eexists _, _. split; [reflexivity|]. split; [|split; [|split]].
           ++ repeat split; rsimpl; try done. now apply (frozen_insert _ _ x).
           ++ reflexivity.
           ++ now apply quiet_switches.
           ++ now apply quiet_dims.
      * eexists _, _. split; [reflexivity|]. split; [|split; [|split]].
           ++ repeat split; rsimpl; try done. now apply (frozen_insert _ _ x).
           ++ reflexivity.
           ++ now apply quiet_switches.
           ++ now apply quiet_dims.
    + destruct (Qgtb _ _).
      * edestruct (next_tool_ok (now k)) as (a' & ev2 & -> & Hs & Hctl & _ & _ & Hsw & Hdm).
        2:{ eexists _, _. split; [reflexivity|]. split; [|split; [|split]].
            - eapply steady_trans; [|exact Hs]. by repeat split.
            - rewrite Hctl. rsimpl. now rewrite Eb, Hl.
            - done.
            - done. }
        done.
      * exists a, []. split; [done|]. split; [apply steady_refl|]. done.
  - (* press *)
    unfold App.update_edge. rsimpl. rewrite Hix. rsimpl.
    destruct (trigger_ok (now k) (pick k) (is_playing k) _ x (App.hardware a) Hr)
        as (x' & hw' & ev1 & -> & Hf & Hw1 & Hw2 & Hq).
    rsimpl. destruct (App._sleep_mode a) eqn:Es; rsimpl;
      (eexists _, _; split; [reflexivity|]; split; [|split; [|split]]).
    + repeat split; rsimpl; try done. now apply (frozen_insert _ _ x).
    + unfold control. rsimpl. now rewrite ?Eb, ?Hl.
    + apply quiet_switches. repeat (apply quiet_app); try done.
      destruct (negb _); repeat constructor. repeat constructor.
    + apply quiet_dims. repeat (apply quiet_app); try done.
      destruct (negb _); repeat constructor. repeat constructor.
    + repeat split; rsimpl; try done. now apply (frozen_insert _ _ x).
    + unfold control. rsimpl. now rewrite ?Eb, ?Hl, ?Es.
    + now apply quiet_switches.
    + now apply quiet_dims.
  - (* release *)
    unfold App.update_edge. rsimpl.
    assert (Q1 : ∀ ev, quiet ev → quiet (ev ++
       (if negb (Screen._is_simulated (App.screen a)) then [BlDutyCycle 100] else [])
       ++ [SetSleep false])).
    { intros ev Hq. repeat (apply quiet_app); try done.
      destruct (negb _); repeat constructor. repeat constructor. }
    destruct (App._was_changing_tool a) eqn:Ew; rsimpl;
      destruct (App._sleep_mode a) eqn:Es; rsimpl;
      (eexists _, _; split; [reflexivity|]; split; [by repeat split|];
       split; [unfold control; rsimpl; now rewrite ?Es, ?Hl, ?Ew|]);
      (split; [apply quiet_switches | apply quiet_dims]);
      try apply Q1; repeat constructor.
  - (* idle *)
    exists a, []. split; [done|]. split; [apply steady_refl|]. done.
Qed.

Lemma control_inv a a' :
  control a' = control a →
  App._button_change a' = App._button_change a ∧
  App._current_tool a' = App._current_tool a ∧
  App._trigger_hold a' = App._trigger_hold a ∧
  App._was_changing_tool a' = App._was_changing_tool a ∧
  App._last_trigger a' = App._last_trigger a ∧
  App._sleep_mode a' = App._sleep_mode a ∧
  App._sleep_timer a' = App._sleep_timer a.
Proof. unfold control. intros [= ? ? ? ? ? ? ?]. done. Qed.

Lemma summary_steady k a a' :
  steady a a' → control a' = control a →
  edge k a' = edge k a ∧ switch_due k a' = switch_due k a ∧
  after_trigger k a' = after_trigger k a.
Proof.
  intros Hs Hc.
  pose proof (steady_trigger_down k _ _ Hs) as Hd.
  pose proof (steady_length _ _ Hs) as Hlen.
  pose proof (control_inv _ _ Hc) as (Hb & Hcur & Hh & Hw & Hl & Hm & Ht).
  pose proof (steady_active_hold _ _ Hs Hcur) as Hah.
  destruct Hs as (Hcfg & _).
  assert (He : edge k a' = edge k a) by (unfold edge; now rewrite Hd, Hb).
  assert (Hsd : switch_due k a' = switch_due k a).
  { unfold switch_due. now rewrite ?He, ?Hd, ?Hah, ?Hw, ?Hl, ?Hh, ?Hcfg. }
  repeat split; try done.
  unfold after_trigger.
  now rewrite ?He, ?Hsd, ?Hd, ?Hc, ?Hcur, ?Hw, ?Hl, ?Hh, ?Hcfg, ?Hb, ?Hlen, ?Hm, ?Ht.
Qed.

Lemma ready_steady a a' :
  app_ready a = true → steady a a' →
  App._current_tool a' < length (App.tools a) →
  is_Some (App._last_trigger a') →
  (App._button_change a' = true → is_Some (App._trigger_hold a')) →
  app_ready a' = true.
Proof.
  intros H Hs Hc Hl Hb. apply app_ready_inv in H as (_ & Ht & _).
  apply app_ready_intro; try done.
  - now rewrite (steady_length _ _ Hs).
  - destruct Hs as (_ & Hf & Hw & _). now rewrite Hw, (ready_frozen _ _ _ Hf).
Qed.

Lemma after_trigger_ready k a a' :
  app_ready a = true → steady a a' → control a' = after_trigger k a →
  app_ready a' = true.
Proof.
  intros H Hs Hc. pose proof (app_ready_inv _ H) as (Hcur & _ & [l Hl] & Hb).
  assert (App._current_tool a' < length (App.tools a) ∧
          is_Some (App._last_trigger a') ∧
          (App._button_change a' = true → is_Some (App._trigger_hold a')))
    as (? & ? & ?); [|by apply (ready_steady a)].
  revert Hc. unfold after_trigger, control, edge.
  destruct (trigger_down k a) eqn:Ed, (App._button_change a) eqn:Eb;
    cbn [eqb negb]; try destruct (switch_due k a);
    intros [= E1 E2 E3 E4 E5 E6 E7]; rewrite E1, E2, E3, E5, ?Hl;
    (split; [try done; apply Nat.mod_upper_bound; lia|]);
    (split; [try done; now destruct (Hb eq_refl) as [h ->]|]);
    try done; intros _; try done; now destruct (Hb eq_refl) as [h ->].
Qed.

Lemma hardware_update_ok nw hw :
  ∃ hw' ev, GPHardware.update nw hw = (hw', ev) ∧
    GPHardware.config hw' = GPHardware.config hw ∧
    GPHardware._simulated hw' = GPHardware._simulated hw ∧ quiet ev.
Proof.
  unfold GPHardware.update.
  destruct (GPHardware._motor_spin_end hw) as [e1|];
    [destruct (Qgtb nw e1)|];
    rsimpl;
    (destruct (GPHardware._led_flash_end hw) as [e2|];
      [destruct (Qgtb nw e2)|]);
    rsimpl; eexists _, _; (split; [reflexivity|]); repeat split;
    repeat (apply quiet_app); repeat constructor;
    destruct (GPHardware._simulated hw); repeat constructor.
Qed.

Lemma screen_update_quiet b scr : quiet (Screen.update b scr).
Proof.
  unfold Screen.update.
  destruct (_ && _); [constructor|].
  destruct (Screen._is_simulated scr); [repeat constructor|].
  destruct (negb _); repeat constructor.
Qed.

Lemma update_ok k a :
  app_ready a = true →
  ∃ a' ev, App.update k a = Ok (a', ev) ∧ app_ready a' = true ∧
    steady a a' ∧ control a' = after_update k a ∧
    switches ev = (if switch_due k a then 1 else 0) ∧
    dims ev = (if sleep_due k a then 1 else 0).
Proof.
  intros H. unfold App.update.
  destruct (update_render_ok k a H) as (a1 & ev1 & -> & Hs1 & Hc1 & Hh1 & _ & Hq1).
  rsimpl.
  assert (H1 : app_ready a1 = true).
  { pose proof (app_ready_inv _ H) as (Hcur & _ & Hl & Hb).
    pose proof (control_inv _ _ Hc1) as (Eb & Ecur & Eh & _ & El & _).
    apply (ready_steady a); try done.
    - now rewrite Ecur.
    - destruct Hl as [l Hl]. rewrite El, Hl. done.
    - rewrite Eb, Eh. intros E. destruct (Hb E) as [h ->]. done. }
  destruct (summary_steady k _ _ Hs1 Hc1) as (He & Hsd & Hat).
  destruct (update_trigger_ok k a1 H1) as (a2 & ev2 & -> & Hs2 & Hc2 & Hsw & Hdm).
  rsimpl. rewrite Hat in Hc2. rewrite Hsd in Hsw.
  pose proof (after_trigger_ready k a a2 H (steady_trans _ _ _ Hs1 Hs2) Hc2) as H2.
  assert (Hsl : ∃ a3 ev3, App.update_sleep k a2 = (a3, ev3) ∧ steady a2 a3 ∧
            control a3 = after_update k a ∧ switches ev3 = 0 ∧
            dims ev3 = (if sleep_due k a then 1 else 0)).
  { assert (Hsd3 : sleep_due k a =
       Qgtb (now k) (App._sleep_timer a2) && negb (App._sleep_mode a2))
      by (unfold sleep_due; rewrite <- Hc2; reflexivity).
    assert (Hau : after_update k a =
      (App._button_change a2, App._current_tool a2, App._trigger_hold a2,
       App._was_changing_tool a2, App._last_trigger a2,
       App._sleep_mode a2 || sleep_due k a, App._sleep_timer a2))
      by (unfold after_update; rewrite <- Hc2; reflexivity).
    rewrite Hau, Hsd3. unfold App.update_sleep.
    destruct (Qgtb (now k) (App._sleep_timer a2) && negb (App._sleep_mode a2)) eqn:E.
    - eexists _, _. split; [reflexivity|]. split; [by repeat split|].
      split; [unfold control; rsimpl; now rewrite orb_true_r|].
      rsimpl. destruct (Screen._is_simulated (App.screen a2)); split; reflexivity.
    - exists a2, []. split; [reflexivity|]. split; [apply steady_refl|].
      split; [unfold control; now rewrite orb_false_r|]. done. }
  destruct Hsl as (a3 & ev3 & -> & Hs3 & Hc3 & Hsw3 & Hdm3).
  destruct (hardware_update_ok (now k) (App.hardware a3))
    as (hw & ev4 & -> & Hw1 & Hw2 & Hq4).
  rsimpl. eexists _, _. split; [reflexivity|].
  assert (Hs : steady a (App.with_hardware hw a3)).
  { eapply steady_trans; [exact Hs1|]. eapply steady_trans; [exact Hs2|].
    eapply steady_trans; [exact Hs3|]. by repeat split. }
  assert (Hc : control (App.with_hardware hw a3) = after_update k a)
    by (rewrite <- Hc3; reflexivity).
  split; [|split; [exact Hs|split; [exact Hc|split]]].
  - pose proof (app_ready_inv _ H2) as (Hcur & _ & Hl & Hb).
    assert (Hc23 : control (App.with_hardware hw a3) =
      (App._button_change a2, App._current_tool a2, App._trigger_hold a2,
       App._was_changing_tool a2, App._last_trigger a2,
       App._sleep_mode a2 || sleep_due k a, App._sleep_timer a2)).
    { rewrite Hc. unfold after_update. rewrite <- Hc2. reflexivity. }
    unfold control in Hc23. injection Hc23 as E1 E2 E3 E4 E5 E6 E7.
    apply (ready_steady a); try done; rsimpl.
    + rewrite E2, <- (steady_length _ _ (steady_trans _ _ _ Hs1 Hs2)). done.
    + now rewrite E5.
    + rewrite E1, E3. intros Eb. destruct (Hb Eb) as [h ->]. done.
  - rewrite !switches_app, Hsw, Hsw3, !quiet_switches; auto using screen_update_quiet.
  - rewrite !dims_app, Hdm, Hdm3, !quiet_dims; auto using screen_update_quiet.
Qed.

(** ** What a method that returned has done *)

Lemma bind_ok_inv {A B} (m : result A) (f : A → result B) r :
  m ≫= f = Ok r → ∃ v, m = Ok v ∧ f v = Ok r.
Proof. destruct m as [v|e]; [|done]. intros H. now exists v. Qed.

(** Inversion of an equation [e = Ok r] along the shape of [e]. *)
Ltac inv_ok :=
  repeat match goal with
  | H : Raise _ = Ok _ |- _ => discriminate H
  | H : Ok _ = Ok _ |- _ => injection H as H; subst
  | H : (_, _) = (_, _) |- _ => injection H as H; subst
  | H : mbind _ _ = Ok _ |- _ =>
      let v := fresh "v" in let E := fresh "E" in
      apply bind_ok_inv in H as (v & E & H)
  | H : (let '(_, _) := ?e in _) = Ok _ |- _ =>
      let E := fresh "E" in destruct e eqn:E
  | H : (if ?c then _ else _) = Ok _ |- _ =>
      let E := fresh "E" in destruct c eqn:E
  | H : (if ?c then _ else _) = (_, _) |- _ =>
      let E := fresh "E" in destruct c eqn:E
  | H : Tool._stop_playbacks _ = (_, _) |- _ =>
      unfold Tool._stop_playbacks in H
  | H : match ?o with _ => _ end = Ok _ |- _ =>
      let E := fresh "E" in destruct o eqn:E
  end.

Lemma play_sound_frozen nw pk x x' ev :
  Tool._play_sound nw pk x = Ok (x', ev) → frozen x' = frozen x.
Proof. unfold Tool._play_sound. intros H. inv_ok; reflexivity. Qed.

Lemma trigger_frozen nw pk ip x hw x' hw' ev :
  Tool.trigger nw pk ip x hw = Ok (x', hw', ev) → frozen x' = frozen x.
Proof.
  unfold Tool.trigger. intros H. inv_ok;
    repeat match goal with
    | H : Tool._play_sound _ _ _ = Ok _ |- _ => apply play_sound_frozen in H
    end; try reflexivity; try (etrans; [eassumption|reflexivity]).
Qed.

Lemma loop_frozen nw pk ip x hw x' hw' ev :
  Tool.loop nw pk ip x hw = Ok (x', hw', ev) → frozen x' = frozen x.
Proof.
  unfold Tool.loop. intros H. inv_ok;
    repeat match goal with
    | H : Tool._play_sound _ _ _ = Ok _ |- _ => apply play_sound_frozen in H
    end; try reflexivity; try (etrans; [eassumption|reflexivity]).
Qed.

Lemma render_frozen nw scr x x' ev :
  Tool.render nw scr x = Ok (x', ev) → frozen x' = frozen x.
Proof.
  unfold Tool.render. intros H. inv_ok; try reflexivity.
  now destruct (Qgtb _ _).
Qed.

Lemma py_index_inv {A} (l : list A) i v : py_index l i = Ok v → l !! i = Some v.
Proof. unfold py_index. destruct (l !! i); [|done]. now intros [= ->]. Qed.

Lemma py_mod_nat_inv a b v : py_mod_nat a b = Ok v → b ≠ 0 ∧ v = a mod b.
Proof. destruct b; [done|]. now intros [= <-]. Qed.


Lemma kept_refl a : kept a a.
Proof. done. Qed.

Lemma kept_trans a b c : kept a b → kept b c → kept a c.
Proof. intros [H1 H2] [H3 H4]. split; [congruence|auto]. Qed.

Lemma kept_tools a i x x' :
  App.tools a !! i = Some x → frozen x' = frozen x →
  map frozen (<[i:=x']> (App.tools a)) = map frozen (App.tools a).
Proof. apply frozen_insert. Qed.

Lemma next_tool_kept nw a a' ev :
  App.next_tool nw a = Ok (a', ev) →
  kept a a' ∧
  App._current_tool a' = (App._current_tool a + 1) mod length (App.tools a).
Proof.
  unfold App.next_tool. intros H.
  apply bind_ok_inv in H as (x & Ex & H). apply py_index_inv in Ex.
  pose proof (reset_frozen nw x) as Fx. destruct (Tool.reset nw x) as [x1 ev1].
  rsimpl. apply bind_ok_inv in H as (i & Ei & H). rsimpl.
  apply py_mod_nat_inv in Ei as [Hn ->]. rewrite length_insert in *.
  apply bind_ok_inv in H as (y & Ey & H). apply py_index_inv in Ey.
  pose proof (reset_frozen nw y) as Fy. destruct (Tool.reset nw y) as [y1 ev2].
  rsimpl. injection H as <- <-. rsimpl.
  assert (E1 : map frozen (<[App._current_tool a:=x1]> (App.tools a))
               = map frozen (App.tools a)) by (now apply (frozen_insert _ _ x)).
  split; [split|reflexivity]; rsimpl.
  - rewrite <- E1. now apply (frozen_insert _ _ y).
  - intros _. rewrite !length_insert. now apply Nat.mod_upper_bound.
Qed.

Lemma update_render_kept k a a' ev :
  App.update_render k a = Ok (a', ev) →
  kept a a' ∧ App._current_tool a' = App._current_tool a.
Proof.
  unfold App.update_render. intros H.
  destruct (App._sleep_mode a); [by injection H as <- <-|].
  apply bind_ok_inv in H as (x & Ex & H). apply py_index_inv in Ex.
  apply bind_ok_inv in H as ([x' ev'] & Er & H). apply render_frozen in Er.
  injection H as <- <-.
  split; [split|reflexivity]; rsimpl.
  - now apply (frozen_insert _ _ x).
  - now rewrite length_insert.
Qed.

Lemma update_trigger_kept k a a' ev :
  App.update_trigger k a = Ok (a', ev) → kept a a'.
Proof.
  unfold App.update_trigger. intros H.
  destruct (negb _).
  { unfold App.update_edge in H. rsimpl.
    apply bind_ok_inv in H as ([a1 ev1] & E1 & H).
    assert (K1 : kept a a1).
    { destruct (GPHardware.is_trigger_down _ _).
      - apply bind_ok_inv in E1 as (x & Ex & E1). apply py_index_inv in Ex.
        apply bind_ok_inv in E1 as ([[x' hw'] ev'] & Et & E1).
        apply trigger_frozen in Et. injection E1 as <- <-.
        split; rsimpl; [now apply (frozen_insert _ _ x)|now rewrite length_insert].
      - destruct (App._was_changing_tool a); injection E1 as <- <-; done. }
    rsimpl. destruct (App._sleep_mode a1); injection H as <- <-; exact K1. }
  destruct (GPHardware.is_trigger_down _ _); [|by injection H as <- <-].
  apply bind_ok_inv in H as (x & Ex & H). apply py_index_inv in Ex.
  destruct (_ && _).
  - unfold App.update_hold in H.
    apply bind_ok_inv in H as ([[x' hw'] ev'] & El & H). apply loop_frozen in El.
    rsimpl. apply bind_ok_inv in H as (l & _ & H).
    assert (K1 : kept a (App.with_hardware hw'
              (App.with_tools (<[App._current_tool a:=x']> (App.tools a)) a))).
    { split; rsimpl; [now apply (frozen_insert _ _ x)|now rewrite length_insert]. }
    destruct (Qltb _ _); [|by injection H as <- <-].
    apply bind_ok_inv in H as (h & _ & H).
    destruct (Qgtb _ _); [|by injection H as <- <-].
    apply bind_ok_inv in H as ([a1 ev1] & En & H). injection H as <- <-.
    apply next_tool_kept in En as [K2 _].
    eapply kept_trans; [|exact K2]. exact K1.
  - destruct (App._trigger_hold a); [|by injection H as <- <-].
    destruct (Qgtb _ _); [|by injection H as <- <-].
    apply next_tool_kept in H as [K2 _]. exact K2.
Qed.

Lemma update_kept k a a' ev : App.update k a = Ok (a', ev) → kept a a'.
Proof.
  unfold App.update. intros H.
  apply bind_ok_inv in H as ([a1 ev1] & E1 & H). apply update_render_kept in E1 as [K1 _].
  apply bind_ok_inv in H as ([a2 ev2] & E2 & H). apply update_trigger_kept in E2.
  assert (K3 : kept a2 (App.update_sleep k a2).1).
  { unfold App.update_sleep. now destruct (_ && _). }
  destruct (App.update_sleep k a2) as [a3 ev3]. 
  destruct (GPHardware.update _ _) as [hw ev4]. injection H as <- <-.
  eapply kept_trans; [exact K1|]. eapply kept_trans; [exact E2|].
  eapply kept_trans; [exact K3|]. done.
Qed.

(** ** Start-up *)

Lemma tool_init_inv app nw c x :
  Tool.init app nw c = Ok x →
  Tool._loaded x = false ∧ Tool._app x = app ∧
  Tool.hold x = default false (c_hold c) ∧
  Tool.sounds x = default [] (c_sounds c) ∧
  Tool.sound_order x = default "random"%string (c_sound_order c) ∧
  Tool.sound_replay x = default 0%Q (c_sound_replay c) ∧
  Tool.sound_overlap x = default true (c_sound_overlap c) ∧
  Tool.descriptions x = default [] (c_descriptions c) ∧
  Tool.background x =
    default (default_background (app_config app)) (c_background c) ∧
  Tool.light_up x = default true (c_light c) ∧
  Tool.motor_spin x = default true (c_motor c).
Proof.
  unfold Tool.init, Tool.reset. destruct (c_name c) as [nm|]; [|done].
  intros [= <-]. rsimpl.
  destruct (default [] (c_descriptions c)); repeat split; reflexivity.
Qed.

Lemma load_sounds_length files ws :
  Tool.load_sounds files = Ok ws → length ws = length files.
Proof.
  revert ws. induction files as [|f files IH]; intros ws; simpl.
  - now intros [= <-].
  - destruct (endswith f ".wav"); [|done]. intros H.
    apply bind_ok_inv in H as (ws' & E & [= <-]). simpl. now rewrite (IH ws').
Qed.

Lemma load_content_inv x x' :
  Tool.load_content x = Ok x' →
  Tool._loaded x' = true ∧
  Tool._text_cache x' =
    Some (fst (app_font (Tool._app x) (Tool.name x)) + 5,
          snd (app_font (Tool._app x) (Tool.name x)) + 5)%Z ∧
  is_Some (Tool._text_cache_yellow x') ∧ is_Some (Tool._background x') ∧
  (∃ ws, Tool._sounds x' = Some ws ∧ length ws = length (Tool.sounds x')) ∧
  (Tool.hold x', Tool.sounds x', Tool.sound_order x', Tool.descriptions x',
   Tool.light_up x', Tool.motor_spin x', Tool._app x', Tool.name x')
  = (Tool.hold x, Tool.sounds x, Tool.sound_order x, Tool.descriptions x,
     Tool.light_up x, Tool.motor_spin x, Tool._app x, Tool.name x).
Proof.
  unfold Tool.load_content. destruct (Tool._loaded x); [done|]. rsimpl.
  intros H. apply bind_ok_inv in H as (ws & E & [= <-]). rsimpl.
  repeat split; try done. exists ws. split; [done|]. now apply load_sounds_length.
Qed.

Lemma init_tools_length app nw i cfgs ts :
  App.init_tools app nw i cfgs = Ok ts → length ts = length cfgs.
Proof.
  revert i ts. induction cfgs as [|c cfgs IH]; intros i ts; simpl.
  - now intros [= <-].
  - intros H. apply bind_ok_inv in H as (x & _ & H).
    apply bind_ok_inv in H as (x' & _ & H).
    apply bind_ok_inv in H as (xs & E & [= <-]). simpl. now rewrite (IH _ _ E).
Qed.

Lemma init_tools_loaded app nw i cfgs ts :
  App.init_tools app nw i cfgs = Ok ts →
  ∀ j x, ts !! j = Some x → Tool._loaded x = (i + j <? App.MAX_TOOLS).
Proof.
  revert i ts. induction cfgs as [|c cfgs IH]; intros i ts; simpl.
  - intros [= <-] j x Hj. done.
  - intros H. apply bind_ok_inv in H as (x0 & E0 & H).
    apply bind_ok_inv in H as (x1 & E1 & H).
    apply bind_ok_inv in H as (xs & E & [= <-]).
    intros [|j] x Hj; simpl in Hj.
    + injection Hj as <-. rewrite Nat.add_0_r.
      apply tool_init_inv in E0 as (Hl & _).
      destruct (i <? App.MAX_TOOLS).
      * now apply load_content_inv in E1 as (-> & _).
      * now injection E1 as <-.
    + rewrite (IH _ _ E j x Hj). f_equal. lia.
Qed.





(** ** Tool.render: the scrolling title *)

Lemma render_title nw scr x W H :
  tool_ready (Screen.width scr) x = true → Tool._text_cache x = Some (W, H) →
  let F := Screen.width scr in
  let x_pos := (F - py_int (Qmod (nw * 160) (inject_Z (W + F / 2))))%Z in
  let src := match Tool._init_timer x with
             | Some t0 => Blend (Tool.blend_factor nw t0)
             | None => TextCache
             end in
  ∃ x' ev, Tool.render nw scr x = Ok (x', ev) ∧
    Tool._init_timer x' =
      match Tool._init_timer x with
      | Some t0 =>
          if Qgtb nw (t0 + Tool.YELLOW_FADE_TIME) then None else Some t0
      | None => None
      end ∧
    title_boxes ev =
      (src, (x_pos, Tool._text_y x))
      :: (if (x_pos - W - F / 2 + W >? 0)%Z
          then [(src, ((x_pos - W - F / 2)%Z, Tool._text_y x))] else []).
Proof.
  intros Hr Hc F x_pos src.
  apply tool_ready_inv in Hr as (Hl & bg & W' & H' & y & ws & Hb & Hc' & Hm & Hy & _).
  rewrite Hc in Hc'. injection Hc' as <- <-.
  unfold Tool.render. rewrite Hl, Hb, Hc, Hy. unfold getattr. rsimpl. cbn [negb].
  rewrite (py_float_mod_ok _ _ Hm). rsimpl.
  fold F. fold x_pos. subst src.
  destruct (Tool._init_timer x) as [t0|] eqn:Et; rsimpl.
  - eexists _, _. split; [reflexivity|]. split.
    + destruct (Qgtb _ _); [reflexivity|exact Et].
    + replace (Tool._text_y (if Qgtb nw (t0 + Tool.YELLOW_FADE_TIME)
                  then Tool.with_init_timer None x else x)) with (Tool._text_y x)
        by (now destruct (Qgtb _ _)).
      replace (Tool._description (if Qgtb nw (t0 + Tool.YELLOW_FADE_TIME)
                  then Tool.with_init_timer None x else x)) with (Tool._description x)
        by (now destruct (Qgtb _ _)).
      destruct (_ >? _)%Z, (Tool._description x); reflexivity.
  - eexists _, _. split; [reflexivity|]. split; [exact Et|].
    destruct (_ >? _)%Z, (Tool._description x); reflexivity.
Qed.



Lemma blend_factor_mono nw1 nw2 t0 :
  (nw1 <= nw2)%Q → (Tool.blend_factor nw1 t0 <= Tool.blend_factor nw2 t0)%Q.
Proof.
  intros H. unfold Tool.blend_factor, Tool.YELLOW_FADE_TIME.
  apply Q.min_le_compat_r.
  apply Qmult_le_compat_r; [lra|]. done.
Qed.

Lemma blend_factor_one nw t0 :
  (Tool.blend_factor nw t0 == 1)%Q ↔ (t0 + (1 # 2) <= nw)%Q.
Proof.
  unfold Tool.blend_factor, Tool.YELLOW_FADE_TIME.
  assert (E : ((nw - t0) / (1 # 2) == 2 * (nw - t0))%Q) by (field).
  rewrite Q.min_r_iff, E. split; intros; lra.
Qed.

Lemma renders_steady nows scr x :
  tool_ready (Screen.width scr) x = true → Tool._init_timer x = None →
  ∃ x' ev, renders nows scr x = Ok (x', ev) ∧ Tool._init_timer x' = None ∧
    ∀ box, In box (title_boxes ev) → box.1 = TextCache.
Proof.
  revert x. induction nows as [|nw nows IH]; intros x Hr Ht; simpl.
  - exists x, []. split; [reflexivity|]. split; [exact Ht|]. intros box [].
  - pose proof (tool_ready_inv _ _ Hr) as (_ & _ & W & H & _ & _ & _ & Hc & _).
    destruct (render_title nw scr x W H Hr Hc) as (x1 & ev1 & Er & Ht1 & Hb).
    rewrite Ht in Ht1, Hb. rewrite Er. rsimpl.
    destruct (IH x1) as (x' & ev & -> & Ht' & Hb'); [|exact Ht1|].
    { now rewrite (tool_ready_frozen _ _ _ (render_frozen _ _ _ _ _ Er)). }
    rsimpl. eexists _, _. split; [reflexivity|]. split; [exact Ht'|].
    intros box. unfold title_boxes. rewrite omap_app, in_app_iff.
    fold (title_boxes ev1). fold (title_boxes ev). rewrite Hb.
    intros [Hin|Hin]; [|now apply Hb'].
    destruct (_ >? _)%Z; simpl in Hin; destruct Hin as [<-|[<-|[]]]||destruct Hin as [<-|[]]; reflexivity.
Qed.

(** C8. In [Tool.render], while the fade timer [_init_timer] is set the
    title is blended with factor [min((now - fade_start)/0.5, 1)]; the
    factor does not decrease as time passes and is 1 exactly from 0.5 s
    of elapsed time on; a render with [now > fade_start + 0.5] clears
    the timer, and every later render pastes the steady-colour cache,
    unblended. *)
Theorem title_fade nw scr x t0 :
  tool_ready (Screen.width scr) x = true →
  Tool._init_timer x = Some t0 →
  ∃ x' ev, Tool.render nw scr x = Ok (x', ev) ∧
    title_boxes ev ≠ [] ∧
    (∀ box, In box (title_boxes ev) →
            box.1 = Blend (Tool.blend_factor nw t0)) ∧
    Tool.blend_factor nw t0 = Qmin ((nw - t0) / (1 # 2)) 1 ∧
    (∀ later, (nw <= later)%Q →
       (Tool.blend_factor nw t0 <= Tool.blend_factor later t0)%Q) ∧
    (Tool.blend_factor nw t0 <= 1)%Q ∧
    ((Tool.blend_factor nw t0 == 1)%Q ↔ ((1 # 2) <= nw - t0)%Q) ∧
    ((nw <= t0 + (1 # 2))%Q → Tool._init_timer x' = Some t0) ∧
    ((t0 + (1 # 2) < nw)%Q →
       Tool._init_timer x' = None ∧
       ∀ instants, ∃ x'' ev',
         renders instants scr x' = Ok (x'', ev') ∧
         Tool._init_timer x'' = None ∧
         ∀ box, In box (title_boxes ev') → box.1 = TextCache).
Proof.
  intros Hr Ht.
  pose proof (tool_ready_inv _ _ Hr) as (_ & _ & W & H & _ & _ & _ & Hc & _).
  destruct (render_title nw scr x W H Hr Hc) as (x' & ev & Er & Ht' & Hb).
  rewrite Ht in Ht', Hb.
  exists x', ev. split; [exact Er|]. rewrite Hb.
  split; [done|]. split.
  { intros box Hin.
    destruct (_ >? _)%Z; simpl in Hin;
      destruct Hin as [<-|[<-|[]]] || destruct Hin as [<-|[]]; reflexivity. }
  split; [reflexivity|]. split; [intros later; apply blend_factor_mono|].
  split; [apply Q.le_min_r|]. split.
  { rewrite blend_factor_one. split; intros; lra. }
  split.
  - intros Hle. rewrite Ht'. unfold Tool.YELLOW_FADE_TIME.
    apply Qgtb_le in Hle. now rewrite Hle.
  - intros Hlt. unfold Tool.YELLOW_FADE_TIME in Ht'.
    apply Qgtb_lt in Hlt. rewrite Hlt in Ht'. split; [exact Ht'|].
    intros instants. apply renders_steady; [|exact Ht'].
    now rewrite (tool_ready_frozen _ _ _ (render_frozen _ _ _ _ _ Er)).
Qed.

Lemma title_fade_witness :
  tool_ready (Screen.width (App.screen sample_app)) sample_tool = true ∧
  Tool._init_timer sample_tool = Some (1000 # 1) ∧
  ∃ x', Tool._init_timer x' = None.
Proof.
  split; [reflexivity|]. split; [reflexivity|].
  destruct (title_fade (1001 # 1) (App.screen sample_app) sample_tool
              (1000 # 1) eq_refl eq_refl)
    as (x' & ev & _ & _ & _ & _ & _ & _ & _ & _ & Hc).
  exists x'. apply Hc. reflexivity.
Defined.

Lemma frozen_pulses x y :
  frozen x = frozen y →
  Tool.light_up x = Tool.light_up y ∧ Tool.motor_spin x = Tool.motor_spin y.
Proof. unfold frozen. intros [= _ _ _ _ _ _ _ _ _ ? ?]. done. Qed.

Lemma trigger_pulses nw pk ip x hw x' hw' ev :
  Tool.trigger nw pk ip x hw = Ok (x', hw', ev) →
  Tool.light_up x = true → Tool.motor_spin x = true →
  (∃ ev1, ev = ev1 ++ [SetLed true; SetMotor true]) ∧
  GPHardware._led_flash_end hw'
    = Some (nw + flash_duration (GPHardware.config hw))%Q ∧
  GPHardware._motor_spin_end hw'
    = Some (nw + spin_duration (GPHardware.config hw))%Q.
Proof.
  unfold Tool.trigger. intros H Hl Hm.
  apply bind_ok_inv in H as (x1 & E1 & H).
  assert (F1 : frozen x1 = frozen x).
  { destruct (Tool.descriptions x); [now injection E1 as <-|].
    apply bind_ok_inv in E1 as (i & _ & E1). rsimpl.
    apply bind_ok_inv in E1 as (d & _ & E1). now injection E1 as <-. }
  apply bind_ok_inv in H as ([x2 ev1] & E2 & H).
  assert (F2 : frozen x2 = frozen x1).
  { destruct (Tool.sounds x1); [now injection E2 as <- <-|].
    now apply play_sound_frozen in E2. }
  destruct (frozen_pulses _ _ (eq_trans F2 F1)) as [Hl2 Hm2].
  change (Tool.light_up (Tool._manage_playbacks ip x2)) with (Tool.light_up x2) in H.
  change (Tool.motor_spin (Tool._manage_playbacks ip x2)) with (Tool.motor_spin x2) in H.
  rewrite Hl2, Hm2, Hl, Hm in H. simpl in H. injection H as <- <- <-.
  split; [by exists ev1|]. done.
Qed.

(** C10. A tool built from a configuration dictionary takes, for each
    optional key that is absent: hold = False, sounds = [], sound_order =
    "random", sound_replay = 0, sound_overlap = True, descriptions = [],
    light = True, motor = True, and the application's default
    background; so with light and motor absent every trigger of the
    loaded tool flashes the light and spins the motor. *)
Theorem tool_defaults app nw c nm :
  c_name c = Some nm →
  ∃ x, Tool.init app nw c = Ok x ∧ Tool.name x = nm ∧
    (c_hold c = None → Tool.hold x = false) ∧
    (c_sounds c = None → Tool.sounds x = []) ∧
    (c_sound_order c = None → Tool.sound_order x = "random"%string) ∧
    (c_sound_replay c = None → Tool.sound_replay x = 0%Q) ∧
    (c_sound_overlap c = None → Tool.sound_overlap x = true) ∧
    (c_descriptions c = None → Tool.descriptions x = []) ∧
    (c_light c = None → Tool.light_up x = true) ∧
    (c_motor c = None → Tool.motor_spin x = true) ∧
    (c_background c = None →
       Tool.background x = default_background (app_config app)) ∧
    (c_light c = None → c_motor c = None →
     ∀ x1 t pk ip hw, Tool.load_content x = Ok x1 →
       ∃ x2 hw2 ev, Tool.trigger t pk ip x1 hw = Ok (x2, hw2, ev) ∧
         In (SetLed true) ev ∧ In (SetMotor true) ev ∧
         GPHardware._led_flash_end hw2
           = Some (t + flash_duration (GPHardware.config hw))%Q ∧
         GPHardware._motor_spin_end hw2
           = Some (t + spin_duration (GPHardware.config hw))%Q).
Proof.
  intros Hn.
  assert (∃ x, Tool.init app nw c = Ok x ∧ Tool.name x = nm) as (x & Hx & Hnm).
  { unfold Tool.init, Tool.reset. rewrite Hn. eexists. split; [reflexivity|].
    rsimpl. now destruct (default [] (c_descriptions c)). }
  exists x. split; [exact Hx|]. split; [exact Hnm|].
  apply tool_init_inv in Hx
    as (_ & _ & Eh & Es & Eo & Er & Ev & Ed & Eb & El & Em).
  do 9 (split; [intros E; rewrite E in *; done|]).
  intros Hl Hm x1 t pk ip hw Hload. rewrite Hl in El. rewrite Hm in Em.
  simpl in El, Em.
  apply load_content_inv in Hload as (L1 & L2 & L3 & L4 & (ws & L5 & L6) & L7).
  injection L7 as _ _ _ _ El1 Em1 _ _.
  set (F := (2 * (1 - (app_font (Tool._app x) (Tool.name x)).1 - 5))%Z).
  destruct (trigger_ok t pk ip F x1 hw) as (x2 & hw2 & ev & Ht & _).
  { unfold tool_ready. rewrite L1, L2, L5. rsimpl.
    rewrite !bool_decide_eq_true_2 by done. simpl.
    apply andb_true_intro. split; [|now apply Nat.eqb_eq].
    apply negb_true_iff, Z.eqb_neq. unfold F.
    rewrite Z.mul_comm, Z.div_mul by done. lia. }
  exists x2, hw2, ev. split; [exact Ht|].
  apply trigger_pulses in Ht as ([ev1 ->] & E1 & E2); [|congruence..].
  rewrite !in_app_iff. simpl. repeat split; auto 6.
Qed.

Lemma tool_defaults_witness :
  c_name physics_gun = Some "Physics Gun"%string ∧
  ∃ x, Tool.background x = "background.png"%string.
Proof.
  split; [reflexivity|].
  destruct (tool_defaults
              (App.app_ref sample_config sample_font sample_font
                 (Screen.init sample_hardware true))
              (1000 # 1) physics_gun "Physics Gun" eq_refl)
    as (x & _ & _ & _ & _ & _ & _ & _ & _ & _ & _ & Hb & _).
  exists x. apply Hb. reflexivity.
Defined.

(** ** Tool._play_sound *)

(** C1, as stated, fails: ["sequential"] is not a sound order the code
    knows.  On a loaded tool with that order and three sounds,
    [_play_sound] leaves the index at 0 (not 1) and starts nothing. *)
Lemma sequential_order_plays_nothing :
  Tool.sound_order sequential_tool = "sequential"%string ∧
  length (Tool.sounds sequential_tool) = 3 ∧
  Tool._sound_selector sequential_tool = 0 ∧
  Tool._play_sound (1000 # 1) 0 sequential_tool = Ok (sequential_tool, []) ∧
  (Tool._sound_selector sequential_tool + 1)
    mod length (Tool.sounds sequential_tool)
  ≠ Tool._sound_selector sequential_tool.
Proof. repeat split. vm_compute. discriminate. Qed.

(** C1, amended.  On a loaded tool whose sound order is ["selective"]
    and whose sound list is not empty, [_play_sound] moves the index to
    [(index + 1) mod len(sounds)] and starts the sound at that index,
    which becomes the last tracked playback; with an empty sound list
    [trigger] and [loop] do not select a sound: they play nothing and
    leave the index alone. *)
Theorem selective_order_advances nw pk x ws :
  Tool._sounds x = Some ws → length ws = length (Tool.sounds x) →
  (Tool.sound_order x = "selective"%string → Tool.sounds x ≠ [] →
   let i := (Tool._sound_selector x + 1) mod length (Tool.sounds x) in
   ∃ w x' stopped,
     ws !! i = Some w ∧
     Tool._play_sound nw pk x = Ok (x', stopped ++ [Play w]) ∧
     Forall (λ e, is_play e = false) stopped ∧
     Tool._sound_selector x' = i ∧
     last (Tool._playbacks x') = Some {| playing_wave := w |} ∧
     Tool._replay_timer x' = (nw + Tool.sound_replay x)%Q) ∧
  (Tool.sounds x = [] →
   ∀ ip hw, ∃ x1 hw1 ev1 x2 hw2 ev2,
     Tool.trigger nw pk ip x hw = Ok (x1, hw1, ev1) ∧
     Tool.loop nw pk ip x hw = Ok (x2, hw2, ev2) ∧
     Forall (λ e, is_play e = false) (ev1 ++ ev2) ∧
     Tool._sound_selector x1 = Tool._sound_selector x ∧
     Tool._sound_selector x2 = Tool._sound_selector x).
Proof.
  intros Hw Hlen. split.
  - intros Ho Hne i.
    assert (Hn : length (Tool.sounds x) ≠ 0) by (now destruct (Tool.sounds x)).
    destruct (py_index_ok ws i) as (w & Hi & Hpi).
    { rewrite Hlen. now apply Nat.mod_upper_bound. }
    unfold Tool._play_sound. rewrite Ho, String.eqb_refl.
    rewrite (py_mod_nat_ok _ _ Hn). rsimpl. rewrite Hw. unfold getattr. rsimpl.
    fold i. rewrite Hpi. rsimpl.
    destruct (Tool.sound_overlap x); rsimpl; unfold Tool._stop_playbacks; rsimpl.
    + eexists w, _, []. repeat split; try done. rsimpl. apply last_snoc.
    + eexists w, _, (map Stop (Tool._playbacks x)).
      repeat split; try done. apply Forall_fmap, Forall_true. now intros p.
  - intros He ip hw.
    assert (Ht : ∃ x1 hw1 ev1, Tool.trigger nw pk ip x hw = Ok (x1, hw1, ev1) ∧
              Forall (λ e, is_play e = false) ev1 ∧
              Tool._sound_selector x1 = Tool._sound_selector x).
    { unfold Tool.trigger.
      lazymatch goal with |- ∃ _ _ _, mbind _ ?m = _ ∧ _ =>
        assert (∃ x1, m = Ok x1 ∧ Tool.sounds x1 = [] ∧
                  Tool._sound_selector x1 = Tool._sound_selector x)
          as (x1 & -> & Hs & Hsel) end.
      { destruct (Tool.descriptions x) as [|d ds] eqn:Ed; [by exists x|].
        rewrite py_mod_nat_ok by done. rsimpl. rewrite Ed.
        destruct (py_index_ok (d :: ds)
                    ((Tool._description_selector x + 1) mod length (d :: ds)))
          as (v & _ & ->).
        { now apply Nat.mod_upper_bound. }
        rsimpl. eexists. split; [reflexivity|]. split; [exact He|reflexivity]. }
      rsimpl. rewrite Hs. rsimpl.
      destruct (Tool.light_up _), (Tool.motor_spin _); rsimpl;
        eexists _, _, _; (split; [reflexivity|]);
        (split; [repeat constructor|]); done. }
    assert (Hl : ∃ x2 hw2 ev2, Tool.loop nw pk ip x hw = Ok (x2, hw2, ev2) ∧
              Forall (λ e, is_play e = false) ev2 ∧
              Tool._sound_selector x2 = Tool._sound_selector x).
    { unfold Tool.loop. rewrite He. rewrite andb_false_r. rsimpl.
      destruct (Tool.light_up _), (Tool.motor_spin _); rsimpl;
        eexists _, _, _; (split; [reflexivity|]);
        (split; [repeat constructor|]); done. }
    destruct Ht as (x1 & hw1 & ev1 & Ht & Hp1 & Hs1).
    destruct Hl as (x2 & hw2 & ev2 & Hl & Hp2 & Hs2).
    exists x1, hw1, ev1, x2, hw2, ev2.
    repeat split; try done. now apply Forall_app_2.
Qed.

Lemma selective_order_advances_witness :
  Tool._sounds sample_tool = Some ["beam1.wav"; "beam2.wav"; "beam3.wav"]%string ∧
  Tool.sound_order sample_tool = "selective"%string ∧
  ∃ x', Tool._sound_selector x' = 1.
Proof.
  split; [reflexivity|]. split; [reflexivity|].
  destruct (selective_order_advances (1000 # 1) 0 sample_tool
              ["beam1.wav"; "beam2.wav"; "beam3.wav"]%string eq_refl eq_refl)
    as [H _].
  destruct (H eq_refl ltac:(discriminate)) as (w & x' & st & _ & _ & _ & Hs & _).
  exists x'. exact Hs.
Defined.

(** ** App.update: the trigger *)

(** C2, as stated, fails.  The trigger of the sample application is
    pressed at 1000 s and released at 1000.2 s: after the tick of the
    release [_last_trigger] is 1000, the time of the press, not the time
    of the release. *)
Lemma release_time_not_recorded :
  let release := tick (5001 # 5) false in
  App._button_change pressed_app = true ∧
  trigger_down release pressed_app = false ∧
  is_ok (App.update release pressed_app) = true ∧
  App._last_trigger (after_tick release pressed_app) = Some (1000 # 1) ∧
  ¬ (1000 # 1 == now release)%Q.
Proof. repeat split. unfold Qeq. simpl. lia. Qed.

(** C2, amended.  After the tick of a release edge [_last_trigger] is
    what [_trigger_hold] was before it, and [_trigger_hold] is cleared;
    [_trigger_hold] is the time of the tick that saw the press, or of
    the latest tool switch since. *)
Theorem release_records_hold_start k a :
  app_ready a = true →
  ∃ a' ev, App.update k a = Ok (a', ev) ∧
    (App._button_change a = true → trigger_down k a = false →
       is_Some (App._trigger_hold a) ∧
       App._last_trigger a' = App._trigger_hold a ∧
       App._trigger_hold a' = None ∧ App._button_change a' = false) ∧
    (App._button_change a = false → trigger_down k a = true →
       App._trigger_hold a' = Some (now k) ∧
       App._last_trigger a' = App._last_trigger a) ∧
    (switches ev ≠ 0 →
       App._trigger_hold a' = Some (now k) ∧
       App._last_trigger a' = App._last_trigger a).
Proof.
  intros H. pose proof (app_ready_inv _ H) as (_ & _ & _ & Hb).
  destruct (update_ok k a H) as (a' & ev & Hu & _ & _ & Hc & Hsw & _).
  exists a', ev. split; [exact Hu|].
  unfold after_update, after_trigger, control, edge in Hc.
  split; [|split].
  - intros Eb Ed. rewrite Eb, Ed in Hc. cbn in Hc.
    injection Hc as E1 E2 E3 E4 E5 E6 E7.
    destruct (Hb Eb) as [h Hh]. rewrite Hh in *. done.
  - intros Eb Ed. rewrite Eb, Ed in Hc. cbn in Hc.
    injection Hc as E1 E2 E3 E4 E5 E6 E7. done.
  - intros Hne. destruct (switch_due k a) eqn:Es; [|done].
    assert (He : edge k a = false).
    { unfold switch_due in Es. now destruct (edge k a). }
    unfold edge in He. rewrite He in Hc. cbn in Hc.
    injection Hc as E1 E2 E3 E4 E5 E6 E7. done.
Qed.

Lemma release_records_hold_start_witness :
  app_ready pressed_app = true ∧
  ∃ a', App._last_trigger a' = Some (1000 # 1).
Proof.
  split; [reflexivity|].
  destruct (release_records_hold_start (tick (5001 # 5) false) pressed_app
              eq_refl) as (a' & ev & _ & H & _).
  exists a'. destruct (H eq_refl eq_refl) as (_ & -> & _). reflexivity.
Defined.

(** ** The active tool *)

Lemma next_tools_ok instants a :
  App._current_tool a < length (App.tools a) →
  ∃ a' ev, next_tools instants a = Ok (a', ev) ∧
    length (App.tools a') = length (App.tools a) ∧
    App._current_tool a' =
      (App._current_tool a + length instants) mod length (App.tools a).
Proof.
  revert a. induction instants as [|t ts IH]; intros a Hc; simpl.
  - exists a, []. rewrite Nat.add_0_r, Nat.mod_small by done. done.
  - destruct (next_tool_ok t a Hc) as (a1 & ev1 & -> & Hs & Hctl & _).
    rsimpl. pose proof (steady_length _ _ Hs) as Hlen.
    unfold control in Hctl. injection Hctl as _ Hcur _ _ _ _ _.
    destruct (IH a1) as (a' & ev & -> & Hlen' & Hcur').
    { rewrite Hcur, Hlen. apply Nat.mod_upper_bound. lia. }
    rsimpl. eexists _, _. split; [reflexivity|]. split; [congruence|].
    rewrite Hcur', Hcur, Hlen.
    rewrite Nat.Div0.add_mod_idemp_l. f_equal. lia.
Qed.

(** C4. With at least one tool, [_current_tool] is an index of the tool
    list when the application starts and stays one through [next_tool]
    and [update]; [next_tool] called N times brings it back to where it
    was whenever N is a multiple of the number of tools. *)
Theorem current_tool_in_range a :
  App._current_tool a < length (App.tools a) →
  (∀ cfg sim fnt arial t a0,
     App.init cfg sim fnt arial t = Ok a0 → tools_config cfg ≠ [] →
     length (App.tools a0) = length (tools_config cfg) ∧
     App._current_tool a0 < length (App.tools a0)) ∧
  (∀ t, ∃ a' ev, App.next_tool t a = Ok (a', ev) ∧
     length (App.tools a') = length (App.tools a) ∧
     App._current_tool a' < length (App.tools a')) ∧
  (∀ k a' ev, App.update k a = Ok (a', ev) →
     length (App.tools a') = length (App.tools a) ∧
     App._current_tool a' < length (App.tools a')) ∧
  (app_ready a = true → ∀ k, is_ok (App.update k a) = true) ∧
  (∀ instants, ∃ a' ev, next_tools instants a = Ok (a', ev) ∧
     App._current_tool a' =
       (App._current_tool a + length instants) mod length (App.tools a) ∧
     (length instants mod length (App.tools a) = 0 →
      App._current_tool a' = App._current_tool a)).
Proof.
  intros Hc. split; [|split; [|split; [|split]]].
  - intros cfg sim fnt arial t a0 Hi Hne. unfold App.init in Hi.
    apply bind_ok_inv in Hi as (ts & E & [= <-]). rsimpl.
    rewrite (init_tools_length _ _ _ _ _ E). split; [done|].
    destruct (tools_config cfg); [done|simpl; lia].
  - intros t. destruct (next_tool_ok t a Hc) as (a' & ev & Hn & Hs & Hctl & _).
    exists a', ev. split; [exact Hn|].
    pose proof (steady_length _ _ Hs) as Hlen. split; [exact Hlen|].
    unfold control in Hctl. injection Hctl as _ Hcur _ _ _ _ _.
    rewrite Hcur, Hlen. apply Nat.mod_upper_bound. lia.
  - intros k a' ev Hu. apply update_kept in Hu as [Hf Hr].
    split; [|auto]. apply (f_equal length) in Hf. now rewrite !length_map in Hf.
  - intros Hr k. destruct (update_ok k a Hr) as (a' & ev & -> & _). done.
  - intros instants.
    destruct (next_tools_ok instants a Hc) as (a' & ev & Hn & _ & Hcur).
    exists a', ev. split; [exact Hn|]. split; [exact Hcur|].
    intros Hm. rewrite Hcur.
    rewrite <- Nat.Div0.add_mod_idemp_r, Hm, Nat.add_0_r.
    now apply Nat.mod_small.
Qed.

Lemma current_tool_in_range_witness :
  App._current_tool sample_app < length (App.tools sample_app) ∧
  ∃ a' ev,
    next_tools [1000 # 1; 1001 # 1; 1002 # 1; 1003 # 1] sample_app
      = Ok (a', ev) ∧
    App._current_tool a' = App._current_tool sample_app.
Proof.
  assert (Hc : App._current_tool sample_app < length (App.tools sample_app))
    by (vm_compute; lia).
  split; [exact Hc|].
  destruct (current_tool_in_range sample_app Hc) as (_ & _ & _ & _ & H).
  destruct (H [1000 # 1; 1001 # 1; 1002 # 1; 1003 # 1])
    as (a' & ev & Hn & _ & Hz).
  exists a', ev. split; [exact Hn|]. apply Hz. reflexivity.
Defined.

(** ** Loaded content *)

Lemma render_unloaded nw scr x :
  Tool._loaded x = false → Tool.render nw scr x = Raise AssertionError.
Proof. intros H. unfold Tool.render. now rewrite H. Qed.

Lemma render_loaded nw scr x :
  Tool._loaded x = true → Tool.render nw scr x ≠ Raise AssertionError.
Proof.
  intros H. unfold Tool.render, getattr. rewrite H. cbn [negb].
  destruct (Tool._background x); [|done]. rsimpl.
  destruct (Tool._text_cache x); [|done]. rsimpl.
  unfold py_float_mod. destruct (Qeq_bool _ _); [done|]. rsimpl.
  destruct (Tool._init_timer x); [|done].
  destruct (Tool._text_cache_yellow x); done.
Qed.

Lemma loaded_kept (ts ts' : list Tool.t) :
  map frozen ts' = map frozen ts →
  Forall (λ x, Tool._loaded x = true) ts →
  Forall (λ x, Tool._loaded x = true) ts'.
Proof.
  revert ts'. induction ts as [|x ts IH]; intros [|x' ts'] H; try done.
  change (frozen x' :: map frozen ts' = frozen x :: map frozen ts) in H.
  assert (Hx : frozen x' = frozen x) by congruence.
  assert (Ht : map frozen ts' = map frozen ts) by congruence.
  intros Hall. apply Forall_cons in Hall as [H1 H2].
  apply Forall_cons. split; [|now apply IH].
  unfold frozen in Hx. injection Hx as _ _ _ _ Hl _ _ _ _ _ _. congruence.
Qed.

(** C9. [Tool.render] on a tool whose content is not loaded fails its
    assertion.  At start-up the content of the first [MAX_TOOLS] = 60
    tools is loaded, and of no other; so with at most 60 tools every tool
    of every state the application comes to is loaded, and no render
    fails the assertion. *)
Theorem loaded_tools_render cfg sim fnt arial t a0 :
  App.init cfg sim fnt arial t = Ok a0 →
  App.MAX_TOOLS = 60 ∧
  (∀ nw scr x, Tool._loaded x = false →
     Tool.render nw scr x = Raise AssertionError) ∧
  (∀ i x, App.tools a0 !! i = Some x → Tool._loaded x = (i <? 60)) ∧
  (length (tools_config cfg) ≤ 60 →
   ∀ a, reachable a0 a →
     Forall (λ x, Tool._loaded x = true) (App.tools a) ∧
     (∀ nw x, In x (App.tools a) →
        Tool.render nw (App.screen a) x ≠ Raise AssertionError) ∧
     (∀ k, App.update_render k a ≠ Raise AssertionError)).
Proof.
  intros Hi. split; [reflexivity|]. split; [apply render_unloaded|].
  unfold App.init in Hi. apply bind_ok_inv in Hi as (ts & E & [= <-]). rsimpl.
  assert (Hl : ∀ i x, ts !! i = Some x → Tool._loaded x = (i <? 60)).
  { intros i x Hx. now rewrite (init_tools_loaded _ _ _ _ _ E i x Hx). }
  split; [exact Hl|]. intros Hlen a Hr.
  assert (Hall : Forall (λ x, Tool._loaded x = true) (App.tools a)).
  { induction Hr as [|a k a' ev _ IH Hu|a nw a' ev _ IH Hn].
    - rsimpl. apply Forall_lookup. intros i x Hx. rewrite (Hl i x Hx).
      apply Nat.ltb_lt. apply lookup_lt_Some in Hx.
      rewrite (init_tools_length _ _ _ _ _ E) in Hx. lia.
    - apply update_kept in Hu as [Hf _]. exact (loaded_kept _ _ Hf IH).
    - apply next_tool_kept in Hn as [[Hf _] _]. exact (loaded_kept _ _ Hf IH). }
  split; [exact Hall|]. split.
  - intros nw x Hx. apply render_loaded.
    rewrite Forall_forall in Hall. apply Hall. now apply list_elem_of_In.
  - intros k. unfold App.update_render. destruct (App._sleep_mode a); [done|].
    unfold py_index.
    destruct (App.tools a !! App._current_tool a) as [x|] eqn:Ex; [|done].
    rsimpl. pose proof (render_loaded (now k) (App.screen a) x) as Hrl.
    destruct (Tool.render (now k) (App.screen a) x) as [[x' ev]|e]; [done|].
    rsimpl. intros [= ->]. apply Hrl; [|done].
    rewrite Forall_forall in Hall. apply Hall.
    eapply list_elem_of_lookup_2. exact Ex.
Qed.

Lemma loaded_tools_render_witness :
  is_ok (App.init sample_config true sample_font sample_font (1000 # 1)) = true ∧
  length (tools_config sample_config) ≤ 60 ∧
  Forall (λ x, Tool._loaded x = true) (App.tools sample_app).
Proof.
  assert (Hi : App.init sample_config true sample_font sample_font (1000 # 1)
               = Ok sample_app) by (vm_compute; reflexivity).
  assert (Hlen : length (tools_config sample_config) ≤ 60)
    by (vm_compute; lia).
  split; [vm_compute; reflexivity|]. split; [exact Hlen|].
  destruct (loaded_tools_render sample_config true sample_font sample_font
              (1000 # 1) sample_app Hi) as (_ & _ & _ & H).
  destruct (H Hlen sample_app (reach_start _)) as (Hall & _).
  exact Hall.
Defined.

(** ** Ticks without a trigger edge *)

Lemma edge_steady k a a' :
  steady a a' → App._button_change a' = App._button_change a →
  edge k a' = edge k a.
Proof.
  intros Hs Hb. unfold edge. now rewrite (steady_trigger_down k _ _ Hs), Hb.
Qed.

Lemma no_edge_tick k a :
  app_ready a = true → edge k a = false →
  ∃ a' ev, App.update k a = Ok (a', ev) ∧ app_ready a' = true ∧
    steady a a' ∧
    App._button_change a' = App._button_change a ∧
    App._last_trigger a' = App._last_trigger a ∧
    App._sleep_timer a' = App._sleep_timer a ∧
    App._sleep_mode a' =
      App._sleep_mode a
      || (Qgtb (now k) (App._sleep_timer a) && negb (App._sleep_mode a)) ∧
    dims ev =
      (if Qgtb (now k) (App._sleep_timer a) && negb (App._sleep_mode a)
       then 1 else 0) ∧
    switches ev = (if switch_due k a then 1 else 0) ∧
    (App._trigger_hold a', App._was_changing_tool a', App._current_tool a') =
      (if switch_due k a
       then (Some (now k), true,
             (App._current_tool a + 1) mod length (App.tools a))
       else (App._trigger_hold a, App._was_changing_tool a,
             App._current_tool a)).
Proof.
  intros H He.
  destruct (update_ok k a H) as (a' & ev & Hu & Hr & Hs & Hc & Hsw & Hdm).
  exists a', ev. split; [exact Hu|]. split; [exact Hr|]. split; [exact Hs|].
  unfold sleep_due in Hdm. unfold after_update, sleep_due in Hc.
  unfold after_trigger in Hc, Hdm. rewrite He in Hc, Hdm.
  destruct (switch_due k a); unfold control in Hc, Hdm;
    injection Hc as E1 E2 E3 E4 E5 E6 E7; rewrite E1, E2, E3, E4, E5, E6, E7;
    done.
Qed.

(** ** Sleep mode *)

Lemma run_cons k ks a a1 ev1 :
  App.update k a = Ok (a1, ev1) →
  App.run (k :: ks) a = '(a2, evs) ← App.run ks a1; Ok (a2, ev1 ++ evs).
Proof. intros H. simpl. now rewrite H. Qed.

(** Ticks with no trigger edge: the display is put to sleep at most
    once, on the first tick after the deadline. *)
Lemma quiet_trigger_run ks a :
  app_ready a = true → Forall (λ k, edge k a = false) ks →
  ∃ a' ev, App.run ks a = Ok (a', ev) ∧ app_ready a' = true ∧ steady a a' ∧
    App._sleep_timer a' = App._sleep_timer a ∧
    dims ev =
      (if negb (App._sleep_mode a)
          && existsb (λ k, Qgtb (now k) (App._sleep_timer a)) ks
       then 1 else 0) ∧
    App._sleep_mode a' =
      App._sleep_mode a
      || existsb (λ k, Qgtb (now k) (App._sleep_timer a)) ks.
Proof.
  revert a. induction ks as [|k ks IH]; intros a Hr Hall.
  - exists a, []. simpl. rewrite andb_false_r, orb_false_r.
    repeat split; try done.
  - apply Forall_cons in Hall as [He Hall].
    destruct (no_edge_tick k a Hr He)
      as (a1 & ev1 & Hu & Hr1 & Hs1 & Hb1 & _ & Ht1 & Hm1 & Hd1 & _).
    destruct (IH a1 Hr1) as (a' & ev & Hrun & Hr' & Hs' & Ht' & Hd' & Hm').
    { eapply Forall_impl; [exact Hall|]. intros k' Hk'. simpl in Hk'.
      now rewrite (edge_steady k' _ _ Hs1 Hb1). }
    rewrite (run_cons _ _ _ _ _ Hu), Hrun. rsimpl.
    eexists _, _. split; [reflexivity|]. split; [exact Hr'|].
    split; [exact (steady_trans _ _ _ Hs1 Hs')|].
    split; [congruence|].
    rewrite dims_app, Hd1, Hd', Hm', Hm1, Ht1. simpl.
    destruct (App._sleep_mode a), (Qgtb (now k) (App._sleep_timer a)),
      (existsb _ ks); done.
Qed.

(** C5. On every tick of [App.update]: a trigger edge, press or
    release, sets [_sleep_timer] to [now + sleep_timeout] and
    [_sleep_mode] to False whatever it was; the display is put to sleep
    on the tick exactly when [now] is past the deadline then in force
    and the sleep mode then in force is off; so while no edge comes the
    sleep command is given once, on the first tick past the deadline. *)
Theorem sleep_deadline k a :
  app_ready a = true →
  ∃ a1 ev1 a2 ev2 a' ev,
    App.update_render k a = Ok (a1, ev1) ∧
    App.update_trigger k a1 = Ok (a2, ev2) ∧
    App.update k a = Ok (a', ev) ∧
    (edge k a = true →
       App._sleep_timer a2 = (now k + sleep_timeout (App.config a))%Q ∧
       App._sleep_mode a2 = false) ∧
    (edge k a = false →
       App._sleep_timer a2 = App._sleep_timer a ∧
       App._sleep_mode a2 = App._sleep_mode a) ∧
    App._sleep_timer a' = App._sleep_timer a2 ∧
    (dims ev = 1 ↔
       (App._sleep_timer a2 < now k)%Q ∧ App._sleep_mode a2 = false) ∧
    (dims ev = 0 ∨ dims ev = 1) ∧
    (App._sleep_mode a' = true ↔ App._sleep_mode a2 = true ∨ dims ev = 1) ∧
    (edge k a = true → (0 <= sleep_timeout (App.config a))%Q →
       App._sleep_mode a' = false ∧ dims ev = 0) ∧
    (∀ ks, Forall (λ k, edge k a = false) ks →
       ∃ a'' evs, App.run ks a = Ok (a'', evs) ∧
         (dims evs = 0 ∨ dims evs = 1) ∧
         (dims evs = 1 ↔
            App._sleep_mode a = false ∧
            Exists (λ k, (App._sleep_timer a < now k)%Q) ks) ∧
         (App._sleep_mode a'' = true ↔
            App._sleep_mode a = true ∨ dims evs = 1)).
Proof.
  intros H.
  destruct (update_render_ok k a H) as (a1 & ev1 & Hr1 & Hs1 & Hc1 & _).
  assert (H1 : app_ready a1 = true).
  { pose proof (app_ready_inv _ H) as (Hcur & _ & Hl & Hb).
    pose proof (control_inv _ _ Hc1) as (Eb & Ecur & Eh & _ & El & _).
    apply (ready_steady a); try done.
    - now rewrite Ecur.
    - destruct Hl as [l Hl]. rewrite El, Hl. done.
    - rewrite Eb, Eh. intros E. destruct (Hb E) as [h ->]. done. }
  destruct (summary_steady k _ _ Hs1 Hc1) as (He & _ & Hat).
  destruct (update_trigger_ok k a1 H1) as (a2 & ev2 & Ht2 & _ & Hc2 & _).
  rewrite Hat in Hc2.
  destruct (update_ok k a H) as (a' & ev & Hu & _ & _ & Hc & _ & Hdm).
  exists a1, ev1, a2, ev2, a', ev.
  split; [exact Hr1|]. split; [exact Ht2|]. split; [exact Hu|].
  unfold after_update in Hc. unfold sleep_due in Hc, Hdm.
  rewrite <- Hc2 in Hc, Hdm. unfold control at 2 3 in Hc.
  unfold control at 1 in Hdm.
  unfold control at 1 in Hc. injection Hc as _ _ _ _ _ Em Et.
  unfold after_trigger, control in Hc2.
  split; [|split; [|split; [exact Et|split; [|split; [|split; [|split]]]]]].
  - intros E. rewrite E in Hc2. injection Hc2 as _ _ _ _ _ -> ->. done.
  - intros E. rewrite E in Hc2.
    destruct (switch_due k a); injection Hc2 as _ _ _ _ _ -> ->; done.
  - rewrite Hdm. destruct (Qgtb _ _) eqn:Eg; destruct (App._sleep_mode a2);
      simpl; (split; [try done|intros [Hlt Hm]; try done]).
    + intros _. split; [|done]. now apply Qgtb_lt.
    + apply Qgtb_lt in Hlt. congruence.
  - rewrite Hdm. destruct (_ && _); auto.
  - rewrite Em, Hdm. destruct (App._sleep_mode a2), (Qgtb _ _); simpl;
      (split; [auto|intros [?|?]; done]).
  - intros E Hto. rewrite E in Hc2. injection Hc2 as _ _ _ _ _ Hm2 Ht2'.
    rewrite Em, Hdm, Hm2, Ht2'. simpl.
    assert (Eg : Qgtb (now k) (now k + sleep_timeout (App.config a)) = false)
      by (apply Qgtb_le; lra).
    rewrite Eg. done.
  - intros ks Hks.
    destruct (quiet_trigger_run ks a H Hks)
      as (a'' & evs & Hrun & _ & _ & _ & Hd & Hm).
    exists a'', evs. split; [exact Hrun|].
    assert (Hex : existsb (λ k, Qgtb (now k) (App._sleep_timer a)) ks = true
                  ↔ Exists (λ k, (App._sleep_timer a < now k)%Q) ks).
    { rewrite existsb_exists, Exists_exists. split.
      - intros (k' & Hin & Hg). exists k'. split; [now apply list_elem_of_In|].
        now apply Qgtb_lt.
      - intros (k' & Hin & Hg). exists k'. split; [now apply list_elem_of_In|].
        now apply Qgtb_lt. }
    rewrite Hd, Hm. rewrite <- Hex.
    destruct (App._sleep_mode a), (existsb _ ks); simpl;
      (split; [auto|]); (split; (split; [try done; auto|]));
      try (intros [? ?]; done); try (intros [?|?]; done); auto.
Qed.

Lemma sleep_deadline_witness :
  app_ready sample_app = true ∧
  ∃ a' evs,
    App.run [tick (1003 # 1) false; tick (10051 # 10) false;
             tick (1006 # 1) false] sample_app = Ok (a', evs) ∧
    dims evs = 1.
Proof.
  assert (Hr : app_ready sample_app = true) by (vm_compute; reflexivity).
  split; [exact Hr|].
  destruct (sleep_deadline (tick (1000 # 1) false) sample_app Hr)
    as (_ & _ & _ & _ & _ & _ & _ & _ & _ & _ & _ & _ & _ & _ & _ & _ & Hrun).
  destruct (Hrun [tick (1003 # 1) false; tick (10051 # 10) false;
                  tick (1006 # 1) false])
    as (a' & evs & Hrn & _ & Hiff & _).
  { repeat constructor; vm_compute; reflexivity. }
  exists a', evs. split; [exact Hrn|]. apply Hiff.
  split; [vm_compute; reflexivity|].
  apply Exists_cons_tl, Exists_cons_hd. vm_compute. reflexivity.
Defined.

(** ** A held trigger *)

Lemma run_app ks1 ks2 a a1 ev1 :
  App.run ks1 a = Ok (a1, ev1) →
  App.run (ks1 ++ ks2) a = '(a2, ev2) ← App.run ks2 a1; Ok (a2, ev1 ++ ev2).
Proof.
  revert a a1 ev1. induction ks1 as [|k ks1 IH]; intros a a1 ev1 H; simpl in *.
  - injection H as <- <-. destruct (App.run ks2 a) as [[a2 ev2]|e]; done.
  - destruct (App.update k a) as [[b evb]|e]; [|done]. rsimpl.
    destruct (App.run ks1 b) as [[c evc]|e] eqn:E; [|done]. rsimpl.
    injection H as <- <-. rewrite (IH _ _ _ E).
    destruct (App.run ks2 c) as [[d evd]|e]; rsimpl; [|done].
    now rewrite app_assoc.
Qed.


Lemma switching_due k a h :
  switching a h → trigger_down k a = true →
  edge k a = false ∧
  switch_due k a = Qgtb (now k) (h + tool_change_timeout (App.config a)).
Proof.
  intros (_ & Hb & Hh & Hw) Hd.
  assert (He : edge k a = false) by (unfold edge; now rewrite Hd, Hb).
  split; [exact He|]. unfold switch_due. rewrite He, Hd, Hh. cbn [negb andb].
  destruct Hw as [-> | ->]; [done|]. now rewrite andb_false_r.
Qed.

Lemma switching_tick k a h :
  switching a h → trigger_down k a = true →
  ∃ a' ev, App.update k a = Ok (a', ev) ∧ steady a a' ∧
    (if Qgtb (now k) (h + tool_change_timeout (App.config a))
     then switches ev = 1 ∧ switching a' (now k)
     else switches ev = 0 ∧ switching a' h).
Proof.
  intros Hsw Hd. destruct (switching_due k a h Hsw Hd) as [He Hdue].
  destruct Hsw as (Hr & Hb & Hh & Hw).
  destruct (no_edge_tick k a Hr He)
    as (a' & ev & Hu & Hr' & Hs & Hb' & _ & _ & _ & _ & Hn & Hc).
  exists a', ev. split; [exact Hu|]. split; [exact Hs|].
  rewrite Hdue in Hn, Hc.
  destruct (Qgtb _ _); injection Hc as E1 E2 E3; (split; [exact Hn|]).
  - repeat split; try done; [congruence|auto].
  - repeat split; try done; [congruence..|].
    destruct Hw as [Hw|Hw]; [left|right; congruence].
    now rewrite (steady_active_hold _ _ Hs E3).
Qed.

(** Ticks with the trigger held, once a hold switches tools: every
    switch comes more than a timeout after the hold start it found. *)
Lemma switching_run ks a h :
  switching a h → Forall (λ k, trigger_down k a = true) ks →
  ∃ a' ev h', App.run ks a = Ok (a', ev) ∧ steady a a' ∧ switching a' h' ∧
    (switches ev = 0 ∧ h' = h ∨
     0 < switches ev ∧ Exists (λ k, now k = h') ks ∧
     (h + inject_Z (Z.of_nat (switches ev))
          * tool_change_timeout (App.config a) < h')%Q).
Proof.
  revert a h. induction ks as [|k ks IH]; intros a h Hsw Hall.
  - exists a, [], h. split; [done|]. split; [apply steady_refl|].
    split; [exact Hsw|]. now left.
  - apply Forall_cons in Hall as [Hd Hall].
    destruct (switching_tick k a h Hsw Hd) as (a1 & ev1 & Hu & Hs1 & Hcase).
    assert (Hall1 : Forall (λ k, trigger_down k a1 = true) ks).
    { eapply Forall_impl; [exact Hall|]. intros k' Hk'. simpl in Hk'.
      now rewrite (steady_trigger_down k' _ _ Hs1). }
    assert (Hcfg : App.config a1 = App.config a) by (apply Hs1).
    destruct (Qgtb _ _) eqn:Eg; destruct Hcase as [Hn1 Hsw1].
    + destruct (IH a1 (now k) Hsw1 Hall1)
        as (a' & ev & h' & Hrun & Hs' & Hsw' & Hcase').
      rewrite (run_cons _ _ _ _ _ Hu), Hrun. rsimpl.
      eexists _, _, h'. split; [reflexivity|].
      split; [exact (steady_trans _ _ _ Hs1 Hs')|]. split; [exact Hsw'|].
      right. rewrite switches_app, Hn1. split; [lia|].
      apply Qgtb_lt in Eg. rewrite Hcfg in Hcase'.
      destruct Hcase' as [[Hz ->]|(Hp & Hex & Hlt)].
      * split; [now apply Exists_cons_hd|]. rewrite Hz.
        change (inject_Z (Z.of_nat (1 + 0))) with 1%Q. lra.
      * split; [now apply Exists_cons_tl|].
        rewrite Nat2Z.inj_add, inject_Z_plus.
        change (inject_Z (Z.of_nat 1)) with 1%Q. lra.
    + destruct (IH a1 h Hsw1 Hall1)
        as (a' & ev & h' & Hrun & Hs' & Hsw' & Hcase').
      rewrite (run_cons _ _ _ _ _ Hu), Hrun. rsimpl.
      eexists _, _, h'. split; [reflexivity|].
      split; [exact (steady_trans _ _ _ Hs1 Hs')|]. split; [exact Hsw'|].
      rewrite switches_app, Hn1. simpl. rewrite Hcfg in Hcase'.
      destruct Hcase' as [[Hz ->]|(Hp & Hex & Hlt)]; [now left|right].
      split; [exact Hp|]. split; [now apply Exists_cons_tl|exact Hlt].
Qed.

(** C6. With the trigger held on a tool that does not hold, a tick
    makes at most one tool switch; a switch sets [_trigger_hold] to
    [now], so the next one needs [now] to pass that by more than
    [tool_change_timeout] again; over any stretch of held ticks the
    switches number at most one per timeout elapsed since the hold
    began. *)
Theorem one_switch_per_timeout a h :
  app_ready a = true → App._button_change a = true →
  App._trigger_hold a = Some h → active_hold a = false →
  let timeout := tool_change_timeout (App.config a) in
  (∀ k, ∃ a' ev, App.update k a = Ok (a', ev) ∧
     (switches ev = 0 ∨ switches ev = 1) ∧
     (switches ev = 1 → App._trigger_hold a' = Some (now k))) ∧
  (∀ k, trigger_down k a = true →
     ∃ a' ev, App.update k a = Ok (a', ev) ∧
       (switches ev = 1 ↔ (h + timeout < now k)%Q) ∧
       (switches ev = 1 →
        ∀ k2, trigger_down k2 a = true → (now k2 <= now k + timeout)%Q →
          ∃ a2 ev2, App.update k2 a' = Ok (a2, ev2) ∧ switches ev2 = 0)) ∧
  (∀ ks, Forall (λ k, trigger_down k a = true) ks →
     ∃ a' ev, App.run ks a = Ok (a', ev) ∧
       ∀ T, Forall (λ k, (now k <= T)%Q) ks →
         switches ev = 0 ∨
         (inject_Z (Z.of_nat (switches ev)) * timeout < T - h)%Q).
Proof.
  intros Hr Hb Hh Hah timeout.
  assert (Hsw : switching a h) by (repeat split; auto).
  split; [|split].
  - intros k.
    destruct (update_ok k a Hr) as (a' & ev & Hu & _ & _ & Hc & Hn & _).
    exists a', ev. split; [exact Hu|].
    destruct (switch_due k a) eqn:Es; rewrite Hn; [|split; [auto|done]].
    split; [auto|]. intros _.
    assert (He : edge k a = false).
    { unfold switch_due in Es. now destruct (edge k a). }
    unfold after_update, after_trigger in Hc. rewrite He, Es in Hc.
    unfold control in Hc. now injection Hc as _ _ -> _ _ _ _.
  - intros k Hd.
    destruct (switching_tick k a h Hsw Hd) as (a' & ev & Hu & Hs & Hcase).
    exists a', ev. split; [exact Hu|]. fold timeout in Hcase.
    destruct (Qgtb (now k) (h + timeout)) eqn:Eg; destruct Hcase as [Hn Hsw'].
    + apply Qgtb_lt in Eg. split; [done|]. intros _ k2 Hd2 Hle.
      rewrite <- (steady_trigger_down k2 _ _ Hs) in Hd2.
      destruct (switching_tick k2 a' (now k) Hsw' Hd2)
        as (a2 & ev2 & Hu2 & _ & Hcase2).
      exists a2, ev2. split; [exact Hu2|].
      assert (Hcfg : App.config a' = App.config a) by (apply Hs).
      rewrite Hcfg in Hcase2. fold timeout in Hcase2.
      apply Qgtb_le in Hle. rewrite Hle in Hcase2. apply Hcase2.
    + apply Qgtb_le in Eg. rewrite Hn. split; [|done].
      split; [done|]. intros Hlt. lra.
  - intros ks Hks.
    destruct (switching_run ks a h Hsw Hks)
      as (a' & ev & h' & Hrun & _ & _ & Hcase).
    exists a', ev. split; [exact Hrun|]. intros T HT.
    destruct Hcase as [[Hz _]|(Hp & Hex & Hlt)]; [now left|right].
    fold timeout in Hlt.
    apply Exists_exists in Hex as (k & Hin & <-).
    rewrite Forall_forall in HT. specialize (HT k Hin). simpl in HT. lra.
Qed.

Lemma one_switch_per_timeout_witness :
  app_ready plain_pressed = true ∧
  App._trigger_hold plain_pressed = Some (1000 # 1) ∧
  active_hold plain_pressed = false ∧
  ∃ a' ev,
    App.run (held_ticks (1000 # 1) 25) plain_pressed = Ok (a', ev) ∧
    (switches ev = 0 ∨
     (inject_Z (Z.of_nat (switches ev)) * 1 < (2005 # 2) - (1000 # 1))%Q).
Proof.
  assert (Hr : app_ready plain_pressed = true) by (vm_compute; reflexivity).
  assert (Hb : App._button_change plain_pressed = true)
    by (vm_compute; reflexivity).
  assert (Hh : App._trigger_hold plain_pressed = Some (1000 # 1))
    by (vm_compute; reflexivity).
  assert (Ha : active_hold plain_pressed = false) by (vm_compute; reflexivity).
  assert (Hsim : GPHardware._simulated (App.hardware plain_pressed) = true)
    by (vm_compute; reflexivity).
  assert (Hto : tool_change_timeout (App.config plain_pressed) = 1%Q)
    by (vm_compute; reflexivity).
  split; [exact Hr|]. split; [exact Hh|]. split; [exact Ha|].
  destruct (one_switch_per_timeout plain_pressed (1000 # 1) Hr Hb Hh Ha)
    as (_ & _ & H).
  destruct (H (held_ticks (1000 # 1) 25)) as (a' & ev & Hrun & HT).
  { apply Forall_forall. intros k Hk.
    apply list_elem_of_fmap in Hk as (i & -> & _).
    unfold trigger_down, GPHardware.is_trigger_down. now rewrite Hsim. }
  exists a', ev. split; [exact Hrun|]. rewrite <- Hto. apply HT.
  apply Forall_forall. intros k Hk.
  apply list_elem_of_fmap in Hk as (i & -> & Hi).
  apply elem_of_seq in Hi. simpl.
  assert (inject_Z (Z.of_nat i) <= 25)%Q.
  { change 25%Q with (inject_Z 25). rewrite <- Zle_Qle. lia. }
  assert (E : (inject_Z (Z.of_nat i) / 10 == inject_Z (Z.of_nat i) * (1 # 10))%Q)
    by field.
  lra.
Defined.

(** ** A held trigger on a holding tool *)


Lemma holding_tick k a t0 l :
  holding a t0 l → trigger_down k a = true →
  ∃ a' ev, App.update k a = Ok (a', ev) ∧ steady a a' ∧
    (if Qltb (now k - l) ((1 # 2) + tool_change_timeout (App.config a))
        && Qgtb (now k) (t0 + tool_change_timeout (App.config a))
     then switches ev = 1 ∧ switching a' (now k)
     else switches ev = 0 ∧ holding a' t0 l).
Proof.
  intros (Hr & Hb & Hh & Hl & Hah & Hw) Hd.
  assert (He : edge k a = false) by (unfold edge; now rewrite Hd, Hb).
  assert (Hdue : switch_due k a =
            Qltb (now k - l) ((1 # 2) + tool_change_timeout (App.config a))
            && Qgtb (now k) (t0 + tool_change_timeout (App.config a))).
  { unfold switch_due. now rewrite He, Hd, Hh, Hl, Hah, Hw. }
  destruct (no_edge_tick k a Hr He)
    as (a' & ev & Hu & Hr' & Hs & Hb' & Hl' & _ & _ & _ & Hn & Hc).
  exists a', ev. split; [exact Hu|]. split; [exact Hs|].
  rewrite Hdue in Hn, Hc.
  destruct (_ && _); injection Hc as E1 E2 E3; (split; [exact Hn|]).
  - repeat split; try done; [congruence|auto].
  - repeat split; try done; try congruence.
    now rewrite (steady_active_hold _ _ Hs E3).
Qed.

Lemma holding_run ks a t0 l :
  holding a t0 l →
  Forall (λ k, trigger_down k a = true ∧
               Qltb (now k - l) ((1 # 2) + tool_change_timeout (App.config a))
               && Qgtb (now k) (t0 + tool_change_timeout (App.config a))
               = false) ks →
  ∃ a' ev, App.run ks a = Ok (a', ev) ∧ steady a a' ∧ holding a' t0 l ∧
    switches ev = 0.
Proof.
  revert a. induction ks as [|k ks IH]; intros a Hh Hall.
  - exists a, []. split; [done|]. split; [apply steady_refl|]. done.
  - apply Forall_cons in Hall as [[Hd Hc] Hall].
    destruct (holding_tick k a t0 l Hh Hd) as (a1 & ev1 & Hu & Hs1 & Hcase).
    rewrite Hc in Hcase. destruct Hcase as [Hn1 Hh1].
    assert (Hcfg : App.config a1 = App.config a) by (apply Hs1).
    destruct (IH a1 Hh1) as (a' & ev & Hrun & Hs' & Hh' & Hn).
    { eapply Forall_impl; [exact Hall|]. intros k' [Hk1 Hk2].
      now rewrite (steady_trigger_down k' _ _ Hs1), Hcfg. }
    rewrite (run_cons _ _ _ _ _ Hu), Hrun. rsimpl.
    eexists _, _. split; [reflexivity|].
    split; [exact (steady_trans _ _ _ Hs1 Hs')|]. split; [exact Hh'|].
    rewrite switches_app, Hn1, Hn. done.
Qed.

Lemma switching_run_none ks a h :
  switching a h →
  Forall (λ k, trigger_down k a = true ∧
               (now k <= h + tool_change_timeout (App.config a))%Q) ks →
  ∃ a' ev, App.run ks a = Ok (a', ev) ∧ steady a a' ∧ switching a' h ∧
    switches ev = 0.
Proof.
  revert a. induction ks as [|k ks IH]; intros a Hh Hall.
  - exists a, []. split; [done|]. split; [apply steady_refl|]. done.
  - apply Forall_cons in Hall as [[Hd Hc] Hall].
    destruct (switching_tick k a h Hh Hd) as (a1 & ev1 & Hu & Hs1 & Hcase).
    apply Qgtb_le in Hc. rewrite Hc in Hcase. destruct Hcase as [Hn1 Hh1].
    assert (Hcfg : App.config a1 = App.config a) by (apply Hs1).
    destruct (IH a1 Hh1) as (a' & ev & Hrun & Hs' & Hh' & Hn).
    { eapply Forall_impl; [exact Hall|]. intros k' [Hk1 Hk2].
      now rewrite (steady_trigger_down k' _ _ Hs1), Hcfg. }
    rewrite (run_cons _ _ _ _ _ Hu), Hrun. rsimpl.
    eexists _, _. split; [reflexivity|].
    split; [exact (steady_trans _ _ _ Hs1 Hs')|]. split; [exact Hh'|].
    rewrite switches_app, Hn1, Hn. done.
Qed.

(** C3, as stated, fails.  In the sample application, whose tool change
    timeout is 1 s and whose first tool holds, the trigger is tapped at
    1000 s and released at 1000.2 s, then pressed at 1010 s and held
    with a tick every tenth of a second until 1012.5 s: no tool switch
    is made. *)
Lemma long_hold_without_switch :
  tool_change_timeout (App.config pressed_again) = 1 # 1 ∧
  active_hold pressed_again = true ∧
  App._button_change pressed_again = true ∧
  App._trigger_hold pressed_again = Some (1010 # 1) ∧
  Forall (λ k, trigger_down k pressed_again = true)
         (held_ticks (1010 # 1) 25) ∧
  switches_of (App.run (held_ticks (1010 # 1) 25) pressed_again) = Some 0.
Proof.
  split; [vm_compute; reflexivity|]. split; [vm_compute; reflexivity|].
  split; [vm_compute; reflexivity|]. split; [vm_compute; reflexivity|].
  split.
  - assert (Hsim : GPHardware._simulated (App.hardware pressed_again) = true)
      by (vm_compute; reflexivity).
    apply Forall_forall. intros k Hk.
    apply list_elem_of_fmap in Hk as (i & -> & _).
    unfold trigger_down, GPHardware.is_trigger_down. now rewrite Hsim.
  - vm_compute. reflexivity.
Qed.

Lemma run_one k a a1 ev1 :
  App.update k a = Ok (a1, ev1) → App.run [k] a = Ok (a1, ev1).
Proof. intros H. simpl. rewrite H. rsimpl. now rewrite app_nil_r. Qed.

(** C3, amended.  With a tool change timeout of 1 s and the trigger held
    on a holding tool since [t0], no switch made yet and [l] the value
    of [_last_trigger]: if every tick of the hold is 1.5 s or more after
    [l], the hold switches no tool; if the first tick later than
    [t0 + 1] is less than 1.5 s after [l], that tick switches to the
    next tool, and the first tick more than 1 s after it switches
    again. *)
Theorem hold_to_switch a t0 l :
  app_ready a = true →
  (tool_change_timeout (App.config a) == 1)%Q →
  App._button_change a = true → App._trigger_hold a = Some t0 →
  App._last_trigger a = Some l → active_hold a = true →
  App._was_changing_tool a = false →
  (∀ ks,
     Forall (λ k, trigger_down k a = true ∧ ((3 # 2) <= now k - l)%Q) ks →
     ∃ a' ev, App.run ks a = Ok (a', ev) ∧ switches ev = 0) ∧
  (∀ pre k1 mid k2,
     Forall (λ k, trigger_down k a = true ∧ (now k <= t0 + 1)%Q) pre →
     trigger_down k1 a = true → (t0 + 1 < now k1)%Q →
     (now k1 - l < 3 # 2)%Q →
     Forall (λ k, trigger_down k a = true ∧ (now k <= now k1 + 1)%Q) mid →
     trigger_down k2 a = true → (now k1 + 1 < now k2)%Q →
     switches_of (App.run pre a) = Some 0 ∧
     switches_of (App.run (pre ++ [k1]) a) = Some 1 ∧
     switches_of (App.run (pre ++ k1 :: mid) a) = Some 1 ∧
     switches_of (App.run (pre ++ k1 :: mid ++ [k2]) a) = Some 2).
Proof.
  intros Hr Htct Hb Hh Hl Hah Hw.
  assert (Hhold : holding a t0 l) by (repeat split; auto).
  set (timeout := tool_change_timeout (App.config a)) in *.
  split.
  - intros ks Hks.
    destruct (holding_run ks a t0 l Hhold) as (a' & ev & Hrun & _ & _ & Hn).
    { eapply Forall_impl; [exact Hks|]. intros k [Hd Hlate].
      split; [exact Hd|]. fold timeout.
      assert (E : Qltb (now k - l) ((1 # 2) + timeout) = false)
        by (apply Qgtb_le; lra).
      now rewrite E. }
    now exists a', ev.
  - intros pre k1 mid k2 Hpre Hd1 Hlate1 Hwin Hmid Hd2 Hlate2.
    destruct (holding_run pre a t0 l Hhold) as (a1 & ev1 & Hrun1 & Hs1 & Hh1 & Hn1).
    { eapply Forall_impl; [exact Hpre|]. intros k [Hd Hearly].
      split; [exact Hd|]. fold timeout.
      assert (E : Qgtb (now k) (t0 + timeout) = false) by (apply Qgtb_le; lra).
      now rewrite E, andb_false_r. }
    assert (Hcfg1 : App.config a1 = App.config a) by (apply Hs1).
    rewrite <- (steady_trigger_down k1 _ _ Hs1) in Hd1.
    destruct (holding_tick k1 a1 t0 l Hh1 Hd1) as (a2 & ev2 & Hu2 & Hs2 & Hcase).
    rewrite Hcfg1 in Hcase. fold timeout in Hcase.
    assert (E1 : Qltb (now k1 - l) ((1 # 2) + timeout) = true)
      by (apply Qltb_lt; lra).
    assert (E2 : Qgtb (now k1) (t0 + timeout) = true) by (apply Qgtb_lt; lra).
    rewrite E1, E2 in Hcase. destruct Hcase as [Hn2 Hsw2].
    pose proof (steady_trans _ _ _ Hs1 Hs2) as Hs12.
    assert (Hcfg2 : App.config a2 = App.config a) by (apply Hs12).
    destruct (switching_run_none mid a2 (now k1) Hsw2)
      as (a3 & ev3 & Hrun3 & Hs3 & Hsw3 & Hn3).
    { eapply Forall_impl; [exact Hmid|]. intros k [Hd Hearly].
      rewrite (steady_trigger_down k _ _ Hs12), Hcfg2. fold timeout.
      split; [exact Hd|]. lra. }
    pose proof (steady_trans _ _ _ Hs12 Hs3) as Hs13.
    assert (Hcfg3 : App.config a3 = App.config a) by (apply Hs13).
    rewrite <- (steady_trigger_down k2 _ _ Hs13) in Hd2.
    destruct (switching_tick k2 a3 (now k1) Hsw3 Hd2)
      as (a4 & ev4 & Hu4 & _ & Hcase).
    rewrite Hcfg3 in Hcase. fold timeout in Hcase.
    assert (E3 : Qgtb (now k2) (now k1 + timeout) = true)
      by (apply Qgtb_lt; lra).
    rewrite E3 in Hcase. destruct Hcase as [Hn4 _].
    assert (R2 : App.run (k1 :: mid) a1 = Ok (a3, ev2 ++ ev3)).
    { rewrite (run_cons _ _ _ _ _ Hu2), Hrun3. reflexivity. }
    assert (R3 : App.run (k1 :: mid ++ [k2]) a1 = Ok (a4, ev2 ++ ev3 ++ ev4)).
    { rewrite (run_cons _ _ _ _ _ Hu2), (run_app _ _ _ _ _ Hrun3),
        (run_one _ _ _ _ Hu4). reflexivity. }
    rewrite Hrun1, (run_app _ _ _ _ _ Hrun1), (run_one _ _ _ _ Hu2).
    rewrite (run_app _ _ _ _ _ Hrun1), R2, (run_app _ _ _ _ _ Hrun1), R3.
    unfold switches_of. rsimpl. rewrite !switches_app, Hn1, Hn2, Hn3, Hn4.
    done.
Qed.


Lemma hold_to_switch_witness :
  app_ready tapped_and_pressed = true ∧
  (tool_change_timeout (App.config tapped_and_pressed) == 1)%Q ∧
  active_hold tapped_and_pressed = true ∧
  switches_of
    (App.run (held_ticks (10003 # 10) 10
              ++ tick (10014 # 10) true
                 :: held_ticks (10014 # 10) 10 ++ [tick (10025 # 10) true])
       tapped_and_pressed) = Some 2.
Proof.
  assert (Hr : app_ready tapped_and_pressed = true)
    by (vm_compute; reflexivity).
  assert (Hto : (tool_change_timeout (App.config tapped_and_pressed) == 1)%Q)
    by (vm_compute; reflexivity).
  assert (Hb : App._button_change tapped_and_pressed = true)
    by (vm_compute; reflexivity).
  assert (Hh : App._trigger_hold tapped_and_pressed = Some (10003 # 10))
    by (vm_compute; reflexivity).
  assert (Hl : App._last_trigger tapped_and_pressed = Some (1000 # 1))
    by (vm_compute; reflexivity).
  assert (Ha : active_hold tapped_and_pressed = true)
    by (vm_compute; reflexivity).
  assert (Hw : App._was_changing_tool tapped_and_pressed = false)
    by (vm_compute; reflexivity).
  assert (Hsim : GPHardware._simulated (App.hardware tapped_and_pressed) = true)
    by (vm_compute; reflexivity).
  assert (Hd : ∀ t, trigger_down (tick t true) tapped_and_pressed = true).
  { intros t. unfold trigger_down, GPHardware.is_trigger_down.
    now rewrite Hsim. }
  assert (Hticks : ∀ start bound,
            (start + 1 <= bound)%Q →
            Forall (λ k, trigger_down k tapped_and_pressed = true
                         ∧ (now k <= bound)%Q) (held_ticks start 10)).
  { intros start bound Hle. apply Forall_forall. intros k Hk.
    apply list_elem_of_fmap in Hk as (i & -> & Hi).
    apply elem_of_seq in Hi. split; [apply Hd|]. simpl.
    assert (inject_Z (Z.of_nat i) <= 10)%Q.
    { change 10%Q with (inject_Z 10). rewrite <- Zle_Qle. lia. }
    assert (E : (inject_Z (Z.of_nat i) / 10
                 == inject_Z (Z.of_nat i) * (1 # 10))%Q) by field.
    lra. }
  split; [exact Hr|]. split; [exact Hto|]. split; [exact Ha|].
  destruct (hold_to_switch tapped_and_pressed (10003 # 10) (1000 # 1)
              Hr Hto Hb Hh Hl Ha Hw) as [_ H].
  apply (H (held_ticks (10003 # 10) 10) (tick (10014 # 10) true)
           (held_ticks (10014 # 10) 10) (tick (10025 # 10) true)).
  - apply Hticks. lra.
  - apply Hd.
  - simpl. lra.
  - simpl. lra.
  - apply Hticks. simpl. lra.
  - apply Hd.
  - simpl. lra.
Defined.

(** * Further properties of the code *)

(** ** The main loop *)




(** ** Start-up with no tool, or with too many *)

(** X2. An application configured with an empty tool list starts, but
    its first tick raises IndexError, as does a tool switch. *)
Theorem no_tools_first_tick cfg sim fnt arial t :
  tools_config cfg = [] →
  ∃ a0, App.init cfg sim fnt arial t = Ok a0 ∧ App.tools a0 = [] ∧
    (∀ k, App.update k a0 = Raise IndexError) ∧
    (∀ nw, App.next_tool nw a0 = Raise IndexError).
Proof.
  intros He. unfold App.init. rewrite He. simpl.
  eexists. split; [reflexivity|]. split; [reflexivity|]. split.
  - intros k. reflexivity.
  - intros nw. reflexivity.
Qed.

Lemma no_tools_first_tick_witness :
  ∃ a0, App.tools a0 = [] ∧
    App.update (tick (1000 # 1) false) a0 = Raise IndexError.
Proof.
  destruct (no_tools_first_tick
              {| text_scroll_y := 20; default_background := "b.png";
                 sleep_timeout := 5 # 1; tool_change_timeout := 1 # 1;
                 sound_next := "n.wav"; sound_equip := "e.wav";
                 sound_startup := "s.wav";
                 hardware_config := sample_hardware; tools_config := [] |}
              true sample_font sample_font (1000 # 1) eq_refl)
    as (a0 & _ & Ht & Hu & _).
  exists a0. split; [exact Ht|apply Hu].
Defined.

Lemma next_tools_sleep_mode instants a a' ev :
  next_tools instants a = Ok (a', ev) →
  kept a a' ∧ App._sleep_mode a' = App._sleep_mode a ∧
  App.screen a' = App.screen a.
Proof.
  revert a ev. induction instants as [|t ts IH]; intros a ev; simpl.
  - intros [= <- <-]. done.
  - intros H. apply bind_ok_inv in H as ([a1 ev1] & E1 & H).
    apply bind_ok_inv in H as ([a2 ev2] & E2 & H). injection H as <- <-.
    pose proof (next_tool_kept _ _ _ _ E1) as [K1 _].
    assert (Hm : App._sleep_mode a1 = App._sleep_mode a
                 ∧ App.screen a1 = App.screen a).
    { unfold App.next_tool in E1.
      apply bind_ok_inv in E1 as (x & _ & E1).
      destruct (Tool.reset t x) as [x1 e1]. rsimpl.
      apply bind_ok_inv in E1 as (i & _ & E1). rsimpl.
      apply bind_ok_inv in E1 as (y & _ & E1).
      destruct (Tool.reset t y) as [y1 e2]. injection E1 as <- <-. done. }
    destruct (IH _ _ E2) as (K2 & Hm2 & Hs2).
    split; [exact (kept_trans _ _ _ K1 K2)|]. destruct Hm. split; congruence.
Qed.

Lemma update_unloaded k a x :
  App._sleep_mode a = false →
  App.tools a !! App._current_tool a = Some x → Tool._loaded x = false →
  App.update k a = Raise AssertionError.
Proof.
  intros Hm Hx Hl. unfold App.update, App.update_render, py_index.
  rewrite Hm, Hx. rsimpl. now rewrite (render_unloaded _ _ _ Hl).
Qed.

(** X3. With more than 60 tools the 61st is left unloaded at start-up:
    switching tools 60 times from the start makes it the active tool,
    and the next tick fails the assertion of [Tool.render]. *)
Theorem tool_beyond_limit cfg sim fnt arial t a0 instants :
  App.init cfg sim fnt arial t = Ok a0 →
  App.MAX_TOOLS < length (tools_config cfg) →
  length instants = App.MAX_TOOLS →
  ∃ a ev, next_tools instants a0 = Ok (a, ev) ∧
    App._current_tool a = 60 ∧
    ∀ k, App.update k a = Raise AssertionError.
Proof.
  intros Hi Hlen Hn.
  assert (Hinit := Hi). unfold App.init in Hi.
  apply bind_ok_inv in Hi as (ts & E & Ha0).
  pose proof (init_tools_length _ _ _ _ _ E) as Hts.
  assert (Htools : App.tools a0 = ts) by (now injection Ha0 as <-).
  assert (Hcur : App._current_tool a0 = 0) by (now injection Ha0 as <-).
  assert (Hmode : App._sleep_mode a0 = false) by (now injection Ha0 as <-).
  destruct (next_tools_ok instants a0) as (a & ev & Hnt & Hl & Hc).
  { rewrite Hcur, Htools, Hts. unfold App.MAX_TOOLS in Hlen. lia. }
  exists a, ev. split; [exact Hnt|].
  rewrite Hcur, Hn, Htools, Hts in Hc. unfold App.MAX_TOOLS in *.
  rewrite Nat.mod_small in Hc by lia. simpl in Hc. split; [exact Hc|].
  intros k.
  destruct (next_tools_sleep_mode _ _ _ _ Hnt) as ([Hf _] & Hm & _).
  destruct (lookup_lt_is_Some_2 ts 60) as [x0 Hx0]; [lia|].
  rewrite Htools in Hf.
  destruct (frozen_lookup _ _ _ _ Hf Hx0) as (x & Hx & Hfx).
  apply (update_unloaded k a x); [congruence|now rewrite Hc|].
  pose proof (init_tools_loaded _ _ _ _ _ E 60 x0 Hx0) as Hl0.
  unfold frozen in Hfx. injection Hfx as _ _ _ _ Hld _ _ _ _ _ _.
  rewrite Hld, Hl0. reflexivity.
Qed.

(** ** Loading the content *)















Lemma tool_beyond_limit_witness :
  ∃ a, App._current_tool a = 60 ∧
       App.update (tick (1000 # 1) false) a = Raise AssertionError.
Proof.
  assert (Hi : App.init crowded_config true sample_font sample_font (1000 # 1)
               = Ok crowded_app) by (vm_compute; reflexivity).
  destruct (tool_beyond_limit crowded_config true sample_font sample_font
              (1000 # 1) crowded_app (replicate 60 (1000 # 1)) Hi)
    as (a & ev & _ & Hc & Hu).
  - vm_compute. lia.
  - vm_compute. reflexivity.
  - exists a. split; [exact Hc|apply Hu].
Defined.


(** ** Descriptions *)

Lemma play_sound_shown nw pk x x' ev :
  Tool._play_sound nw pk x = Ok (x', ev) → shown x' = shown x.
Proof. unfold Tool._play_sound. intros H. inv_ok; reflexivity. Qed.

Lemma trigger_shown nw pk ip x hw x' hw' ev :
  Tool.trigger nw pk ip x hw = Ok (x', hw', ev) →
  Tool.descriptions x' = Tool.descriptions x ∧
  match Tool.descriptions x with
  | [] => shown x' = shown x
  | _ =>
      let i := (Tool._description_selector x + 1)
               mod length (Tool.descriptions x) in
      shown x' = (i, Tool.descriptions x !! i)
  end.
Proof.
  unfold Tool.trigger. intros H.
  apply bind_ok_inv in H as (x1 & E1 & H).
  apply bind_ok_inv in H as ([x2 ev1] & E2 & H).
  assert (Hd2 : frozen x2 = frozen x1 ∧ shown x2 = shown x1).
  { destruct (Tool.sounds x1); [now injection E2 as <- <-|].
    split; [now apply play_sound_frozen in E2|now apply play_sound_shown in E2]. }
  destruct Hd2 as [F2 S2].
  destruct (if Tool.light_up _ then _ else _) as [hw1 ev2] in H.
  destruct (if Tool.motor_spin _ then _ else _) as [hw2 ev3] in H.
  injection H as <- <- <-.
  change (shown (Tool._manage_playbacks ip x2)) with (shown x2).
  change (Tool.descriptions (Tool._manage_playbacks ip x2))
    with (Tool.descriptions x2).
  assert (D2 : Tool.descriptions x2 = Tool.descriptions x1).
  { unfold frozen in F2. now injection F2 as _ _ _ ? _ _ _ _ _ _ _. }
  rewrite D2, S2.
  destruct (Tool.descriptions x) as [|d ds] eqn:Ed.
  - injection E1 as <-. now rewrite Ed.
  - apply bind_ok_inv in E1 as (i & Ei & E1). rsimpl.
    apply py_mod_nat_inv in Ei as [_ ->]. rewrite Ed in E1.
    apply bind_ok_inv in E1 as (d' & Ed' & E1). apply py_index_inv in Ed'.
    injection E1 as <-. rsimpl. split; [exact Ed|].
    unfold shown. rsimpl. now rewrite Ed'.
Qed.

(** X6. On a loaded tool with descriptions, each [trigger] moves the
    description index to [(index + 1) mod len(descriptions)] and puts
    that description on the panel; after [n] triggers the tool shows
    description [(index + n) mod len(descriptions)], so a full round
    comes back to the description it started from. *)
Theorem trigger_cycles_descriptions ks x hw F :
  tool_ready F x = true → Tool.descriptions x ≠ [] →
  ∃ x' hw' ev, triggers ks x hw = Ok (x', hw', ev) ∧
    Tool.descriptions x' = Tool.descriptions x ∧
    (ks ≠ [] →
     let i := (Tool._description_selector x + length ks)
              mod length (Tool.descriptions x) in
     shown x' = (i, Tool.descriptions x !! i) ∧
     is_Some (Tool.descriptions x !! i)).
Proof.
  revert x hw. induction ks as [|k ks IH]; intros x hw Hr Hne.
  - exists x, hw, []. split; [done|]. split; [done|]. done.
  - destruct (trigger_ok (now k) (pick k) (is_playing k) F x hw Hr)
      as (x1 & hw1 & ev1 & Ht & Hf & _).
    pose proof (trigger_shown _ _ _ _ _ _ _ _ Ht) as [Hd Hs].
    assert (Hr1 : tool_ready F x1 = true)
      by (now rewrite (tool_ready_frozen F _ _ Hf)).
    assert (Hne1 : Tool.descriptions x1 ≠ []) by (now rewrite Hd).
    destruct (IH x1 hw1 Hr1 Hne1) as (x' & hw' & ev & Hrun & Hd' & Hs').
    simpl. rewrite Ht. rsimpl. rewrite Hrun. rsimpl.
    eexists _, _, _. split; [reflexivity|]. split; [congruence|].
    intros _.
    set (i := (Tool._description_selector x + length (k :: ks))
              mod length (Tool.descriptions x)).
    assert (Hn : length (Tool.descriptions x) ≠ 0)
      by (now destruct (Tool.descriptions x)).
    assert (Hi : is_Some (Tool.descriptions x !! i)).
    { apply lookup_lt_is_Some. now apply Nat.mod_upper_bound. }
    split; [|exact Hi].
    destruct (Tool.descriptions x) as [|d ds] eqn:Ed; [done|].
    simpl in Hs. destruct ks as [|k2 ks].
    + simpl in Hrun. injection Hrun as <- <- <-. rewrite Hs.
      subst i. simpl (length [k]). reflexivity.
    + destruct Hs' as [Hs' _]; [done|]. rewrite Hs', Hd.
      assert (E : Tool._description_selector x1
                  = (Tool._description_selector x + 1) mod length (d :: ds)).
      { unfold shown in Hs. now injection Hs as ? _. }
      rewrite E. subst i.
      rewrite Nat.Div0.add_mod_idemp_l.
      replace (Tool._description_selector x + 1 + length (k2 :: ks))
        with (Tool._description_selector x + length (k :: k2 :: ks))
        by (simpl; lia).
      reflexivity.
Qed.

Lemma trigger_cycles_descriptions_witness :
  ∃ x x' hw' ev,
    Tool.descriptions x = ["Remove an object"; "Remove a constraint"]%string ∧
    triggers [tick (1000 # 1) true; tick (1001 # 1) true;
              tick (1002 # 1) true] x (App.hardware plain_pressed)
      = Ok (x', hw', ev) ∧
    shown x' = (0, Some "Remove an object"%string).
Proof.
  set (x := nth 0 (App.tools plain_pressed) blank_tool).
  assert (Hr : tool_ready 240 x = true) by (vm_compute; reflexivity).
  assert (Hd : Tool.descriptions x
               = ["Remove an object"; "Remove a constraint"]%string)
    by (vm_compute; reflexivity).
  assert (Hs : Tool._description_selector x = 1) by (vm_compute; reflexivity).
  destruct (trigger_cycles_descriptions
              [tick (1000 # 1) true; tick (1001 # 1) true;
               tick (1002 # 1) true] x (App.hardware plain_pressed) 240 Hr)
    as (x' & hw' & ev & Hrun & _ & Hsh).
  { rewrite Hd. discriminate. }
  exists x, x', hw', ev. split; [exact Hd|]. split; [exact Hrun|].
  destruct Hsh as [Hsh _]; [discriminate|].
  rewrite Hsh, Hs, Hd. reflexivity.
Defined.

(** ** Sounds and playbacks *)

Lemma random_choice_in {A} pk (l : list A) w :
  random_choice pk l = Ok w → In w l.
Proof.
  unfold random_choice. destruct l as [|a l]; [done|].
  intros H. apply py_index_inv in H. apply list_elem_of_In.
  eapply list_elem_of_lookup_2. exact H.
Qed.

Lemma play_sound_inv nw pk x x' ev :
  Tool._play_sound nw pk x = Ok (x', ev) →
  (∃ w ws,
     Tool._sounds x = Some ws ∧ In w ws ∧
     ev = (if Tool.sound_overlap x then []
           else map Stop (Tool._playbacks x)) ++ [Play w] ∧
     Tool._playbacks x'
     = (if Tool.sound_overlap x then Tool._playbacks x else [])
       ++ [{| playing_wave := w |}] ∧
     Tool._replay_timer x' = (nw + Tool.sound_replay x)%Q ∧
     (Tool.sound_order x = "random"%string →
      Tool._sound_selector x' = Tool._sound_selector x))
  ∨ (Tool.sound_order x ≠ "selective"%string ∧
     Tool.sound_order x ≠ "random"%string ∧ x' = x ∧ ev = []).
Proof.
  unfold Tool._play_sound. intros H.
  destruct (String.eqb_spec (Tool.sound_order x) "selective") as [Es|Es].
  - left. apply bind_ok_inv in H as ([x1 o] & E1 & H).
    apply bind_ok_inv in E1 as (i & Ei & E1). rsimpl.
    apply bind_ok_inv in E1 as (ws & Ew & E1).
    apply bind_ok_inv in E1 as (w & Ei2 & E1). injection E1 as <- <-.
    unfold getattr in Ew. rsimpl.
    destruct (Tool._sounds x) as [ws'|] eqn:Esnd; [|done].
    injection Ew as ->. apply py_index_inv in Ei2.
    exists w, ws. split; [done|]. split.
    { apply list_elem_of_In. eapply list_elem_of_lookup_2. exact Ei2. }
    rsimpl. unfold Tool._stop_playbacks in H.
    destruct (Tool.sound_overlap x); rsimpl; injection H as <- <-; rsimpl;
      repeat split; try done; rewrite Es; discriminate.
  - destruct (String.eqb_spec (Tool.sound_order x) "random") as [Er|Er].
    + left. apply bind_ok_inv in H as ([x1 o] & E1 & H).
      apply bind_ok_inv in E1 as (ws & Ew & E1).
      apply bind_ok_inv in E1 as (w & Ec & E1). injection E1 as <- <-.
      unfold getattr in Ew.
      destruct (Tool._sounds x) as [ws'|] eqn:Esnd; [|done].
      injection Ew as ->. apply random_choice_in in Ec.
      exists w, ws. split; [done|]. split; [exact Ec|].
      rsimpl. unfold Tool._stop_playbacks in H.
      destruct (Tool.sound_overlap x); rsimpl; injection H as <- <-; rsimpl;
        repeat split; done.
    + right. rsimpl. injection H as <- <-. done.
Qed.

(** X7. What [_play_sound] starts and tracks.  On a loaded tool with
    sounds it returns, and either it started one sound, taken from the
    loaded sounds, and tracks it last: after all the playbacks tracked
    before if [sound_overlap] is set, alone otherwise, every playback
    tracked before having been stopped; or the sound order is neither
    "selective" nor "random" and it changed nothing.  With the "random"
    order the sound index is left alone. *)
Theorem play_sound_tracks nw pk F x :
  tool_ready F x = true → Tool.sounds x ≠ [] →
  ∃ x' ev, Tool._play_sound nw pk x = Ok (x', ev) ∧
    ((∃ w ws,
        Tool._sounds x = Some ws ∧ In w ws ∧
        ev = (if Tool.sound_overlap x then []
              else map Stop (Tool._playbacks x)) ++ [Play w] ∧
        Tool._playbacks x'
        = (if Tool.sound_overlap x then Tool._playbacks x else [])
          ++ [{| playing_wave := w |}] ∧
        Tool._replay_timer x' = (nw + Tool.sound_replay x)%Q ∧
        (Tool.sound_order x = "random"%string →
         Tool._sound_selector x' = Tool._sound_selector x))
     ∨ (Tool.sound_order x ≠ "selective"%string ∧
        Tool.sound_order x ≠ "random"%string ∧ x' = x ∧ ev = [])).
Proof.
  intros Hr Hne.
  destruct (play_sound_ok nw pk F x Hr Hne) as (x' & ev & Hp & _).
  exists x', ev. split; [exact Hp|].
  exact (play_sound_inv nw pk x x' ev Hp).
Qed.

Lemma play_sound_tracks_witness :
  ∃ x' ev, Tool._play_sound (1000 # 1) 0 sample_tool = Ok (x', ev) ∧
    ((∃ w ws,
        Tool._sounds sample_tool = Some ws ∧ In w ws ∧
        ev = (if Tool.sound_overlap sample_tool then []
              else map Stop (Tool._playbacks sample_tool)) ++ [Play w] ∧
        Tool._playbacks x'
        = (if Tool.sound_overlap sample_tool
           then Tool._playbacks sample_tool else [])
          ++ [{| playing_wave := w |}] ∧
        Tool._replay_timer x'
        = ((1000 # 1) + Tool.sound_replay sample_tool)%Q ∧
        (Tool.sound_order sample_tool = "random"%string →
         Tool._sound_selector x' = Tool._sound_selector sample_tool))
     ∨ (Tool.sound_order sample_tool ≠ "selective"%string ∧
        Tool.sound_order sample_tool ≠ "random"%string ∧
        x' = sample_tool ∧ ev = [])).
Proof.
  apply (play_sound_tracks (1000 # 1) 0 240 sample_tool).
  - vm_compute. reflexivity.
  - vm_compute. discriminate.
Defined.

Lemma still_playing_sublist ip i ps :
  sublist (Tool.still_playing ip i ps) ps.
Proof.
  revert i. induction ps as [|p ps IH]; intros i; simpl; [constructor|].
  destruct (ip i); [apply sublist_skip|apply sublist_cons]; apply IH.
Qed.

Lemma play_sound_single nw pk x x' ev :
  Tool._play_sound nw pk x = Ok (x', ev) →
  Tool.sound_overlap x = false → length (Tool._playbacks x) ≤ 1 →
  length (Tool._playbacks x') ≤ 1 ∧ Tool.sound_overlap x' = false.
Proof.
  intros H.
  assert (Ho' : Tool.sound_overlap x' = Tool.sound_overlap x).
  { assert (H' := H). unfold Tool._play_sound in H'.
    inv_ok; rsimpl; congruence. }
  intros Ho Hl. split; [|congruence].
  destruct (play_sound_inv _ _ _ _ _ H)
    as [(w & ws & _ & _ & _ & Hpb & _)|(_ & _ & -> & _)]; [|done].
  rewrite Hpb, Ho. simpl. lia.
Qed.

(** X8. A tool whose sounds must not overlap never tracks more than
    one playback: [trigger] and [loop] keep the tracked playbacks at
    one at most ([_manage_playbacks] only drops playbacks, keeping the
    order of the others), and [reset] leaves none, having stopped each
    one. *)
Theorem single_playback nw pk ip x hw :
  Tool.sound_overlap x = false → length (Tool._playbacks x) ≤ 1 →
  (∀ x' hw' ev, Tool.trigger nw pk ip x hw = Ok (x', hw', ev) →
     length (Tool._playbacks x') ≤ 1 ∧ Tool.sound_overlap x' = false) ∧
  (∀ x' hw' ev, Tool.loop nw pk ip x hw = Ok (x', hw', ev) →
     length (Tool._playbacks x') ≤ 1 ∧ Tool.sound_overlap x' = false) ∧
  sublist (Tool._playbacks (Tool._manage_playbacks ip x)) (Tool._playbacks x) ∧
  Tool.reset nw x = ((Tool.reset nw x).1, map Stop (Tool._playbacks x)) ∧
  Tool._playbacks (Tool.reset nw x).1 = [] ∧
  Tool.sound_overlap (Tool.reset nw x).1 = false.
Proof.
  intros Ho Hl. split; [|split; [|split; [|split; [|split]]]].
  - intros x' hw' ev H. unfold Tool.trigger in H.
    apply bind_ok_inv in H as (x1 & E1 & H).
    assert (H1 : Tool.sound_overlap x1 = false
                 ∧ Tool._playbacks x1 = Tool._playbacks x).
    { destruct (Tool.descriptions x); [now injection E1 as <-|].
      apply bind_ok_inv in E1 as (i & _ & E1). rsimpl.
      apply bind_ok_inv in E1 as (d & _ & E1). now injection E1 as <-. }
    destruct H1 as [Ho1 Hp1].
    apply bind_ok_inv in H as ([x2 ev1] & E2 & H).
    assert (H2 : length (Tool._playbacks x2) ≤ 1
                 ∧ Tool.sound_overlap x2 = false).
    { destruct (Tool.sounds x1).
      - injection E2 as <- <-. split; [congruence|done].
      - apply (play_sound_single _ _ _ _ _ E2 Ho1). congruence. }
    destruct (if Tool.light_up _ then _ else _) as [hw1 ev2] in H.
    destruct (if Tool.motor_spin _ then _ else _) as [hw2 ev3] in H.
    injection H as <- <- <-. split; [|apply H2].
    pose proof (sublist_length _ _
      (still_playing_sublist ip 0 (Tool._playbacks x2))) as Hs.
    unfold Tool._manage_playbacks. rsimpl. lia.
  - intros x' hw' ev H. unfold Tool.loop in H.
    apply bind_ok_inv in H as ([x2 ev1] & E2 & H).
    assert (H2 : length (Tool._playbacks x2) ≤ 1
                 ∧ Tool.sound_overlap x2 = false).
    { destruct (_ && _).
      - apply (play_sound_single _ _ _ _ _ E2 Ho Hl).
      - injection E2 as <- <-. done. }
    destruct (if Tool.light_up _ then _ else _) as [hw1 ev2] in H.
    destruct (if Tool.motor_spin _ then _ else _) as [hw2 ev3] in H.
    injection H as <- <- <-. split; [|apply H2].
    pose proof (sublist_length _ _
      (still_playing_sublist ip 0 (Tool._playbacks x2))) as Hs.
    unfold Tool._manage_playbacks. rsimpl. lia.
  - apply still_playing_sublist.
  - unfold Tool.reset. rsimpl. now destruct (Tool.descriptions x).
  - unfold Tool.reset. rsimpl. now destruct (Tool.descriptions x).
  - unfold Tool.reset. rsimpl. now destruct (Tool.descriptions x).
Qed.

Lemma single_playback_witness :
  Tool.sound_overlap sample_tool = false ∧
  Tool._playbacks (Tool.reset (1000 # 1) sample_tool).1 = [].
Proof.
  assert (Ho : Tool.sound_overlap sample_tool = false)
    by (vm_compute; reflexivity).
  split; [exact Ho|].
  destruct (single_playback (1000 # 1) 0 (λ _, true) sample_tool
              (App.hardware sample_app) Ho) as (_ & _ & _ & _ & H & _).
  - vm_compute. lia.
  - exact H.
Defined.

(** X9. The replay of a held tool.  [loop] starts no sound when
    [sound_replay] is 0, when [now] is not past the replay timer, or
    when the tool has no sound; otherwise it calls [_play_sound], which
    for a known sound order starts one sound and sets the replay timer
    to [now + sound_replay].  In every case the light and the motor are
    pulsed again as the tool's flags say. *)
Theorem loop_replay nw pk ip x hw x' hw' ev :
  Tool.loop nw pk ip x hw = Ok (x', hw', ev) →
  ((Tool.sound_replay x == 0)%Q ∨ (nw <= Tool._replay_timer x)%Q
   ∨ Tool.sounds x = [] →
   Forall (λ e, is_play e = false) ev ∧
   Tool._replay_timer x' = Tool._replay_timer x) ∧
  (¬ (Tool.sound_replay x == 0)%Q → (Tool._replay_timer x < nw)%Q →
   Tool.sounds x ≠ [] →
   Tool.sound_order x = "selective"%string
   ∨ Tool.sound_order x = "random"%string →
   (∃ w, In (Play w) ev) ∧
   Tool._replay_timer x' = (nw + Tool.sound_replay x)%Q) ∧
  (In (SetLed true) ev ↔ Tool.light_up x = true) ∧
  (In (SetMotor true) ev ↔ Tool.motor_spin x = true).
Proof.
  unfold Tool.loop. intros H.
  apply bind_ok_inv in H as ([x2 ev1] & E2 & H).
  assert (Hfl : Tool.light_up x2 = Tool.light_up x
                ∧ Tool.motor_spin x2 = Tool.motor_spin x).
  { destruct (_ && _).
    - apply play_sound_frozen in E2. now apply frozen_pulses.
    - now injection E2 as <- <-. }
  destruct Hfl as [Hfl Hfm].
  assert (Hpulse : ∃ ev2, ev = ev1 ++ ev2 ∧
            Forall (λ e, is_play e = false) ev2 ∧
            (In (SetLed true) ev2 ↔ Tool.light_up x = true) ∧
            (In (SetMotor true) ev2 ↔ Tool.motor_spin x = true) ∧
            Tool._replay_timer x' = Tool._replay_timer x2).
  { rewrite <- Hfl, <- Hfm.
    destruct (Tool.light_up x2), (Tool.motor_spin x2); rsimpl;
      injection H as <- <- <-; eexists; (split; [reflexivity|]);
      (split; [repeat constructor|]); simpl; intuition congruence. }
  destruct Hpulse as (ev2 & -> & Hq2 & Hled & Hmot & Ht).
  assert (Hnp1 : ∀ e, In e ev1 → e = SetLed true ∨ e = SetMotor true → False).
  { intros e He Hor. destruct (_ && _).
    - destruct (play_sound_inv _ _ _ _ _ E2)
        as [(w & ws & _ & _ & -> & _)|(_ & _ & _ & ->)]; [|done].
      apply in_app_iff in He as [He|[<-|[]]].
      + destruct (Tool.sound_overlap x); [done|].
        apply in_map_iff in He as (p & <- & _). now destruct Hor.
      + now destruct Hor.
    - injection E2 as <- <-. done. }
  split; [|split; [|split]].
  - intros Hcase.
    assert (Ec : negb (Qeq_bool (Tool.sound_replay x) 0)
                 && Qgtb nw (Tool._replay_timer x)
                 && bool_decide (Tool.sounds x ≠ []) = false).
    { destruct Hcase as [Hz|[Hle|He]].
      - apply Qeq_bool_iff in Hz. now rewrite Hz.
      - apply Qgtb_le in Hle. now rewrite Hle, andb_false_r.
      - rewrite (bool_decide_eq_false_2 (Tool.sounds x ≠ [])); [|auto].
        now rewrite andb_false_r. }
    rewrite Ec in E2. injection E2 as <- <-. split; [exact Hq2|exact Ht].
  - intros Hnz Hlt Hne Hord.
    assert (Ec : negb (Qeq_bool (Tool.sound_replay x) 0)
                 && Qgtb nw (Tool._replay_timer x)
                 && bool_decide (Tool.sounds x ≠ []) = true).
    { apply Qgtb_lt in Hlt. rewrite Hlt, (bool_decide_eq_true_2 _ Hne).
      destruct (Qeq_bool (Tool.sound_replay x) 0) eqn:Ez; [|done].
      apply Qeq_bool_iff in Ez. done. }
    rewrite Ec in E2.
    destruct (play_sound_inv _ _ _ _ _ E2)
      as [(w & ws & _ & _ & -> & _ & Hrt & _)|(N1 & N2 & _)].
    + split; [|congruence]. exists w. rewrite !in_app_iff. simpl. auto.
    + destruct Hord; done.
  - rewrite in_app_iff, <- Hled. split; [|auto].
    intros [He|He]; [|done]. exfalso. eapply Hnp1; eauto.
  - rewrite in_app_iff, <- Hmot. split; [|auto].
    intros [He|He]; [|done]. exfalso. eapply Hnp1; eauto.
Qed.

Lemma loop_replay_witness :
  ∃ x' hw' ev,
    Tool.loop (1004 # 1) 0 (λ _, true) sample_tool (App.hardware sample_app)
      = Ok (x', hw', ev) ∧
    Tool._replay_timer x' = ((1004 # 1) + (3 # 1))%Q.
Proof.
  destruct (loop_ok (1004 # 1) 0 (λ _, true) 240 sample_tool
              (App.hardware sample_app)) as (x' & hw' & ev & Hl & _).
  { vm_compute. reflexivity. }
  exists x', hw', ev. split; [exact Hl|].
  destruct (loop_replay _ _ _ _ _ _ _ _ Hl) as (_ & H & _).
  replace (Tool.sound_replay sample_tool) with (3 # 1)%Q in H
    by (vm_compute; reflexivity).
  apply H.
  - vm_compute. discriminate.
  - vm_compute. reflexivity.
  - vm_compute. discriminate.
  - left. vm_compute. reflexivity.
Defined.

(** ** The light and the motor *)



(** ** The events of a tick *)

Lemma play_sound_toolish nw pk x x' ev :
  Tool._play_sound nw pk x = Ok (x', ev) → Forall (λ e, toolish e = true) ev.
Proof.
  intros H.
  destruct (play_sound_inv _ _ _ _ _ H)
    as [(w & ws & _ & _ & -> & _)|(_ & _ & _ & ->)]; [|constructor].
  apply Forall_app_2; [|repeat constructor].
  destruct (Tool.sound_overlap x); [constructor|].
  apply Forall_fmap, Forall_true. now intros p.
Qed.

Lemma trigger_toolish nw pk ip x hw x' hw' ev :
  Tool.trigger nw pk ip x hw = Ok (x', hw', ev) →
  Forall (λ e, toolish e = true) ev.
Proof.
  unfold Tool.trigger. intros H.
  apply bind_ok_inv in H as (x1 & _ & H).
  apply bind_ok_inv in H as ([x2 ev1] & E2 & H).
  assert (H1 : Forall (λ e, toolish e = true) ev1).
  { destruct (Tool.sounds x1); [injection E2 as <- <-; constructor|].
    now apply play_sound_toolish in E2. }
  destruct (Tool.light_up _), (Tool.motor_spin _); rsimpl;
    injection H as <- <- <-; repeat (apply Forall_app_2); try done;
    repeat constructor.
Qed.

Lemma loop_toolish nw pk ip x hw x' hw' ev :
  Tool.loop nw pk ip x hw = Ok (x', hw', ev) →
  Forall (λ e, toolish e = true) ev.
Proof.
  unfold Tool.loop. intros H.
  apply bind_ok_inv in H as ([x2 ev1] & E2 & H).
  assert (H1 : Forall (λ e, toolish e = true) ev1).
  { destruct (_ && _); [|injection E2 as <- <-; constructor].
    now apply play_sound_toolish in E2. }
  destruct (Tool.light_up _), (Tool.motor_spin _); rsimpl;
    injection H as <- <- <-; repeat (apply Forall_app_2); try done;
    repeat constructor.
Qed.

Lemma reset_toolish nw x : Forall (λ e, toolish e = true) (Tool.reset nw x).2.
Proof.
  unfold Tool.reset. simpl. apply Forall_fmap, Forall_true. now intros p.
Qed.

Lemma render_pastes nw scr x x' ev :
  Tool.render nw scr x = Ok (x', ev) →
  Forall (λ e, is_paste e = true) ev ∧ ev ≠ [].
Proof.
  unfold Tool.render. intros H.
  destruct (negb _); [done|].
  apply bind_ok_inv in H as (bg & _ & H).
  apply bind_ok_inv in H as (c & _ & H).
  apply bind_ok_inv in H as (m & _ & H).
  apply bind_ok_inv in H as ([x1 src] & _ & H). injection H as <- <-.
  split; [|done].
  repeat (apply Forall_cons_2; [reflexivity|]). apply Forall_app_2.
  - destruct (_ >? _)%Z; repeat constructor.
  - destruct (Tool._description x1); repeat constructor.
Qed.

Lemma next_tool_events nw a a' ev :
  App.next_tool nw a = Ok (a', ev) →
  ∃ et, ev = Mark "next_tool" :: et ∧ Forall (λ e, toolish e = true) et ∧
    In (Play (App._next_item_sound a)) et ∧
    App.screen a' = App.screen a ∧ App._sleep_mode a' = App._sleep_mode a ∧
    App._sleep_timer a' = App._sleep_timer a.
Proof.
  unfold App.next_tool. intros H.
  apply bind_ok_inv in H as (x & _ & H).
  pose proof (reset_toolish nw x) as Tx.
  destruct (Tool.reset nw x) as [x1 e1]. rsimpl.
  apply bind_ok_inv in H as (i & _ & H). rsimpl.
  apply bind_ok_inv in H as (y & _ & H).
  pose proof (reset_toolish nw y) as Ty.
  destruct (Tool.reset nw y) as [y1 e2]. rsimpl. injection H as <- <-.
  eexists. split; [reflexivity|]. rsimpl. split; [|split; [|done]].
  - repeat (apply Forall_app_2); try done. repeat constructor.
  - rewrite !in_app_iff. simpl. auto.
Qed.

Lemma update_edge_shape k down a a2 e2 :
  App.update_edge k down a = Ok (a2, e2) →
  ∃ et, Forall (λ e, toolish e = true) et ∧
    e2 = et ++ (if App._sleep_mode a
                then backlight a 100 ++ [SetSleep false] else []) ∧
    App.screen a2 = (if App._sleep_mode a
                     then Screen.with_sleep false (App.screen a)
                     else App.screen a) ∧
    App._sleep_mode a2 = false ∧
    (down = false →
     et = (if App._was_changing_tool a
           then [Play (App._equip_item_sound a)] else [])
     ∧ App._was_changing_tool a2 = false).
Proof.
  unfold App.update_edge. intros H.
  apply bind_ok_inv in H as ([a1 ev1] & E1 & H). rsimpl.
  assert (H1 : Forall (λ e, toolish e = true) ev1 ∧
               App.screen a1 = App.screen a ∧
               App._sleep_mode a1 = App._sleep_mode a ∧
               (down = false →
                ev1 = (if App._was_changing_tool a
                       then [Play (App._equip_item_sound a)] else [])
                ∧ App._was_changing_tool a1 = false)).
  { destruct down; rsimpl.
    - apply bind_ok_inv in E1 as (x & _ & E1).
      apply bind_ok_inv in E1 as ([[x1 hw] ev] & Et & E1).
      injection E1 as <- <-. apply trigger_toolish in Et. done.
    - destruct (App._was_changing_tool a) eqn:Ew; injection E1 as <- <-;
        rsimpl; repeat split; try done; repeat constructor. }
  destruct H1 as (Ht & Es & Em & Hd). rewrite Em in H. unfold backlight.
  destruct (App._sleep_mode a); rsimpl; injection H as <- <-; rsimpl;
    exists ev1; rewrite ?Es, ?app_nil_r; repeat split; try done;
    try apply Hd; try done.
  all: destruct (Screen._is_simulated (App.screen a)); done.
Qed.

Lemma update_trigger_shape k a a2 e2 :
  App.update_trigger k a = Ok (a2, e2) →
  ∃ et es, Forall (λ e, toolish e = true) et ∧ switch_events a es ∧
    (edge k a = true → es = []) ∧
    e2 = et ++ es ++ waking k a ∧
    App.screen a2 = (if edge k a && App._sleep_mode a
                     then Screen.with_sleep false (App.screen a)
                     else App.screen a) ∧
    App._sleep_mode a2 = (if edge k a then false else App._sleep_mode a) ∧
    (edge k a = true → trigger_down k a = false →
     et = (if App._was_changing_tool a
           then [Play (App._equip_item_sound a)] else [])
     ∧ App._was_changing_tool a2 = false).
Proof.
  unfold App.update_trigger, waking, edge. fold (trigger_down k a).
  destruct (negb (eqb (trigger_down k a) (App._button_change a))) eqn:Ee.
  { intros H. apply update_edge_shape in H as (et & Ht & -> & Es & Em & Hd).
    exists et, []. rsimpl. repeat split; try done; try (now left); now apply Hd. }
  assert (Hn : ∀ b a3 e3, App.next_tool (now k)
              (App.with_trigger_hold b a) = Ok (a3, e3) →
            switch_events a e3 ∧ App.screen a3 = App.screen a ∧
            App._sleep_mode a3 = App._sleep_mode a).
  { intros b a3 e3 H.
    apply next_tool_events in H as (et & -> & Ht & Hi & Es & Em & _).
    split; [right; by exists et|done]. }
  rsimpl. destruct (trigger_down k a).
  2: { intros [= <- <-]. exists [], []. repeat split; try done. now left. }
  intros H. apply bind_ok_inv in H as (x & _ & H).
  destruct (Tool.hold x && negb (App._was_changing_tool a)).
  - unfold App.update_hold in H.
    apply bind_ok_inv in H as ([[x1 hw] ev1] & El & H).
    apply loop_toolish in El. rsimpl.
    apply bind_ok_inv in H as (last & _ & H).
    destruct (Qltb _ _).
    + apply bind_ok_inv in H as (held & _ & H).
      destruct (Qgtb _ _).
      * apply bind_ok_inv in H as ([a3 e3] & En & H). injection H as <- <-.
        apply next_tool_events in En as (et & -> & Ht & Hi & Es & Em & _).
        exists ev1, (Mark "next_tool" :: et). rewrite app_nil_r.
        repeat split; try done. right. by exists et.
      * injection H as <- <-. exists ev1, []. rewrite !app_nil_r.
        repeat split; try done. now left.
    + injection H as <- <-. exists ev1, []. rewrite !app_nil_r.
      repeat split; try done. now left.
  - destruct (App._trigger_hold a) as [held|].
    + destruct (Qgtb _ _).
      * apply Hn in H as (Hs & Es & Em). exists [], e2. rewrite app_nil_r.
        repeat split; try done.
      * injection H as <- <-. exists [], []. repeat split; try done. now left.
    + injection H as <- <-. exists [], []. repeat split; try done. now left.
Qed.

Lemma hardware_update_upkeep nw hw :
  Forall (λ e, is_upkeep e = true) (GPHardware.update nw hw).2.
Proof.
  unfold GPHardware.update.
  destruct (GPHardware._motor_spin_end hw) as [e1|];
    [destruct (Qgtb nw e1)|];
    rsimpl;
    (destruct (GPHardware._led_flash_end hw) as [e2|];
      [destruct (Qgtb nw e2)|]);
    rsimpl; destruct (GPHardware._simulated hw); repeat constructor.
Qed.

Lemma update_render_shape k a a1 e1 :
  App.update_render k a = Ok (a1, e1) →
  Forall (λ e, is_paste e = true) e1 ∧
  (e1 = [] ↔ App._sleep_mode a = true).
Proof.
  unfold App.update_render. destruct (App._sleep_mode a).
  { intros [= <- <-]. done. }
  intros H. apply bind_ok_inv in H as (x & _ & H).
  apply bind_ok_inv in H as ([x1 ev] & Er & H). injection H as <- <-.
  apply render_pastes in Er as [Hp Hn]. split; [done|]. split; done.
Qed.

Lemma update_events k a :
  app_ready a = true →
  ∃ a' e1 et es e4,
    App.update k a
    = Ok (a', e1 ++ (et ++ es ++ waking k a) ++ dimming k a ++ e4
              ++ Screen.update false (App.screen a')) ∧
    app_ready a' = true ∧ control a' = after_update k a ∧
    App.screen a' = screen_after k a ∧
    Forall (λ e, is_paste e = true) e1 ∧
    (e1 = [] ↔ App._sleep_mode a = true) ∧
    Forall (λ e, toolish e = true) et ∧
    switch_events a es ∧ (es = [] ↔ switch_due k a = false) ∧
    Forall (λ e, is_upkeep e = true) e4 ∧
    (edge k a = true → trigger_down k a = false →
     et = (if App._was_changing_tool a
           then [Play (App._equip_item_sound a)] else [])).
Proof.
  intros H. destruct (update_ok k a H) as (a' & ev & E0 & Hr' & _ & Hc' & _).
  pose proof E0 as E. unfold App.update in E.
  destruct (update_render_ok k a H)
    as (a1 & e1 & E1 & Hs1 & Hc1 & Hh1 & Hscr1 & _).
  rewrite E1 in E. rsimpl.
  pose proof (update_render_shape _ _ _ _ E1) as (Hp1 & Hn1).
  assert (H1 : app_ready a1 = true).
  { pose proof (app_ready_inv _ H) as (Hcur & _ & Hl & Hb).
    pose proof (control_inv _ _ Hc1) as (Eb & Ecur & Eh & _ & El & _).
    apply (ready_steady a); try done.
    - now rewrite Ecur.
    - destruct Hl as [l Hl]. rewrite El, Hl. done.
    - rewrite Eb, Eh. intros E'. destruct (Hb E') as [h ->]. done. }
  destruct (summary_steady k _ _ Hs1 Hc1) as (He & Hsd & Hat).
  pose proof (control_inv _ _ Hc1) as (_ & _ & _ & Ew1 & _ & Em1 & _).
  destruct (update_trigger_ok k a1 H1) as (a2 & e2 & E2 & Hs2 & Hc2 & Hsw & _).
  rewrite E2 in E. rsimpl. rewrite Hat in Hc2. rewrite Hsd in Hsw.
  apply update_trigger_shape in E2
    as (et & es & Ht & Hes & Hee & -> & Escr2 & Em2 & Hrel).
  assert (Ew : waking k a1 = waking k a)
    by (unfold waking, backlight; now rewrite He, Em1, Hscr1).
  assert (Hsd3 : sleep_due k a =
     Qgtb (now k) (App._sleep_timer a2) && negb (App._sleep_mode a2))
    by (unfold sleep_due; rewrite <- Hc2; reflexivity).
  assert (En : App._next_item_sound a1 = App._next_item_sound a ∧
               App._equip_item_sound a1 = App._equip_item_sound a).
  { clear -E1. unfold App.update_render in E1.
    destruct (App._sleep_mode a); [by injection E1 as <-|].
    apply bind_ok_inv in E1 as (x & _ & E1).
    apply bind_ok_inv in E1 as ([x1 ev'] & _ & E1). by injection E1 as <-. }
  destruct En as [En Eq].
  assert (Hes' : switch_events a es).
  { destruct Hes as [->|(et' & -> & ? & Hi)]; [now left|right].
    exists et'. repeat split; try done.
    now rewrite <- En. }
  assert (Hsw' : es = [] ↔ switch_due k a = false).
  { rewrite !switches_app in Hsw.
    assert (Z1 : switches et = 0).
    { clear -Ht. induction Ht as [|e l He _ IH]; [done|].
      destruct e; try done. }
    assert (Z2 : switches (waking k a1) = 0).
    { unfold waking, backlight.
      destruct (_ && _); [|done].
      destruct (Screen._is_simulated _); done. }
    rewrite Z1, Z2 in Hsw. destruct Hes as [->|(et' & -> & Ht' & _)].
    - destruct (switch_due k a); [done|]. done.
    - assert (Z3 : switches (Mark "next_tool" :: et') = S (switches et')) by done.
      rewrite Z3 in Hsw. destruct (switch_due k a); [|done]. done. }
  unfold App.update_sleep, Screen.set_sleep in E. rewrite <- Hsd3 in E.
  assert (Ed : dimming k a =
    if sleep_due k a then
      (if negb (Screen._is_simulated (App.screen a2)) then [BlDutyCycle 0]
       else []) ++ [SetSleep true] else []).
  { unfold dimming, backlight. destruct (sleep_due k a); [|done].
    rewrite Escr2, Hscr1.
    destruct (_ && _); rsimpl;
      destruct (Screen._is_simulated (App.screen a)); done. }
  assert (Escr : (if sleep_due k a then Screen.with_sleep true (App.screen a2)
                  else App.screen a2) = screen_after k a).
  { unfold screen_after. rewrite Escr2, He, Em1, Hscr1. done. }
  pose proof (hardware_update_upkeep (now k)
    (App.hardware (if sleep_due k a
       then App.with_screen (Screen.with_sleep true (App.screen a2))
              (App.with_sleep_mode true a2) else a2))) as Hup.
  destruct (sleep_due k a) eqn:Esd; rsimpl.
  all: destruct (GPHardware.update _ _) as [hw e4] eqn:Eh; rsimpl.
  all: injection E as Ea Eev; exists a', e1, et, es, e4.
  all: split; [rewrite E0, <- Eev, <- Ea, <- Ew, Ed; reflexivity|].
  all: split; [done|]; split; [done|].
  all: split; [rewrite <- Ea, <- Escr; reflexivity|].
  all: repeat split; try done; try apply Hn1; try apply Hsw'.
  all: intros X1 X2; rewrite <- He in X1; rewrite <- Ew1, <- Eq;
    apply Hrel; try done.
  all: clear -X2 Hh1; unfold trigger_down in *; now rewrite Hh1.
Qed.

Lemma filter_none {A} (f g : A → bool) l :
  (∀ x, g x = true → f x = false) → Forall (λ x, g x = true) l →
  List.filter f l = [].
Proof.
  intros Hfg. induction 1 as [|x l Hx _ IH]; [done|].
  simpl. now rewrite (Hfg x Hx).
Qed.

Lemma screen_update_filter f scr b :
  f TkUpdate = false →
  List.filter f (Screen.update b scr)
  = if negb (Screen._thread scr && negb b) && negb (Screen._is_simulated scr)
       && negb (Screen._sleep scr)
    then List.filter f
           [ShowImage (screen_flip_horizontal (Screen._config scr))
                      (screen_flip_vertical (Screen._config scr))]
    else [].
Proof.
  intros Hf. unfold Screen.update.
  destruct (Screen._thread scr && negb b); [done|].
  destruct (Screen._is_simulated scr); [simpl; now rewrite Hf|].
  destruct (Screen._sleep scr); done.
Qed.

Lemma switch_events_filter f a es :
  f (Mark "next_tool") = false → (∀ e, toolish e = true → f e = false) →
  switch_events a es → List.filter f es = [].
Proof.
  intros Hm Hf [->|(et & -> & Ht & _)]; [done|].
  simpl. rewrite Hm. eapply filter_none; eauto.
Qed.

Lemma waking_filter f k a :
  (∀ e, is_power e = true → f e = false) → List.filter f (waking k a) = [].
Proof.
  intros Hf. apply (filter_none _ is_power); [done|].
  unfold waking, backlight. destruct (_ && _); [|constructor].
  destruct (Screen._is_simulated _); repeat constructor.
Qed.

Lemma dimming_filter f k a :
  (∀ e, is_power e = true → f e = false) → List.filter f (dimming k a) = [].
Proof.
  intros Hf. apply (filter_none _ is_power); [done|].
  unfold dimming, backlight. destruct (sleep_due k a); [|constructor].
  destruct (Screen._is_simulated _); repeat constructor.
Qed.

Lemma filter_all {A} (f : A → bool) l :
  Forall (λ x, f x = true) l → List.filter f l = l.
Proof. induction 1 as [|x l Hx _ IH]; [done|]. simpl. now rewrite Hx, IH. Qed.

(** X11. The commands that a tick sends to the display's power.  A tick
    of a ready application sends, in this order, the wake-up commands
    when the trigger changed while the display slept (backlight to 100
    on a real screen, then sleep off), and the sleep commands when the
    sleep deadline has passed (backlight to 0 on a real screen, then
    sleep on); it sends no other backlight or sleep command. *)
Theorem display_power_commands k a :
  app_ready a = true →
  ∃ a' ev, App.update k a = Ok (a', ev) ∧
    List.filter is_power ev = waking k a ++ dimming k a.
Proof.
  intros H.
  destruct (update_events k a H)
    as (a' & e1 & et & es & e4 & E & _ & _ & _ & H1 & _ & Ht & Hes & _ & H4 & _).
  eexists _, _. split; [exact E|].
  rewrite !List.filter_app.
  rewrite (filter_none is_power is_paste e1); [|by intros []|done].
  rewrite (filter_none is_power toolish et); [|by intros []|done].
  rewrite (switch_events_filter is_power a es); [|done|by intros []|done].
  rewrite (filter_none is_power is_upkeep e4); [|by intros []|done].
  rewrite screen_update_filter by done.
  assert (Hw : List.filter is_power (waking k a) = waking k a).
  { apply filter_all. unfold waking, backlight. destruct (_ && _); [|constructor].
    destruct (Screen._is_simulated _); repeat constructor. }
  assert (Hd : List.filter is_power (dimming k a) = dimming k a).
  { apply filter_all. unfold dimming, backlight.
    destruct (sleep_due k a); [|constructor].
    destruct (Screen._is_simulated _); repeat constructor. }
  rewrite Hw, Hd. simpl. destruct (_ && _); simpl; now rewrite ?app_nil_r.
Qed.

Lemma display_power_commands_witness :
  ∃ a' ev, App.update (tick 1 false) sample_app = Ok (a', ev) ∧
    List.filter is_power ev
    = waking (tick 1 false) sample_app ++ dimming (tick 1 false) sample_app.
Proof.
  apply (display_power_commands (tick 1 false) sample_app).
  vm_compute. reflexivity.
Defined.

Lemma existsb_filter {A} (f : A → bool) l :
  existsb f l = negb (length (List.filter f l) =? 0).
Proof.
  induction l as [|x l IH]; [done|]. simpl. destruct (f x); [done|exact IH].
Qed.

(** X12. Drawing and the sleep mode.  As long as the screen's sleep flag
    agrees with the application's sleep mode, a tick keeps them in
    agreement; it pastes onto the image exactly when the application
    was awake at its start, and it sends the image to the panel exactly
    when the screen is a real one, no refresh thread runs and the
    application is awake at its end. *)
Theorem sleep_stops_drawing k a :
  app_ready a = true → sleep_synced a →
  ∃ a' ev, App.update k a = Ok (a', ev) ∧ sleep_synced a' ∧
    existsb is_paste ev = negb (App._sleep_mode a) ∧
    existsb is_show ev
    = negb (Screen._thread (App.screen a))
      && negb (Screen._is_simulated (App.screen a))
      && negb (App._sleep_mode a').
Proof.
  intros H Hs.
  destruct (update_events k a H)
    as (a' & e1 & et & es & e4 & E & _ & Hc & Escr & H1 & Hn1 & Ht & Hes & _
        & H4 & _).
  eexists _, _. split; [exact E|].
  assert (Hs' : sleep_synced a').
  { unfold sleep_synced in *. rewrite Escr.
    unfold after_update, after_trigger in Hc. unfold screen_after, sleep_due.
    unfold after_trigger.
    destruct (edge k a) eqn:Ee.
    - cbn [andb] in *. injection Hc as _ _ _ _ _ -> _. cbn [orb].
      unfold sleep_due, after_trigger. rewrite Ee.
      destruct (Qgtb _ _ && negb false); destruct (App._sleep_mode a); rsimpl;
        done.
    - destruct (switch_due k a) eqn:Esw.
      + injection Hc as _ _ _ _ _ -> _. unfold sleep_due, after_trigger.
        rewrite Ee, Esw. cbn [andb].
        destruct (Qgtb _ _ && negb _); rsimpl; rewrite ?orb_true_r, ?orb_false_r;
          done.
      + unfold control in Hc. injection Hc as _ _ _ _ _ -> _.
        unfold sleep_due, after_trigger, control.
        rewrite Ee, Esw. cbn [andb].
        destruct (Qgtb _ _ && negb _); rsimpl; rewrite ?orb_true_r, ?orb_false_r;
          done. }
  split; [exact Hs'|]. rewrite !existsb_filter, !List.filter_app. split.
  - rewrite (filter_all is_paste e1) by done.
    rewrite (filter_none is_paste toolish et); [|by intros []|done].
    rewrite (switch_events_filter is_paste a es); [|done|by intros []|done].
    rewrite waking_filter by (by intros []).
    rewrite dimming_filter by (by intros []).
    rewrite (filter_none is_paste is_upkeep e4); [|by intros [| | [] | [] | | | | | |]|done].
    rewrite screen_update_filter by done. simpl.
    assert (Z : ∀ b : bool, (if b then [] else []) = ([] : list Event))
      by (by intros []).
    rewrite Z, app_nil_r.
    destruct (App._sleep_mode a) eqn:Em.
    + now rewrite (proj2 Hn1 eq_refl).
    + destruct e1; [|done]. by pose proof (proj1 Hn1 eq_refl).
  - rewrite (filter_none is_show is_paste e1); [|by intros []|done].
    rewrite (filter_none is_show toolish et); [|by intros []|done].
    rewrite (switch_events_filter is_show a es); [|done|by intros []|done].
    rewrite waking_filter by (by intros []).
    rewrite dimming_filter by (by intros []).
    rewrite (filter_none is_show is_upkeep e4); [|by intros []|done].
    rewrite screen_update_filter by done. simpl.
    rewrite <- Hs'. rewrite Escr. unfold screen_after.
    destruct (sleep_due k a), (edge k a && App._sleep_mode a); rsimpl;
      destruct (Screen._thread (App.screen a)),
        (Screen._is_simulated (App.screen a)), (Screen._sleep (App.screen a));
      done.
Qed.

Lemma sleep_stops_drawing_witness :
  ∃ a' ev, App.update (tick 1 false) sample_app = Ok (a', ev) ∧
    sleep_synced a' ∧
    existsb is_paste ev = negb (App._sleep_mode sample_app) ∧
    existsb is_show ev
    = negb (Screen._thread (App.screen sample_app))
      && negb (Screen._is_simulated (App.screen sample_app))
      && negb (App._sleep_mode a').
Proof.
  apply (sleep_stops_drawing (tick 1 false) sample_app).
  - vm_compute. reflexivity.
  - vm_compute. reflexivity.
Defined.

(** The screen's sleep flag and the sleep mode agree at start-up. *)
Lemma init_synced cfg sim fnt arial t a :
  App.init cfg sim fnt arial t = Ok a → sleep_synced a.
Proof.
  unfold App.init. intros H. apply bind_ok_inv in H as (ts & _ & H).
  now injection H as <-.
Qed.

(** X13. The sound of a released trigger.  On the tick that sees the
    trigger released, the only sound started is the equip sound, and it
    is started exactly when the trigger had switched tools while it was
    held; the flag of that is cleared. *)
Theorem release_plays_equip k a :
  app_ready a = true → App._button_change a = true →
  trigger_down k a = false →
  ∃ a' ev, App.update k a = Ok (a', ev) ∧
    List.filter is_play ev
    = (if App._was_changing_tool a
       then [Play (App._equip_item_sound a)] else []) ∧
    App._was_changing_tool a' = false.
Proof.
  intros H Hb Hd.
  assert (Ee : edge k a = true) by (unfold edge; now rewrite Hd, Hb).
  assert (Esw : switch_due k a = false) by (unfold switch_due; now rewrite Ee).
  destruct (update_events k a H)
    as (a' & e1 & et & es & e4 & E & _ & Hc & _ & H1 & _ & _ & _ & Hes & H4
        & Hrel).
  eexists _, _. split; [exact E|].
  rewrite (proj2 Hes Esw), (Hrel Ee Hd). split.
  - rewrite !List.filter_app.
    rewrite (filter_none is_play is_paste e1); [|by intros []|done].
    rewrite waking_filter by (by intros []).
    rewrite dimming_filter by (by intros []).
    rewrite (filter_none is_play is_upkeep e4); [|by intros []|done].
    rewrite screen_update_filter by done. simpl.
    assert (Z : ∀ b : bool, (if b then [] else []) = ([] : list Event))
      by (by intros []).
    rewrite Z, !app_nil_r. now destruct (App._was_changing_tool a).
  - unfold after_update, after_trigger in Hc. rewrite Ee, Hd in Hc.
    unfold control in Hc. now injection Hc as _ _ _ -> _.
Qed.

Lemma release_plays_equip_witness :
  ∃ a' ev, App.update (tick (1003 # 1) false) switched_app = Ok (a', ev) ∧
    List.filter is_play ev = [Play "equip.wav"%string] ∧
    App._was_changing_tool a' = false.
Proof.
  apply (release_plays_equip (tick (1003 # 1) false) switched_app);
    vm_compute; reflexivity.
Defined.

(** X14. What [next_tool] resets.  With the active index in range,
    [next_tool] returns; the tools other than the outgoing and the
    incoming one are left as they were, and each of these two has its
    tracked playbacks stopped and is left fresh: description and sound
    selectors at 0, fade timer at the current time, no playback
    tracked.  The next-item sound is started last. *)
Theorem next_tool_resets nw a :
  App._current_tool a < length (App.tools a) →
  ∃ a' ev, App.next_tool nw a = Ok (a', ev) ∧
    App._current_tool a'
    = (App._current_tool a + 1) mod length (App.tools a) ∧
    (∀ n x, App.tools a !! n = Some x →
       ∃ x', App.tools a' !! n = Some x' ∧
         if bool_decide (n = App._current_tool a ∨ n = App._current_tool a')
         then fresh nw x' ∧ ∀ p, In p (Tool._playbacks x) → In (Stop p) ev
         else x' = x) ∧
    last ev = Some (Play (App._next_item_sound a)).
Proof.
  intros Hc. unfold App.next_tool.
  destruct (py_index_ok _ _ Hc) as (x & Hx & ->). rsimpl.
  assert (Rf : ∀ y, fresh nw (Tool.reset nw y).1 ∧
                    (Tool.reset nw y).2 = map Stop (Tool._playbacks y)).
  { intros y. unfold Tool.reset, fresh. simpl.
    destruct (Tool.descriptions y); done. }
  assert (Rr : ∀ y, Tool._playbacks (Tool.reset nw y).1 = [])
    by (intros y; apply Rf).
  pose proof (Rf x) as [Fx Ex].
  destruct (Tool.reset nw x) as [x1 e1] eqn:R1. rsimpl.
  rewrite length_insert.
  assert (Hpos : length (App.tools a) ≠ 0) by lia.
  rewrite (py_mod_nat_ok _ _ Hpos). rsimpl.
  set (i := App._current_tool a) in *.
  set (j := (i + 1) mod length (App.tools a)).
  assert (Hj : j < length (App.tools a)) by (apply Nat.mod_upper_bound; lia).
  assert (Hj' : j < length (<[i:=x1]> (App.tools a)))
    by now rewrite length_insert.
  destruct (py_index_ok _ _ Hj') as (y & Hy & ->). rsimpl.
  pose proof (Rf y) as [Fy Ey].
  destruct (Tool.reset nw y) as [y1 e2] eqn:R2. rsimpl.
  eexists _, _. split; [reflexivity|]. rsimpl. split; [reflexivity|]. split.
  - intros n z Hz. destruct (decide (n = j)) as [->|Nj].
    + exists y1. rewrite list_lookup_insert_eq by done. split; [done|].
      rewrite bool_decide_eq_true_2 by now right. split; [done|].
      intros p Hp. destruct (decide (i = j)) as [Eij|Nij].
      * rewrite <- Eij in Hz. rewrite Hx in Hz. injection Hz as <-.
        rewrite Ex. simpl. right. apply in_or_app. left. now apply in_map.
      * rewrite list_lookup_insert_ne in Hy by done. rewrite Hz in Hy.
        injection Hy as <-. rewrite Ey. simpl. right.
        apply in_or_app. right. apply in_or_app. left. now apply in_map.
    + rewrite list_lookup_insert_ne by done.
      destruct (decide (n = i)) as [->|Ni].
      * exists x1. rewrite list_lookup_insert_eq by done. split; [done|].
        rewrite bool_decide_eq_true_2 by now left. split; [done|].
        intros p Hp. rewrite Hx in Hz. injection Hz as <-.
        rewrite Ex. simpl. right. apply in_or_app. left. now apply in_map.
      * exists z. rewrite list_lookup_insert_ne by done. split; [done|].
        rewrite bool_decide_eq_false_2; [done|]. intros [?|?]; done.
  - change (Mark "next_tool" :: e1 ++ e2 ++ [Play (App._next_item_sound a)])
      with ([Mark "next_tool"] ++ e1 ++ e2 ++ [Play (App._next_item_sound a)]).
    rewrite !app_assoc. apply last_snoc.
Qed.

Lemma next_tool_resets_witness :
  ∃ a' ev, App.next_tool (1001 # 1) pressed_app = Ok (a', ev) ∧
    App._current_tool a'
    = (App._current_tool pressed_app + 1) mod length (App.tools pressed_app) ∧
    (∀ n x, App.tools pressed_app !! n = Some x →
       ∃ x', App.tools a' !! n = Some x' ∧
         if bool_decide (n = App._current_tool pressed_app
                         ∨ n = App._current_tool a')
         then fresh (1001 # 1) x' ∧
              ∀ p, In p (Tool._playbacks x) → In (Stop p) ev
         else x' = x) ∧
    last ev = Some (Play (App._next_item_sound pressed_app)).
Proof.
  apply (next_tool_resets (1001 # 1) pressed_app).
  assert (E : (App._current_tool pressed_app
               <? length (App.tools pressed_app)) = true)
    by (vm_compute; reflexivity).
  now apply Nat.ltb_lt in E.
Defined.

(** X15. Loading, unloading and loading again.  On a tool that
    [load_content] has loaded, a second [load_content] raises
    AssertionError; [unload_content] returns and leaves a tool that is
    not loaded, has no sound object and cannot be drawn; and
    [load_content] on that tool gives back the loaded tool. *)
Theorem unload_reload x0 x :
  Tool.load_content x0 = Ok x →
  Tool.load_content x = Raise AssertionError ∧
  ∃ x1, Tool.unload_content x = Ok x1 ∧ Tool.is_loaded x1 = false ∧
    Tool._sounds x1 = Some [] ∧
    (∀ nw scr, Tool.render nw scr x1 = Raise AssertionError) ∧
    Tool.load_content x1 = Ok x.
Proof.
  unfold Tool.load_content at 1. intros H.
  destruct (Tool._loaded x0) eqn:El; [done|].
  apply bind_ok_inv in H as (ws & Ews & H). rsimpl. injection H as <-.
  split; [reflexivity|].
  eexists. split; [reflexivity|]. split; [reflexivity|].
  split; [reflexivity|]. split; [intros; reflexivity|].
  unfold Tool.load_content. rsimpl. rewrite Ews. reflexivity.
Qed.

Lemma unload_reload_witness :
  Tool.load_content sample_tool = Raise AssertionError ∧
  ∃ x1, Tool.unload_content sample_tool = Ok x1 ∧
    Tool.is_loaded x1 = false ∧ Tool._sounds x1 = Some [] ∧
    (∀ nw scr, Tool.render nw scr x1 = Raise AssertionError) ∧
    Tool.load_content x1 = Ok sample_tool.
Proof.
  apply (unload_reload
           (Tool.with_loaded false
              (Tool.with_sounds None
                 (Tool.with_background None
                    (Tool.with_text_cache_yellow None
                       (Tool.with_text_cache None sample_tool)))))).
  vm_compute. reflexivity.
Defined.
